(** * OSFS: extent-based allocation, directory entries and file I/O

    A shallow embedding of [inode.c], [dir.c] and [file.c].  C integers are
    modelled as [Z] with the 32-bit wrap-around written out, the two bitmaps
    as non-negative [Z] read with [Z.testbit], and pointers into the inode
    table as inode numbers.  The header [osfs.h] is not part of the sources
    at hand, so the constants it defines are section variables. *)

From Stdlib Require Import ZArith List Bool Lia String Ascii.
From Stdlib Require Strings.Byte.
Import ListNotations.
Local Open Scope Z_scope.

(** ** Machine integers *)

Definition wrap32 (z : Z) : Z := z mod 2 ^ 32.

(** Conversion of a 32-bit pattern to C [int]. *)
Definition to_int (z : Z) : Z :=
  let w := wrap32 z in if w <? 2 ^ 31 then w else w - 2 ^ 32.

(** Conversion of a signed value to [size_t] (64 bits, unsigned). *)
Definition to_size_t (z : Z) : Z := z mod 2 ^ 64.

Definition is_uint32 (z : Z) : Prop := 0 <= z < 2 ^ 32.

(** ** Error numbers (Linux [errno-base.h], [errno.h]) *)

Definition EIO : Z := 5.
Definition ENOMEM : Z := 12.
Definition EFAULT : Z := 14.
Definition EINVAL : Z := 22.
Definition ENOSPC : Z := 28.
Definition ENAMETOOLONG : Z := 36.

(** ** File type bits (Linux [stat.h]) *)

Definition S_IFMT : Z := 61440.
Definition S_IFDIR : Z := 16384.
Definition S_IFREG : Z := 32768.
Definition S_IFLNK : Z := 40960.

Definition S_ISDIR (mode : Z) : bool := Z.land mode S_IFMT =? S_IFDIR.
Definition S_ISREG (mode : Z) : bool := Z.land mode S_IFMT =? S_IFREG.
Definition S_ISLNK (mode : Z) : bool := Z.land mode S_IFMT =? S_IFLNK.

(** ** Bitmaps *)

Definition test_bit (nr : Z) (bitmap : Z) : bool := Z.testbit bitmap nr.
Definition set_bit (nr : Z) (bitmap : Z) : Z := Z.setbit bitmap nr.
Definition clear_bit (nr : Z) (bitmap : Z) : Z := Z.clearbit bitmap nr.

Fixpoint popcount_upto (n : nat) (bitmap : Z) : Z :=
  match n with
  | O => 0
  | S k => popcount_upto k bitmap + (if test_bit (Z.of_nat k) bitmap then 1 else 0)
  end.

(** Number of set bits among the bits [0 .. count-1]. *)
Definition popcount (count : Z) (bitmap : Z) : Z :=
  popcount_upto (Z.to_nat count) bitmap.

(** ** Data model *)

(** Modelled from the spec: the declaration of [struct osfs_extent] is in
    [osfs.h], which is missing; the two fields are those the sources use,
    32-bit unsigned as the data model of the specification has them. *)
Module Extent.
Record osfs_extent : Type := mk
  { start_block : Z;
    block_count : Z }.
Definition zero : osfs_extent := mk 0 0.
End Extent.
Definition osfs_extent : Type := Extent.osfs_extent.

(** The four extent slots embedded in an inode record. *)
Record extent_array : Type := mk_extents
  { slot0 : osfs_extent;
    slot1 : osfs_extent;
    slot2 : osfs_extent;
    slot3 : osfs_extent }.

Definition zero_extents : extent_array :=
  mk_extents Extent.zero Extent.zero Extent.zero Extent.zero.

(** [extents[i]]; the array has four slots, an index outside [0..3] is out
    of bounds in C and reads as an empty slot here. *)
Definition ext_get (a : extent_array) (i : Z) : osfs_extent :=
  if i =? 0 then slot0 a
  else if i =? 1 then slot1 a
  else if i =? 2 then slot2 a
  else if i =? 3 then slot3 a
  else Extent.zero.

Definition ext_set (a : extent_array) (i : Z) (e : osfs_extent) : extent_array :=
  if i =? 0 then mk_extents e (slot1 a) (slot2 a) (slot3 a)
  else if i =? 1 then mk_extents (slot0 a) e (slot2 a) (slot3 a)
  else if i =? 2 then mk_extents (slot0 a) (slot1 a) e (slot3 a)
  else if i =? 3 then mk_extents (slot0 a) (slot1 a) (slot2 a) e
  else a.

(** Modelled from the spec: [struct osfs_inode] is declared in the missing
    [osfs.h]; the fields are those the sources read and write, with the
    fixed array of four extents and the count of extents in use. *)
Record osfs_inode : Type := mk_inode
  { i_ino : Z;
    i_mode : Z;
    i_uid : Z;
    i_gid : Z;
    i_size : Z;
    i_blocks : Z;
    i_atime : Z;
    i_mtime : Z;
    i_ctime : Z;
    extents : extent_array;
    extent_count : Z }.

(** The record after the [memset] that clears the whole inode record. *)
Definition zero_inode : osfs_inode :=
  mk_inode 0 0 0 0 0 0 0 0 0 zero_extents 0.

Definition set_extents (ino : osfs_inode) (a : extent_array) (n : Z) : osfs_inode :=
  mk_inode (i_ino ino) (i_mode ino) (i_uid ino) (i_gid ino) (i_size ino)
           (i_blocks ino) (i_atime ino) (i_mtime ino) (i_ctime ino) a n.

Definition set_extent_count (ino : osfs_inode) (n : Z) : osfs_inode :=
  set_extents ino (extents ino) n.

Definition set_i_size (ino : osfs_inode) (sz : Z) : osfs_inode :=
  mk_inode (i_ino ino) (i_mode ino) (i_uid ino) (i_gid ino) sz
           (i_blocks ino) (i_atime ino) (i_mtime ino) (i_ctime ino)
           (extents ino) (extent_count ino).

(** Modelled from the spec: [struct osfs_sb_info] is declared in the
    missing [osfs.h]; these are its counters and bitmaps as the sources
    use them.  The regions its [inode_table] and [data_blocks] pointers
    refer to are separate components of the file-system state below. *)
Record osfs_sb_info : Type := mk_sb
  { inode_count : Z;
    block_count : Z;
    nr_free_inodes : Z;
    nr_free_blocks : Z;
    inode_bitmap : Z;
    block_bitmap : Z }.

Definition sb_in_range (sb : osfs_sb_info) : Prop :=
  is_uint32 (inode_count sb) /\ is_uint32 (block_count sb) /\
  is_uint32 (nr_free_inodes sb) /\ is_uint32 (nr_free_blocks sb).

(** The two counter invariants of the superblock. *)
Definition block_counter_ok (sb : osfs_sb_info) : Prop :=
  nr_free_blocks sb + popcount (block_count sb) (block_bitmap sb) = block_count sb.

Definition inode_counter_ok (sb : osfs_sb_info) : Prop :=
  nr_free_inodes sb + popcount (inode_count sb) (inode_bitmap sb) = inode_count sb.

(** ** inode.c *)

(** [osfs_get_osfs_inode]: the pointer into the inode table is the inode
    number itself; [None] is NULL. *)
Definition osfs_get_osfs_inode (sb : osfs_sb_info) (ino : Z) : option Z :=
  if (ino =? 0) || (ino >=? inode_count sb) then None else Some ino.

Fixpoint get_free_inode_loop (n : nat) (ino : Z) (sb : osfs_sb_info)
  : Z * osfs_sb_info :=
  match n with
  | O => (- ENOSPC, sb)
  | S n' =>
      if negb (test_bit ino (inode_bitmap sb)) then
        (to_int ino,
         mk_sb (inode_count sb) (block_count sb)
               (wrap32 (nr_free_inodes sb - 1)) (nr_free_blocks sb)
               (set_bit ino (inode_bitmap sb)) (block_bitmap sb))
      else get_free_inode_loop n' (ino + 1) sb
  end.

(** [osfs_get_free_inode]: first-fit scan of the inode bitmap from 1. *)
Definition osfs_get_free_inode (sb : osfs_sb_info) : Z * osfs_sb_info :=
  get_free_inode_loop (Z.to_nat (inode_count sb - 1)) 1 sb.

Fixpoint alloc_data_block_loop (n : nat) (i : Z) (sb : osfs_sb_info)
  : Z * option Z * osfs_sb_info :=
  match n with
  | O => (- ENOSPC, None, sb)
  | S n' =>
      if negb (test_bit i (block_bitmap sb)) then
        (0, Some i,
         mk_sb (inode_count sb) (block_count sb)
               (nr_free_inodes sb) (wrap32 (nr_free_blocks sb - 1))
               (inode_bitmap sb) (set_bit i (block_bitmap sb)))
      else alloc_data_block_loop n' (i + 1) sb
  end.

(** [osfs_alloc_data_block]: return code, the value stored through
    [block_no] (if any), and the updated superblock. *)
Definition osfs_alloc_data_block (sb : osfs_sb_info) : Z * option Z * osfs_sb_info :=
  alloc_data_block_loop (Z.to_nat (block_count sb)) 0 sb.

(** The inner [for (extent_index = 0; extent_index < 4; extent_index++)]
    loop of [osfs_alloc_extent]: the value of [extent_index] when the loop
    is left, and the inode as the loop leaves it. *)
Fixpoint claim_extent_slot (n : nat) (extent_index : Z)
    (start_block required_blocks : Z) (inode : osfs_inode) : Z * osfs_inode :=
  match n with
  | O => (extent_index, inode)
  | S n' =>
      if Extent.block_count (ext_get (extents inode) extent_index) =? 0 then
        (extent_index,
         set_extents inode
           (ext_set (extents inode) extent_index
                    (Extent.mk start_block required_blocks))
           (wrap32 (extent_count inode + 1)))
      else claim_extent_slot n' (extent_index + 1) start_block required_blocks inode
  end.

(** [for (j = start_block; j < start_block + required_blocks; j++) set_bit(j, ...)]. *)
Fixpoint mark_blocks (n : nat) (j : Z) (bitmap : Z) : Z :=
  match n with
  | O => bitmap
  | S n' => mark_blocks n' (j + 1) (set_bit j bitmap)
  end.

Fixpoint alloc_extent_loop (n : nat) (i start_block consecutive_free_blocks : Z)
    (sb : osfs_sb_info) (required_blocks : Z) (inode : osfs_inode)
  : Z * osfs_sb_info * osfs_inode :=
  match n with
  | O => (- ENOSPC, sb, inode)
  | S n' =>
      if negb (test_bit i (block_bitmap sb)) then
        let start_block := if consecutive_free_blocks =? 0 then i else start_block in
        let consecutive_free_blocks := wrap32 (consecutive_free_blocks + 1) in
        if consecutive_free_blocks =? required_blocks then
          let '(extent_index, inode') :=
            claim_extent_slot 4 0 start_block required_blocks inode in
          if extent_index =? 4 then (- ENOSPC, sb, inode')
          else
            (0,
             mk_sb (inode_count sb) (block_count sb) (nr_free_inodes sb)
                   (wrap32 (nr_free_blocks sb - required_blocks))
                   (inode_bitmap sb)
                   (mark_blocks
                      (Z.to_nat (wrap32 (start_block + required_blocks) - start_block))
                      start_block (block_bitmap sb)),
             inode')
        else alloc_extent_loop n' (i + 1) start_block consecutive_free_blocks
                               sb required_blocks inode
      else alloc_extent_loop n' (i + 1) start_block 0 sb required_blocks inode
  end.

(** [osfs_alloc_extent]: return code, updated superblock, updated inode. *)
Definition osfs_alloc_extent (sb : osfs_sb_info) (required_blocks : Z)
    (inode : osfs_inode) : Z * osfs_sb_info * osfs_inode :=
  alloc_extent_loop (Z.to_nat (block_count sb)) 0 0 0 sb required_blocks inode.

(** [osfs_free_data_block]. *)
Definition osfs_free_data_block (sb : osfs_sb_info) (block_no : Z) : osfs_sb_info :=
  mk_sb (inode_count sb) (block_count sb) (nr_free_inodes sb)
        (wrap32 (nr_free_blocks sb + 1))
        (inode_bitmap sb) (clear_bit block_no (block_bitmap sb)).

(** ** The data-block region

    File contents are bytes addressed by their offset from [data_blocks].
    Directory contents are [struct osfs_dir_entry] records read through a
    cast of the same region; they are kept in a typed view keyed by the
    byte offset of the record, since the record layout is fixed by the
    header only. *)

Definition data_region : Type := Z -> Byte.byte.

(** Modelled from the spec: [struct osfs_dir_entry] is declared in the
    missing [osfs.h]; a record is a file name and an inode number, and
    inode number 0 marks a free record. *)
Record osfs_dir_entry : Type := mk_dir_entry
  { filename : string;
    inode_no : Z }.

Definition dir_region : Type := Z -> osfs_dir_entry.

(** [copy_from_user(dst, src, n)] with a readable source buffer. *)
Definition copy_from_user (mem : data_region) (dst : Z) (src : list Byte.byte)
  : data_region :=
  fun a =>
    if (dst <=? a) && (a <? dst + Z.of_nat (List.length src))
    then nth (Z.to_nat (a - dst)) src Byte.x00
    else mem a.

(** The [n] bytes [copy_to_user] takes from the region at offset [src]. *)
Definition copy_to_user (mem : data_region) (src : Z) (n : Z) : list Byte.byte :=
  map (fun k => mem (src + Z.of_nat k)) (seq 0 (Z.to_nat n)).

Definition store_dir_entry (d : dir_region) (addr : Z) (e : osfs_dir_entry)
  : dir_region :=
  fun a => if a =? addr then e else d a.

(** The VFS [struct inode] fields the code touches; [vi_private] is the
    pointer into the inode table. *)
Record vfs_inode : Type := mk_vfs
  { vi_ino : Z;
    vi_mode : Z;
    vi_uid : Z;
    vi_gid : Z;
    vi_size : Z;
    vi_blocks : Z;
    vi_nlink : Z;
    vi_private : option Z }.

(** [struct dir_context]: the cursor, and the consumer behind [dir_emit],
    which takes [ctx_room] more entries before it reports a full buffer;
    [ctx_out] collects what was emitted. *)
Record dir_context : Type := mk_ctx
  { ctx_pos : Z;
    ctx_room : nat;
    ctx_out : list (string * Z) }.

Definition dir_emit (ctx : dir_context) (name : string) (ino : Z)
  : bool * dir_context :=
  match ctx_room ctx with
  | O => (false, ctx)
  | S r => (true, mk_ctx (ctx_pos ctx) r (ctx_out ctx ++ [(name, ino)]))
  end.

Definition ctx_set_pos (ctx : dir_context) (p : Z) : dir_context :=
  mk_ctx p (ctx_room ctx) (ctx_out ctx).

(** The kernel helper [dir_emit_dots]. *)
Definition dir_emit_dots (dot_ino dotdot_ino : Z) (ctx : dir_context)
  : bool * dir_context :=
  let step1 :=
    if ctx_pos ctx =? 0 then
      match dir_emit ctx "."%string dot_ino with
      | (true, c) => (true, ctx_set_pos c 1)
      | (false, c) => (false, c)
      end
    else (true, ctx) in
  match step1 with
  | (false, c) => (false, c)
  | (true, c) =>
      if ctx_pos c =? 1 then
        match dir_emit c ".."%string dotdot_ino with
        | (true, c') => (true, ctx_set_pos c' 2)
        | (false, c') => (false, c')
        end
      else (true, c)
  end.

(** State of the file system as [dir.c] sees it: superblock, inode table
    (indexed by inode number) and directory records. *)
Record fs_state : Type := mk_fs
  { fs_sb : osfs_sb_info;
    fs_inodes : Z -> osfs_inode;
    fs_dir : dir_region }.

Definition store_inode (tbl : Z -> osfs_inode) (p : Z) (v : osfs_inode)
  : Z -> osfs_inode :=
  fun q => if q =? p then v else tbl q.

(** Loop state of [osfs_read] and [osfs_write]. *)
Record io_state : Type := mk_io
  { io_mem : data_region;
    io_pos : Z;
    io_done : Z;
    io_len : Z;
    io_inode : osfs_inode }.

Definition io_set_inode (w : io_state) (ino : osfs_inode) : io_state :=
  mk_io (io_mem w) (io_pos w) (io_done w) (io_len w) ino.

Section Model.

(** Constants of [osfs.h]. *)
Variable BLOCK_SIZE : Z.
Variable MAX_FILENAME_LEN : Z.
(** [sizeof(struct osfs_dir_entry)]. *)
Variable DIR_ENTRY_SIZE : Z.

(** *** file.c *)

Definition extent_start (e : osfs_extent) : Z :=
  wrap32 (Extent.start_block e * BLOCK_SIZE).

Definition extent_end (e : osfs_extent) : Z :=
  wrap32 (extent_start e + wrap32 (Extent.block_count e * BLOCK_SIZE)).

(** The [for] loop of [osfs_read]; [out] is the user buffer filled so far. *)
Fixpoint read_extents (n : nat) (i : Z) (inode : osfs_inode) (mem : data_region)
    (len ppos bytes_read : Z) (out : list Byte.byte)
  : Z * Z * list Byte.byte :=
  match n with
  | O => (bytes_read, ppos, out)
  | S n' =>
      if len >? 0 then
        let extent := ext_get (extents inode) i in
        let start_block := extent_start extent in
        let end_block := extent_end extent in
        if (ppos >=? start_block) && (ppos <? end_block) then
          let to_read := Z.min len (end_block - ppos) in
          read_extents n' (i + 1) inode mem (len - to_read) (ppos + to_read)
                       (bytes_read + to_read)
                       (out ++ copy_to_user mem ppos to_read)
        else read_extents n' (i + 1) inode mem len ppos bytes_read out
      else (bytes_read, ppos, out)
  end.

(** [osfs_read]: return value, new file position, bytes delivered.  The
    user buffer is taken to be writable, so [copy_to_user] succeeds and the
    [-EFAULT] exit is not part of the model.  The sum of the file position
    and [len] that is compared with [i_size] is a [size_t], so it wraps at
    64 bits, and the shortened length is stored into a [size_t]. *)
Definition osfs_read (inode : osfs_inode) (mem : data_region) (len ppos : Z)
  : Z * Z * list Byte.byte :=
  if (extent_count inode =? 0) || (ppos >=? i_size inode) then (0, ppos, [])
  else
    let len :=
      if to_size_t (ppos + len) >? i_size inode
      then to_size_t (i_size inode - ppos)
      else len in
    read_extents (Z.to_nat (extent_count inode)) 0 inode mem len ppos 0 [].

(** The [for] loop of [osfs_write] over the extents of the inode. *)
Fixpoint write_extents (n : nat) (i : Z) (buf : list Byte.byte) (w : io_state)
  : io_state :=
  match n with
  | O => w
  | S n' =>
      if io_len w >? 0 then
        let extent := ext_get (extents (io_inode w)) i in
        let start_block := extent_start extent in
        let end_block := extent_end extent in
        if (io_pos w >=? start_block) && (io_pos w <? end_block) then
          let to_write := Z.min (io_len w) (end_block - io_pos w) in
          let mem' :=
            copy_from_user (io_mem w) (io_pos w - start_block)
              (firstn (Z.to_nat to_write) (skipn (Z.to_nat (io_done w)) buf)) in
          let ppos := io_pos w + to_write in
          let inode' :=
            if ppos >? i_size (io_inode w) then set_i_size (io_inode w) ppos
            else io_inode w in
          write_extents n' (i + 1) buf
            (mk_io mem' ppos (io_done w + to_write) (io_len w - to_write) inode')
        else write_extents n' (i + 1) buf w
      else w
  end.

(** The [while (len > 0)] loop of [osfs_write]. *)
Fixpoint write_loop (fuel : nat) (buf : list Byte.byte) (sb : osfs_sb_info)
    (w : io_state) : option (Z * osfs_sb_info * io_state) :=
  match fuel with
  | O => None
  | S fuel' =>
      if io_len w >? 0 then
        let w1 := write_extents (Z.to_nat (extent_count (io_inode w))) 0 buf w in
        if io_len w1 >? 0 then
          let '(ret, sb', inode') := osfs_alloc_extent sb 1 (io_inode w1) in
          if ret =? 0 then write_loop fuel' buf sb' (io_set_inode w1 inode')
          else Some (ret, sb', io_set_inode w1 inode')
        else write_loop fuel' buf sb w1
      else Some (io_done w, sb, w)
  end.

(** [osfs_write] of the bytes [buf] ([len] is their number) at [ppos].
    The result is the return value, the superblock, and the final loop
    state: data region, file position, [bytes_written], unwritten length
    and inode record.  [fuel] bounds the rounds of the [while] loop; the
    user buffer is taken to be readable, so [copy_from_user] succeeds and
    the [-EFAULT] exit is not part of the model. *)
Definition osfs_write (fuel : nat) (sb : osfs_sb_info) (inode : osfs_inode)
    (mem : data_region) (buf : list Byte.byte) (ppos : Z)
  : option (Z * osfs_sb_info * io_state) :=
  let len := Z.of_nat (List.length buf) in
  if extent_count inode =? 0 then
    let '(ret, sb', inode') := osfs_alloc_extent sb 1 inode in
    if ret =? 0 then
      write_loop fuel buf sb' (mk_io mem ppos 0 len (set_extent_count inode' 1))
    else Some (ret, sb', mk_io mem ppos 0 len inode')
  else write_loop fuel buf sb (mk_io mem ppos 0 len inode).

(** *** dir.c *)

(** Offset of [dir_entries[j]] for an extent starting at offset [base]. *)
Definition entry_addr (base j : Z) : Z := base + j * DIR_ENTRY_SIZE.

(** Inner loop of [osfs_iterate] over the records of one extent, from
    index [j]; [false] is the [return -EINVAL] after a failed [dir_emit]. *)
Fixpoint iterate_entries (n : nat) (j : Z) (base extent_entry_count : Z)
    (d : dir_region) (ctx : dir_context) : bool * dir_context :=
  match n with
  | O => (true, ctx)
  | S n' =>
      if to_size_t j <? extent_entry_count then
        let entry := d (entry_addr base j) in
        if inode_no entry =? 0 then
          iterate_entries n' (j + 1) base extent_entry_count d ctx
        else
          match dir_emit ctx (filename entry) (inode_no entry) with
          | (false, ctx') => (false, ctx')
          | (true, ctx') =>
              iterate_entries n' (j + 1) base extent_entry_count d
                              (ctx_set_pos ctx' (ctx_pos ctx' + 1))
          end
      else (true, ctx)
  end.

(** Outer loop of [osfs_iterate] over the extents. *)
Fixpoint iterate_extents (n : nat) (i : Z) (inode : osfs_inode)
    (d : dir_region) (ctx : dir_context) : Z * dir_context :=
  match n with
  | O => (0, ctx)
  | S n' =>
      let extent := ext_get (extents inode) i in
      let base := extent_start extent in
      let extent_size := wrap32 (Extent.block_count extent * BLOCK_SIZE) in
      let extent_entry_count := extent_size / DIR_ENTRY_SIZE in
      let j := to_int (ctx_pos ctx - 2) in
      match iterate_entries (Z.to_nat (extent_entry_count - to_size_t j)) j
                            base extent_entry_count d ctx with
      | (false, ctx') => (- EINVAL, ctx')
      | (true, ctx') => iterate_extents n' (i + 1) inode d ctx'
      end
  end.

(** [osfs_iterate] on the directory [inode]; [dot_ino] and [dotdot_ino]
    are the inode numbers [dir_emit_dots] reports. *)
Definition osfs_iterate (dot_ino dotdot_ino : Z) (inode : osfs_inode)
    (d : dir_region) (ctx : dir_context) : Z * dir_context :=
  let '(ok, ctx1) :=
    if ctx_pos ctx =? 0 then dir_emit_dots dot_ino dotdot_ino ctx
    else (true, ctx) in
  if ok then iterate_extents (Z.to_nat (extent_count inode)) 0 inode d ctx1
  else (0, ctx1).

(** [osfs_new_inode].  [new_inode_ok] tells whether the kernel's
    [new_inode] returned an inode; [uid], [gid] and [mode] are what
    [inode_init_owner] stamps and [now] is [current_time].  The result is
    the VFS inode or the negated errno, and the state left behind. *)
Definition osfs_new_inode (st : fs_state) (new_inode_ok : bool)
    (uid gid now : Z) (mode : Z) : (vfs_inode + Z) * fs_state :=
  let sb_info := fs_sb st in
  if negb (S_ISDIR mode) && negb (S_ISREG mode) && negb (S_ISLNK mode) then
    (inr (- EINVAL), st)
  else if (nr_free_inodes sb_info =? 0) || (nr_free_blocks sb_info =? 0) then
    (inr (- ENOSPC), st)
  else
    let '(ino, sb1) := osfs_get_free_inode sb_info in
    let st1 := mk_fs sb1 (fs_inodes st) (fs_dir st) in
    if (ino <? 0) || (wrap32 ino >=? inode_count sb1) then (inr (- ENOSPC), st1)
    else if negb new_inode_ok then (inr (- ENOMEM), st1)
    else
      let nlink := if S_ISDIR mode then 2 else 1 in
      match osfs_get_osfs_inode sb1 (wrap32 ino) with
      | None => (inr (- EIO), st1)
      | Some p =>
          let rec0 := mk_inode ino mode uid gid 0 0 now now now zero_extents 0 in
          let '(ret, sb2, rec1) := osfs_alloc_extent sb1 1 rec0 in
          if negb (ret =? 0) then
            (inr ret, mk_fs sb2 (store_inode (fs_inodes st) p rec1) (fs_dir st))
          else
            let sb3 :=
              mk_sb (inode_count sb2) (block_count sb2)
                    (wrap32 (nr_free_inodes sb2 - 1)) (nr_free_blocks sb2)
                    (inode_bitmap sb2) (block_bitmap sb2) in
            (inl (mk_vfs ino mode uid gid 0 0 nlink (Some p)),
             mk_fs sb3 (store_inode (fs_inodes st) p rec1) (fs_dir st))
      end.

(** Scan of one extent of a directory for a record with [inode_no == 0]. *)
Fixpoint find_free_entry (n : nat) (j : Z) (base : Z) (d : dir_region)
  : option Z :=
  match n with
  | O => None
  | S n' =>
      if inode_no (d (entry_addr base j)) =? 0 then Some j
      else find_free_entry n' (j + 1) base d
  end.

(** Scan of the extents [i ..] of a directory; the offset of the first
    free record. *)
Fixpoint find_free_slot (n : nat) (i : Z) (parent_inode : osfs_inode)
    (d : dir_region) : option Z :=
  match n with
  | O => None
  | S n' =>
      let extent := ext_get (extents parent_inode) i in
      let base := extent_start extent in
      let dir_entry_count :=
        to_int (Extent.block_count extent * (BLOCK_SIZE / DIR_ENTRY_SIZE)) in
      match find_free_entry (Z.to_nat dir_entry_count) 0 base d with
      | Some j => Some (entry_addr base j)
      | None => find_free_slot n' (i + 1) parent_inode d
      end
  end.

(** [osfs_add_dir_entry]; [fuel] bounds the depth of the recursion. *)
Fixpoint osfs_add_dir_entry (fuel : nat) (sb : osfs_sb_info)
    (parent_inode : osfs_inode) (d : dir_region)
    (ino : Z) (name : string) (name_len : Z)
  : option (Z * osfs_sb_info * osfs_inode * dir_region) :=
  match fuel with
  | O => None
  | S fuel' =>
      if name_len >? MAX_FILENAME_LEN then
        Some (- ENAMETOOLONG, sb, parent_inode, d)
      else
        match find_free_slot (Z.to_nat (extent_count parent_inode)) 0
                             parent_inode d with
        | Some a =>
            Some (0, sb, parent_inode,
                  store_dir_entry d a
                    (mk_dir_entry (substring 0 (Z.to_nat name_len) name) ino))
        | None =>
            let '(ret, sb', parent') := osfs_alloc_extent sb 1 parent_inode in
            if ret =? 0 then
              osfs_add_dir_entry fuel' sb' parent' d ino name name_len
            else Some (ret, sb', parent', d)
        end
  end.

(** [osfs_create] in the directory whose record is [fs_inodes st dir_ino].
    The result is the return value, the inode bound to the dentry on
    success, and the state left behind. *)
Definition osfs_create (fuel : nat) (st : fs_state) (dir_ino : Z)
    (new_inode_ok : bool) (uid gid now : Z) (name : string) (name_len : Z)
    (mode : Z) : option (Z * option vfs_inode * fs_state) :=
  if name_len >? MAX_FILENAME_LEN then Some (- ENAMETOOLONG, None, st)
  else
    match osfs_new_inode st new_inode_ok uid gid now mode with
    | (inr err, st1) => Some (err, None, st1)
    | (inl inode, st1) =>
        match vi_private inode with
        | None => Some (- EIO, None, st1)
        | Some p =>
            let rec1 :=
              let r := set_i_size (fs_inodes st1 p) 0 in
              mk_inode (i_ino r) (i_mode r) (i_uid r) (i_gid r) (i_size r) 0
                       (i_atime r) (i_mtime r) (i_ctime r)
                       (extents r) (extent_count r) in
            let '(ret, sb2, rec2) := osfs_alloc_extent (fs_sb st1) 1 rec1 in
            if negb (ret =? 0) then
              Some (ret, None,
                    mk_fs sb2 (store_inode (fs_inodes st1) p rec2) (fs_dir st1))
            else
              let tbl2 :=
                store_inode (fs_inodes st1) p (set_extent_count rec2 1) in
              match osfs_add_dir_entry fuel sb2 (tbl2 dir_ino) (fs_dir st1)
                                       (vi_ino inode) name name_len with
              | None => None
              | Some (ret', sb3, parent', d') =>
                  let tbl3 := store_inode tbl2 dir_ino parent' in
                  if negb (ret' =? 0) then
                    Some (ret', None, mk_fs sb3 tbl3 d')
                  else
                    let parent'' :=
                      let r := set_i_size parent'
                                 (wrap32 (i_size parent' + DIR_ENTRY_SIZE)) in
                      mk_inode (i_ino r) (i_mode r) (i_uid r) (i_gid r)
                               (i_size r) (i_blocks r) now now (i_ctime r)
                               (extents r) (extent_count r) in
                    Some (0, Some inode,
                          mk_fs sb3 (store_inode tbl3 dir_ino parent'') d')
              end
        end
    end.

End Model.

(** ** Specification vocabulary *)

(** The blocks [s .. s+req-1] lie in the volume and are all free. *)
Definition free_run (sb : osfs_sb_info) (s req : Z) : Prop :=
  0 <= s /\ s + req <= block_count sb /\
  forall k, s <= k < s + req -> test_bit k (block_bitmap sb) = false.

Definition slot_used (inode : osfs_inode) (i : Z) : bool :=
  negb (Extent.block_count (ext_get (extents inode) i) =? 0).

Definition all_slots_used (inode : osfs_inode) : Prop :=
  slot_used inode 0 = true /\ slot_used inode 1 = true /\
  slot_used inode 2 = true /\ slot_used inode 3 = true.

(** [idx] is the first slot of the inode that is not in use. *)
Definition first_free_slot (inode : osfs_inode) (idx : Z) : Prop :=
  0 <= idx < 4 /\ slot_used inode idx = false /\
  forall k, 0 <= k < idx -> slot_used inode k = true.

(** The superblock after the run [s .. s+req-1] has been handed out. *)
Definition sb_take_run (sb : osfs_sb_info) (s req : Z) : osfs_sb_info :=
  mk_sb (inode_count sb) (block_count sb) (nr_free_inodes sb)
        (wrap32 (nr_free_blocks sb - req)) (inode_bitmap sb)
        (mark_blocks (Z.to_nat req) s (block_bitmap sb)).

(** The inode after slot [idx] has received the extent [(s, req)]. *)
Definition inode_take_slot (inode : osfs_inode) (idx s req : Z) : osfs_inode :=
  set_extents inode (ext_set (extents inode) idx (Extent.mk s req))
              (wrap32 (extent_count inode + 1)).

(** What a call of [osfs_alloc_extent] can return. *)
Inductive alloc_outcome (sb : osfs_sb_info) (req : Z) (inode : osfs_inode)
  : Z * osfs_sb_info * osfs_inode -> Prop :=
| alloc_no_run :
    (forall s, ~ free_run sb s req) ->
    alloc_outcome sb req inode (- ENOSPC, sb, inode)
| alloc_no_slot : forall s,
    free_run sb s req -> all_slots_used inode ->
    alloc_outcome sb req inode (- ENOSPC, sb, inode)
| alloc_done : forall s idx,
    free_run sb s req -> first_free_slot inode idx ->
    (forall s', free_run sb s' req -> s <= s') ->
    alloc_outcome sb req inode
      (0, sb_take_run sb s req, inode_take_slot inode idx s req).

(** The superblock after inode [k] has been handed out. *)
Definition sb_take_inode (sb : osfs_sb_info) (k : Z) : osfs_sb_info :=
  mk_sb (inode_count sb) (block_count sb)
        (wrap32 (nr_free_inodes sb - 1)) (nr_free_blocks sb)
        (set_bit k (inode_bitmap sb)) (block_bitmap sb).

(** The superblock after block [k] has been handed out. *)
Definition sb_take_block (sb : osfs_sb_info) (k : Z) : osfs_sb_info :=
  mk_sb (inode_count sb) (block_count sb)
        (nr_free_inodes sb) (wrap32 (nr_free_blocks sb - 1))
        (inode_bitmap sb) (set_bit k (block_bitmap sb)).

(** Number of extent slots of the inode that are in use. *)
Definition used_slots (inode : osfs_inode) : Z :=
  (if slot_used inode 0 then 1 else 0) + (if slot_used inode 1 then 1 else 0) +
  (if slot_used inode 2 then 1 else 0) + (if slot_used inode 3 then 1 else 0).

(** The inode record [osfs_new_inode] prepares before it allocates the
    first extent. *)
Definition fresh_record (k mode uid gid now : Z) : osfs_inode :=
  mk_inode k mode uid gid 0 0 now now now zero_extents 0.

(** The superblock after a successful [osfs_new_inode] that reserved inode
    [k] and block [s]. *)
Definition new_inode_sb (sb : osfs_sb_info) (k s : Z) : osfs_sb_info :=
  let sb2 := sb_take_run (sb_take_inode sb k) s 1 in
  mk_sb (inode_count sb2) (block_count sb2)
        (wrap32 (nr_free_inodes sb2 - 1)) (nr_free_blocks sb2)
        (inode_bitmap sb2) (block_bitmap sb2).

(** The record offsets of a directory in the order the specification
    names: extent after extent, and slot after slot inside an extent.
    [slots_per_extent] gives the number of records of an extent. *)
Definition extent_slots (des base count : Z) : list Z :=
  map (fun j => base + Z.of_nat j * des) (seq 0 (Z.to_nat count)).

Fixpoint dir_slots_from (bs des : Z) (slots_per_extent : osfs_extent -> Z)
    (n : nat) (i : Z) (inode : osfs_inode) : list Z :=
  match n with
  | O => []
  | S n' =>
      extent_slots des (extent_start bs (ext_get (extents inode) i))
                   (slots_per_extent (ext_get (extents inode) i))
      ++ dir_slots_from bs des slots_per_extent n' (i + 1) inode
  end.

(** Records per extent as [osfs_add_dir_entry] computes them. *)
Definition insert_entry_count (bs des : Z) (e : osfs_extent) : Z :=
  to_int (Extent.block_count e * (bs / des)).

Definition insert_slots (bs des : Z) (inode : osfs_inode) : list Z :=
  dir_slots_from bs des (insert_entry_count bs des)
                 (Z.to_nat (extent_count inode)) 0 inode.

Definition entry_free (d : dir_region) (a : Z) : bool := inode_no (d a) =? 0.

(** The rounds of growth of a directory insertion.
    [grow_retry bs des d k (sb, p) (sb', p')]: [k] times in a row the
    scan of the directory found no free record in [d], and
    [osfs_alloc_extent] then gave the directory one more extent of one
    block; [(sb', p')] is the state the last round left. *)
Inductive grow_retry (bs des : Z) (d : dir_region)
  : nat -> osfs_sb_info * osfs_inode -> osfs_sb_info * osfs_inode -> Prop :=
| grow_done : forall s, grow_retry bs des d 0 s s
| grow_round : forall k sb p sb1 p1 r,
    find (entry_free d) (insert_slots bs des p) = None ->
    osfs_alloc_extent sb 1 p = (0, sb1, p1) ->
    grow_retry bs des d k (sb1, p1) r ->
    grow_retry bs des d (S k) (sb, p) r.

(** Records per extent as [osfs_iterate] computes them. *)
Definition iterate_entry_count (bs des : Z) (e : osfs_extent) : Z :=
  wrap32 (Extent.block_count e * bs) / des.

(** The listing the specification asks of a directory: the records in
    extent order, then slot order, without the free ones. *)
Definition dir_listing (bs des : Z) (inode : osfs_inode) (d : dir_region)
  : list (string * Z) :=
  map (fun a => (filename (d a), inode_no (d a)))
      (filter (fun a => negb (entry_free d a))
              (dir_slots_from bs des (iterate_entry_count bs des)
                              (Z.to_nat (extent_count inode)) 0 inode)).

(** How a loop state of [osfs_write] relates to a later one: the
    unwritten length shrinks by what [bytes_written] gains, the file
    position moves with [bytes_written], [i_size] does not shrink, and
    when no byte was written the data region, the position and [i_size]
    are as before. *)
Definition io_progress (w w' : io_state) : Prop :=
  0 <= io_len w' <= io_len w /\
  io_done w' + io_len w' = io_done w + io_len w /\
  io_pos w' - io_done w' = io_pos w - io_done w /\
  i_size (io_inode w) <= i_size (io_inode w') /\
  (io_done w' = io_done w ->
   io_mem w' = io_mem w /\ io_pos w' = io_pos w /\
   i_size (io_inode w') = i_size (io_inode w)).

(** The loop state of a write that is to stop after [total] bytes. *)
Definition io_trim (total : Z) (w : io_state) : io_state :=
  mk_io (io_mem w) (io_pos w) (io_done w) (total - io_done w) (io_inode w).

(** Both counters agree with their bitmaps, and fit their C type. *)
Definition counters_ok (sb : osfs_sb_info) : Prop :=
  sb_in_range sb /\ block_counter_ok sb /\ inode_counter_ok sb.

(** ** Concrete states *)

(** Concrete volumes used to exercise the statements: four blocks of which
    blocks 0 and 2 are in use, and a volume of 100 blocks, all free. *)
Definition vol_fragmented : osfs_sb_info := mk_sb 8 4 7 2 1 5.
Definition vol_empty : osfs_sb_info := mk_sb 50 100 49 100 1 0.

(** An inode whose four extent slots are taken. *)
Definition inode_four_extents : osfs_inode :=
  mk_inode 1 S_IFREG 0 0 0 0 0 0 0
    (mk_extents (Extent.mk 0 1) (Extent.mk 1 1) (Extent.mk 2 1) (Extent.mk 3 1)) 4.

Definition no_inodes : Z -> osfs_inode := fun _ => zero_inode.
Definition no_entries : dir_region := fun _ => mk_dir_entry EmptyString 0.

(** A fresh volume: 100 blocks, 50 inodes, nothing allocated but the
    reserved inode 0. *)
Definition fs_fresh : fs_state := mk_fs vol_empty no_inodes no_entries.

(** A volume whose two blocks are both in use while [nr_free_blocks]
    still reads 1 (the counter is not checked against the bitmap by
    [osfs_free_data_block], so it can run ahead). *)
Definition fs_blocks_drifted : fs_state :=
  mk_fs (mk_sb 50 2 49 1 1 3) no_inodes no_entries.

(** A volume holding the root directory only: inode 1, one extent at
    block 0. *)
Definition root_dir : osfs_inode :=
  mk_inode 1 S_IFDIR 0 0 0 0 0 0 0
    (mk_extents (Extent.mk 0 1) Extent.zero Extent.zero Extent.zero) 1.

Definition vol_root : osfs_sb_info := mk_sb 50 100 48 99 3 1.

Definition fs_root : fs_state :=
  mk_fs vol_root (store_inode no_inodes 1 root_dir) no_entries.

(** A directory block in which every record is taken. *)
Definition all_entries_used : dir_region := fun _ => mk_dir_entry "x" 9.

(** Directory contents whose block 0 is full while every later block is
    empty. *)
Definition first_block_full : dir_region :=
  fun a => if a <? 4096 then mk_dir_entry "x" 9 else mk_dir_entry EmptyString 0.

(** Directory contents with slot 0 free, ["a"] in slot 1 and ["b"] in
    slot 2 of the block at offset 0 (records of 260 bytes). *)
Definition dir_hole_a_b : dir_region :=
  store_dir_entry (store_dir_entry no_entries 260 (mk_dir_entry "a" 5))
                  520 (mk_dir_entry "b" 6).

(** A directory of two extents, blocks 0 and 1, with ["a"] in the first
    record of block 0 and ["c"] in the first record of block 1. *)
Definition two_extent_dir : osfs_inode :=
  mk_inode 1 S_IFDIR 0 0 0 0 0 0 0
    (mk_extents (Extent.mk 0 1) (Extent.mk 1 1) Extent.zero Extent.zero) 2.

Definition dir_a_then_c : dir_region :=
  store_dir_entry (store_dir_entry no_entries 0 (mk_dir_entry "a" 5))
                  4096 (mk_dir_entry "c" 7).

(** Test data: byte [k] of the pattern is [k mod 251]; a data region
    filled with [0xff]. *)
Definition pattern_byte (k : nat) : Byte.byte :=
  match Strings.Byte.of_nat (k mod 251) with
  | Some b => b
  | None => Byte.x00
  end.

Definition pattern (n : nat) : list Byte.byte := map pattern_byte (seq 0 n).

Definition blank_region : data_region := fun _ => Byte.xff.

(** File ["a"] of the scenario: inode 1 with one extent, block 0, on a
    volume of 100 blocks; and the same file on a volume of one block. *)
Definition file_a : osfs_inode :=
  mk_inode 1 S_IFREG 0 0 0 0 0 0 0
    (mk_extents (Extent.mk 0 1) Extent.zero Extent.zero Extent.zero) 1.

Definition vol_file_a : osfs_sb_info := mk_sb 50 100 48 99 3 1.
Definition vol_single_block : osfs_sb_info := mk_sb 50 1 48 0 3 1.

(** A second file, inode 2, whose extent is block 1. *)
Definition file_b : osfs_inode :=
  mk_inode 2 S_IFREG 0 0 0 0 0 0 0
    (mk_extents (Extent.mk 1 1) Extent.zero Extent.zero Extent.zero) 1.

Definition vol_two_files : osfs_sb_info := mk_sb 50 100 47 98 7 3.

(** ** Further functions of inode.c and dir.c *)

(** [osfs_iget].  [new_inode_ok] tells whether the kernel's [new_inode]
    returned an inode (which then has link count 1).  The result is the
    VFS inode filled from the record at [ino], or the negated errno. *)
Definition osfs_iget (sb : osfs_sb_info) (tbl : Z -> osfs_inode)
    (new_inode_ok : bool) (ino : Z) : vfs_inode + Z :=
  match osfs_get_osfs_inode sb (wrap32 ino) with
  | None => inr (- EFAULT)
  | Some p =>
      if negb new_inode_ok then inr (- ENOMEM)
      else
        let osfs_inode := tbl p in
        inl (mk_vfs ino (i_mode osfs_inode) (i_uid osfs_inode) (i_gid osfs_inode)
                    (i_size osfs_inode) (i_blocks osfs_inode) 1 (Some p))
  end.

(** What [osfs_lookup] hands back: the dentry bound to an inode, NULL, or
    an error pointer. *)
Inductive lookup_result : Type :=
| LookupFound (inode : vfs_inode)
| LookupNone
| LookupError (err : Z).

(** The test of [osfs_lookup] on the record at offset [a]: the stored
    name has the length of the name looked up, and [strncmp] finds no
    difference on that length. *)
Definition name_matches (d : dir_region) (name : string) (name_len : Z) (a : Z)
  : bool :=
  (Z.of_nat (String.length (filename (d a))) =? name_len)
  && String.eqb (filename (d a)) (substring 0 (Z.to_nat name_len) name).

Section ModelLookup.

Variable BLOCK_SIZE : Z.
Variable DIR_ENTRY_SIZE : Z.

(** Inner loop of [osfs_lookup] over the records of one extent. *)
Fixpoint lookup_entries (n : nat) (j : Z) (base : Z) (d : dir_region)
    (name : string) (name_len : Z) : option Z :=
  match n with
  | O => None
  | S n' =>
      if name_matches d name name_len (entry_addr DIR_ENTRY_SIZE base j)
      then Some j
      else lookup_entries n' (j + 1) base d name name_len
  end.

(** Records per extent as [osfs_lookup] computes them: the byte size goes
    through an [int], the quotient by [sizeof] is unsigned and goes back
    into an [int]. *)
Definition lookup_entry_count (e : osfs_extent) : Z :=
  to_int (to_size_t (to_int (wrap32 (Extent.block_count e * BLOCK_SIZE)))
          / DIR_ENTRY_SIZE).

(** Outer loop of [osfs_lookup]: the offset of the first record whose
    name matches. *)
Fixpoint lookup_extents (n : nat) (i : Z) (parent_inode : osfs_inode)
    (d : dir_region) (name : string) (name_len : Z) : option Z :=
  match n with
  | O => None
  | S n' =>
      let extent := ext_get (extents parent_inode) i in
      let base := extent_start BLOCK_SIZE extent in
      match lookup_entries (Z.to_nat (lookup_entry_count extent)) 0 base d
                           name name_len with
      | Some j => Some (entry_addr DIR_ENTRY_SIZE base j)
      | None => lookup_extents n' (i + 1) parent_inode d name name_len
      end
  end.

(** [osfs_lookup] of [name] in the directory whose record is
    [parent_inode]. *)
Definition osfs_lookup (sb : osfs_sb_info) (tbl : Z -> osfs_inode)
    (new_inode_ok : bool) (parent_inode : osfs_inode) (d : dir_region)
    (name : string) (name_len : Z) : lookup_result :=
  match lookup_extents (Z.to_nat (extent_count parent_inode)) 0 parent_inode d
                       name name_len with
  | Some a =>
      match osfs_iget sb tbl new_inode_ok (inode_no (d a)) with
      | inl inode => LookupFound inode
      | inr err => LookupError err
      end
  | None => LookupNone
  end.

End ModelLookup.

(** ** Further specification vocabulary *)

(** The record offsets [osfs_lookup] visits, extent after extent and slot
    after slot. *)
Definition lookup_slots (bs des : Z) (inode : osfs_inode) : list Z :=
  dir_slots_from bs des (lookup_entry_count bs des)
                 (Z.to_nat (extent_count inode)) 0 inode.

(** Every extent slot of the inode is unused or holds a single block, as
    the extents [osfs_new_inode] and [osfs_add_dir_entry] ask for do. *)
Definition single_block_extents (inode : osfs_inode) : Prop :=
  forall i, Extent.block_count (ext_get (extents inode) i) = 0 \/
            Extent.block_count (ext_get (extents inode) i) = 1.

(** The dentry [osfs_lookup] hands back for the inode number [ino]. *)
Definition lookup_of_inode (sb : osfs_sb_info) (tbl : Z -> osfs_inode)
    (new_inode_ok : bool) (ino : Z) : lookup_result :=
  match osfs_iget sb tbl new_inode_ok ino with
  | inl inode => LookupFound inode
  | inr err => LookupError err
  end.

(** The record [osfs_add_dir_entry] stores for [name] and [ino]. *)
Definition new_dir_entry (name : string) (name_len ino : Z) : osfs_dir_entry :=
  mk_dir_entry (substring 0 (Z.to_nat name_len) name) ino.

(** The first free bit of a bitmap at or after [from]: [k] is clear and
    every bit in [from .. k-1] is set. *)
Definition first_clear_bit (bitmap from k : Z) : Prop :=
  from <= k /\ test_bit k bitmap = false /\
  forall j, from <= j < k -> test_bit j bitmap = true.

(** The names and inode numbers of the records in use among the record
    offsets [slots], in the order of [slots]. *)
Definition used_entries (d : dir_region) (slots : list Z) : list (string * Z) :=
  map (fun a => (filename (d a), inode_no (d a)))
      (filter (fun a => negb (entry_free d a)) slots).

(** How [i_size] moves between two loop states of [osfs_write]: it stays
    when no byte was written in between, and is otherwise the larger of
    the old size and the file position reached. *)
Definition size_law (w w' : io_state) : Prop :=
  i_size (io_inode w') =
  if io_done w' =? io_done w then i_size (io_inode w)
  else Z.max (i_size (io_inode w)) (io_pos w').

(** The test both loops of file.c make on an extent: the file position
    lies in the byte range of the extent. *)
Definition in_extent (bs : Z) (e : osfs_extent) (pos : Z) : bool :=
  (pos >=? extent_start bs e) && (pos <? extent_end bs e).

(** Slot [i] is the first extent slot of the inode, below
    [extent_count], whose byte range holds [pos]. *)
Definition first_extent_holding (bs : Z) (inode : osfs_inode) (pos i : Z) : Prop :=
  0 <= i < extent_count inode /\
  in_extent bs (ext_get (extents inode) i) pos = true /\
  forall j, 0 <= j < i -> in_extent bs (ext_get (extents inode) j) pos = false.

(** * Properties *)

(** ** Machine integers and bitmaps *)

Lemma wrap32_small (z : Z) : 0 <= z < 2 ^ 32 -> wrap32 z = z.
Proof. intros H. unfold wrap32. apply Z.mod_small. exact H. Qed.

Lemma wrap32_range (z : Z) : 0 <= wrap32 z < 2 ^ 32.
Proof. unfold wrap32. apply Z.mod_pos_bound. lia. Qed.

Lemma test_set_bit (i j bm : Z) :
  0 <= i -> test_bit j (set_bit i bm) = (i =? j) || test_bit j bm.
Proof. intros Hi. unfold test_bit, set_bit. apply Z.setbit_eqb. exact Hi. Qed.

Lemma test_set_bit_other (i j bm : Z) :
  0 <= i -> i <> j -> test_bit j (set_bit i bm) = test_bit j bm.
Proof.
  intros Hi Hne. rewrite test_set_bit by exact Hi.
  destruct (Z.eqb_spec i j); [contradiction | reflexivity].
Qed.


Lemma mark_blocks_test (n : nat) (j bm k : Z) :
  0 <= j ->
  test_bit k (mark_blocks n j bm) =
  ((j <=? k) && (k <? j + Z.of_nat n)) || test_bit k bm.
Proof.
  revert j bm. induction n as [|n IH]; intros j bm Hj.
  - simpl mark_blocks.
    replace ((j <=? k) && (k <? j + Z.of_nat 0)) with false; [reflexivity|].
    symmetry. apply andb_false_iff.
    destruct (Z.leb_spec j k); [right; apply Z.ltb_ge; lia | left; reflexivity].
  - cbn [mark_blocks]. rewrite IH by lia. rewrite test_set_bit by exact Hj.
    rewrite Nat2Z.inj_succ.
    destruct (Z.eqb_spec j k) as [->|Hne].
    + replace (k <=? k) with true by (symmetry; apply Z.leb_le; lia).
      replace (k <? k + Z.succ (Z.of_nat n)) with true
        by (symmetry; apply Z.ltb_lt; lia).
      rewrite orb_true_r. reflexivity.
    + cbn [orb].
      destruct (Z.leb_spec (j + 1) k), (Z.leb_spec j k); try lia;
      destruct (Z.ltb_spec k (j + 1 + Z.of_nat n)),
               (Z.ltb_spec k (j + Z.succ (Z.of_nat n))); try lia; reflexivity.
Qed.

(** ** [osfs_alloc_extent] *)

Lemma claim_extent_slot_spec (s req : Z) (inode : osfs_inode) :
  (all_slots_used inode /\ claim_extent_slot 4 0 s req inode = (4, inode)) \/
  (exists idx, first_free_slot inode idx /\
     claim_extent_slot 4 0 s req inode = (idx, inode_take_slot inode idx s req)).
Proof.
  unfold all_slots_used, first_free_slot, slot_used, inode_take_slot.
  cbn [claim_extent_slot].
  change (0 + 1) with 1. change (1 + 1) with 2.
  change (2 + 1) with 3. change (3 + 1) with 4.
  destruct (Extent.block_count (ext_get (extents inode) 0) =? 0) eqn:E0.
  { right. exists 0. repeat split; try lia; try reflexivity; try assumption. }
  destruct (Extent.block_count (ext_get (extents inode) 1) =? 0) eqn:E1.
  { right. exists 1. repeat split; try lia; try reflexivity; try assumption.
    intros k Hk. assert (k = 0) as -> by lia. rewrite E0. reflexivity. }
  destruct (Extent.block_count (ext_get (extents inode) 2) =? 0) eqn:E2.
  { right. exists 2. repeat split; try lia; try reflexivity; try assumption.
    intros k Hk. assert (k = 0 \/ k = 1) as [-> | ->] by lia;
      [rewrite E0 | rewrite E1]; reflexivity. }
  destruct (Extent.block_count (ext_get (extents inode) 3) =? 0) eqn:E3.
  { right. exists 3. repeat split; try lia; try reflexivity; try assumption.
    intros k Hk. assert (k = 0 \/ k = 1 \/ k = 2) as [-> | [-> | ->]] by lia;
      [rewrite E0 | rewrite E1 | rewrite E2]; reflexivity. }
  left. repeat split; reflexivity.
Qed.

Lemma alloc_extent_loop_spec (sb : osfs_sb_info) (req : Z) (inode : osfs_inode) :
  0 < req -> block_count sb < 2 ^ 32 ->
  forall (n : nat) (i start cons : Z),
    0 <= cons <= i -> cons < req ->
    i + Z.of_nat n = block_count sb ->
    (0 < cons -> start = i - cons) ->
    (forall k, i - cons <= k < i -> test_bit k (block_bitmap sb) = false) ->
    (cons = i \/ test_bit (i - cons - 1) (block_bitmap sb) = true) ->
    (forall s', free_run sb s' req -> i < s' + req) ->
    alloc_outcome sb req inode (alloc_extent_loop n i start cons sb req inode).
Proof.
  intros Hreq Hbc. induction n as [|n IH];
    intros i start cons Hcons Hlt Hn Hstart Hclear Hmax Hnone.
  - cbn [alloc_extent_loop]. apply alloc_no_run.
    intros s Hrun. specialize (Hnone s Hrun).
    destruct Hrun as (_ & Hend & _). cbn in Hn. lia.
  - rewrite Nat2Z.inj_succ in Hn. cbn [alloc_extent_loop].
    destruct (test_bit i (block_bitmap sb)) eqn:Hbit; cbn [negb].
    + (* block [i] is in use: the run is reset *)
      apply IH; [lia | lia | lia | lia | intros k Hk; lia | | ].
      * right. replace (i + 1 - 0 - 1) with i by lia. exact Hbit.
      * intros s' Hrun. specialize (Hnone s' Hrun).
        destruct Hrun as (Hs0 & Hend & Hfree).
        destruct (Z.eq_dec (s' + req) (i + 1)) as [Heq|Hne]; [|lia].
        rewrite Hfree in Hbit by lia. discriminate.
    + (* block [i] is free: the run grows *)
      assert (Hst : (if cons =? 0 then i else start) = i - cons).
      { destruct (Z.eqb_spec cons 0) as [->|Hnz]; [lia | apply Hstart; lia]. }
      rewrite Hst. rewrite (wrap32_small (cons + 1)) by lia.
      assert (Hrun : cons + 1 = req -> free_run sb (i - cons) req).
      { intros Heq. repeat split; try lia.
        intros k Hk. destruct (Z.eq_dec k i) as [->|Hki];
          [exact Hbit | apply Hclear; lia]. }
      destruct (Z.eqb_spec (cons + 1) req) as [Heq|Hne].
      * specialize (Hrun Heq).
        destruct (claim_extent_slot_spec (i - cons) req inode)
          as [[Hfull Hc] | (idx & Hidx & Hc)]; rewrite Hc.
        -- cbn [Z.eqb Pos.eqb]. apply alloc_no_slot with (s := i - cons); assumption.
        -- destruct Hidx as (Hrange & Hfree & Hlow).
           destruct (Z.eqb_spec idx 4) as [->|_]; [lia|].
           rewrite (wrap32_small (i - cons + req)) by lia.
           replace (i - cons + req - (i - cons)) with req by lia.
           apply alloc_done;
             [assumption | split; [exact Hrange | split; [exact Hfree | exact Hlow]] |].
           intros s' Hrun'. specialize (Hnone s' Hrun'). lia.
      * apply IH; [lia | lia | lia | lia | | | ].
        -- intros k Hk. destruct (Z.eq_dec k i) as [->|Hki];
             [exact Hbit | apply Hclear; lia].
        -- destruct Hmax as [Hmax|Hmax]; [left; lia | right].
           replace (i + 1 - (cons + 1) - 1) with (i - cons - 1) by lia. exact Hmax.
        -- intros s' Hrun'. specialize (Hnone s' Hrun').
           destruct Hrun' as (Hs0 & Hend & Hfree).
           destruct (Z.eq_dec (s' + req) (i + 1)) as [Heq|Hne']; [|lia].
           destruct Hmax as [Hmax|Hmax]; [lia|].
           rewrite Hfree in Hmax by lia. discriminate.
Qed.

Lemma osfs_alloc_extent_spec (sb : osfs_sb_info) (req : Z) (inode : osfs_inode) :
  0 < req -> is_uint32 (block_count sb) ->
  alloc_outcome sb req inode (osfs_alloc_extent sb req inode).
Proof.
  intros Hreq [Hlo Hhi]. unfold osfs_alloc_extent.
  apply alloc_extent_loop_spec;
    [lia | lia | lia | lia | lia | lia | intros k Hk; lia | left; reflexivity | ].
  intros s' (Hs0 & _ & _). lia.
Qed.

(** A request for no blocks at all never matches the run length, which is
    compared only after it has been incremented. *)
Lemma alloc_extent_loop_nonpos (sb : osfs_sb_info) (req : Z) (inode : osfs_inode) :
  block_count sb < 2 ^ 32 -> req <= 0 ->
  forall (n : nat) (i start cons : Z),
    0 <= cons <= i -> i + Z.of_nat n <= block_count sb ->
    alloc_extent_loop n i start cons sb req inode = (- ENOSPC, sb, inode).
Proof.
  intros Hbc Hreq. induction n as [|n IH]; intros i start cons Hcons Hn.
  - reflexivity.
  - rewrite Nat2Z.inj_succ in Hn. cbn [alloc_extent_loop].
    destruct (test_bit i (block_bitmap sb)); cbn [negb].
    + apply IH; lia.
    + rewrite (wrap32_small (cons + 1)) by lia.
      destruct (Z.eqb_spec (cons + 1) req) as [Heq|_]; [lia|].
      apply IH; lia.
Qed.

Lemma osfs_alloc_extent_nonpos (sb : osfs_sb_info) (req : Z) (inode : osfs_inode) :
  is_uint32 (block_count sb) -> req <= 0 ->
  osfs_alloc_extent sb req inode = (- ENOSPC, sb, inode).
Proof.
  intros [Hlo Hhi] Hreq. unfold osfs_alloc_extent.
  apply alloc_extent_loop_nonpos; lia.
Qed.

Lemma first_free_slot_not_full (inode : osfs_inode) (idx : Z) :
  first_free_slot inode idx -> all_slots_used inode -> False.
Proof.
  intros (Hr & Hfree & _) (H0 & H1 & H2 & H3).
  assert (idx = 0 \/ idx = 1 \/ idx = 2 \/ idx = 3) as [-> | [-> | [-> | ->]]]
    by lia; congruence.
Qed.

(** The return code of a failed allocation is always [-ENOSPC], and a
    failed allocation changes nothing. *)
Lemma alloc_outcome_cases (sb : osfs_sb_info) (req : Z) (inode : osfs_inode)
    (r : Z * osfs_sb_info * osfs_inode) :
  alloc_outcome sb req inode r ->
  r = (- ENOSPC, sb, inode) \/
  exists s idx, free_run sb s req /\ first_free_slot inode idx /\
    r = (0, sb_take_run sb s req, inode_take_slot inode idx s req).
Proof.
  intros [Hno | s Hrun Hfull | s idx Hrun Hidx Hmin].
  - left. reflexivity.
  - left. reflexivity.
  - right. exists s, idx. split; [exact Hrun | split; [exact Hidx | reflexivity]].
Qed.

(** *** Claims about [osfs_alloc_extent] *)

(** C3: for [required_blocks > 0], [osfs_alloc_extent] returns 0 only if
    the block bitmap holds a run of [required_blocks] consecutive clear
    bits inside the volume; when no such run exists it returns [-ENOSPC]
    and changes nothing, whatever the value of [nr_free_blocks]. *)
Theorem osfs_alloc_extent_contiguous (sb : osfs_sb_info) (req : Z)
    (inode : osfs_inode) :
  0 < req -> is_uint32 (block_count sb) ->
  (forall sb' inode',
      osfs_alloc_extent sb req inode = (0, sb', inode') ->
      exists s, free_run sb s req) /\
  ((forall s, ~ free_run sb s req) ->
   osfs_alloc_extent sb req inode = (- ENOSPC, sb, inode)).
Proof.
  intros Hreq Hbc.
  pose proof (osfs_alloc_extent_spec sb req inode Hreq Hbc) as Hout.
  split.
  - intros sb' inode' Heq. rewrite Heq in Hout.
    inversion Hout as [Hno | s Hrun Hfull | s idx Hrun Hidx Hmin].
    exists s. exact Hrun.
  - intros Hnone.
    destruct (alloc_outcome_cases _ _ _ _ Hout) as [Hfail | (s & idx & Hrun & _)].
    + exact Hfail.
    + destruct (Hnone s Hrun).
Qed.

(** On the fragmented volume two blocks are free but not adjacent: a
    request for two blocks fails although [nr_free_blocks] is 2. *)
Lemma osfs_alloc_extent_contiguous_witness :
  (2 <=? nr_free_blocks vol_fragmented) = true /\
  osfs_alloc_extent vol_fragmented 2 zero_inode
  = (- ENOSPC, vol_fragmented, zero_inode).
Proof.
  split; [reflexivity|].
  apply (osfs_alloc_extent_contiguous vol_fragmented 2 zero_inode).
  - lia.
  - unfold is_uint32. simpl. lia.
  - intros s (Hs0 & Hend & Hfree). simpl in Hend.
    assert (Hb0 := Hfree 0). assert (Hb2 := Hfree 2).
    assert (s = 0 \/ s = 1 \/ s = 2) as [-> | [-> | ->]] by lia.
    + specialize (Hb0 ltac:(lia)). discriminate Hb0.
    + specialize (Hb2 ltac:(lia)). discriminate Hb2.
    + specialize (Hb2 ltac:(lia)). discriminate Hb2.
Defined.

(** C10: a request for zero blocks always fails with [-ENOSPC] and leaves
    the superblock and the inode as they were. *)
Theorem osfs_alloc_extent_zero_request (sb : osfs_sb_info) (inode : osfs_inode) :
  is_uint32 (block_count sb) ->
  osfs_alloc_extent sb 0 inode = (- ENOSPC, sb, inode).
Proof.
  intros Hbc. apply osfs_alloc_extent_nonpos; [exact Hbc | lia].
Qed.

Lemma osfs_alloc_extent_zero_request_witness :
  osfs_alloc_extent vol_empty 0 zero_inode = (- ENOSPC, vol_empty, zero_inode).
Proof.
  apply (osfs_alloc_extent_zero_request vol_empty zero_inode).
  unfold is_uint32. simpl. lia.
Defined.

(** C4, as the code has it: with all four slots in use the call fails
    with [-ENOSPC], the very code of the no-space failure, and changes
    nothing. *)
Theorem osfs_alloc_extent_slots_exhausted (sb : osfs_sb_info) (req : Z)
    (inode : osfs_inode) :
  is_uint32 (block_count sb) -> all_slots_used inode ->
  osfs_alloc_extent sb req inode = (- ENOSPC, sb, inode).
Proof.
  intros Hbc Hfull.
  destruct (Z_le_gt_dec req 0) as [Hle | Hgt].
  - apply osfs_alloc_extent_nonpos; assumption.
  - pose proof (osfs_alloc_extent_spec sb req inode ltac:(lia) Hbc) as Hout.
    destruct (alloc_outcome_cases _ _ _ _ Hout) as [Hfail | (s & idx & _ & Hidx & _)].
    + exact Hfail.
    + destruct (first_free_slot_not_full _ _ Hidx Hfull).
Qed.

Lemma osfs_alloc_extent_slots_exhausted_witness :
  osfs_alloc_extent vol_empty 1 inode_four_extents
  = (- ENOSPC, vol_empty, inode_four_extents).
Proof.
  apply (osfs_alloc_extent_slots_exhausted vol_empty 1 inode_four_extents).
  - unfold is_uint32. simpl. lia.
  - repeat split.
Defined.

(** C4, as stated, fails: on a volume with every block free, the inode
    with four extents gets exactly the return value that a volume with no
    free block gives to an inode with free slots, so the slot failure is
    not a distinct error kind. *)
Lemma osfs_alloc_extent_slot_failure_not_distinct :
  all_slots_used inode_four_extents /\
  free_run vol_empty 0 1 /\
  fst (fst (osfs_alloc_extent vol_empty 1 inode_four_extents))
  = fst (fst (osfs_alloc_extent (mk_sb 50 2 49 0 1 3) 1 zero_inode)).
Proof.
  split; [repeat split|]. split; [|reflexivity].
  split; [lia|]. split; [simpl; lia|].
  intros k Hk. assert (k = 0) as -> by lia. reflexivity.
Qed.

(** ** Counting bits *)

Lemma popcount_upto_bounds (n : nat) (bm : Z) :
  0 <= popcount_upto n bm <= Z.of_nat n.
Proof.
  induction n as [|n IH]; [cbn; lia|].
  rewrite Nat2Z.inj_succ. cbn [popcount_upto].
  destruct (test_bit (Z.of_nat n) bm); lia.
Qed.

(** A clear bit below [n] leaves room in the count. *)
Lemma popcount_upto_room (n : nat) (bm i : Z) :
  0 <= i < Z.of_nat n -> test_bit i bm = false ->
  popcount_upto n bm <= Z.of_nat n - 1.
Proof.
  induction n as [|n IH]; intros Hi Hbit; [cbn in Hi; lia|].
  rewrite Nat2Z.inj_succ in *. cbn [popcount_upto].
  destruct (Z.eq_dec i (Z.of_nat n)) as [->|Hne].
  - rewrite Hbit. pose proof (popcount_upto_bounds n bm). lia.
  - specialize (IH ltac:(lia) Hbit).
    destruct (test_bit (Z.of_nat n) bm); lia.
Qed.

Lemma popcount_upto_set_bit (n : nat) (bm i : Z) :
  0 <= i ->
  popcount_upto n (set_bit i bm) =
  popcount_upto n bm +
  (if (i <? Z.of_nat n) && negb (test_bit i bm) then 1 else 0).
Proof.
  intros Hi. induction n as [|n IH].
  - cbn [popcount_upto]. destruct (Z.ltb_spec i (Z.of_nat 0)); [cbn in *; lia|].
    reflexivity.
  - cbn [popcount_upto]. rewrite IH. rewrite Nat2Z.inj_succ.
    rewrite test_set_bit by exact Hi.
    destruct (Z.eqb_spec i (Z.of_nat n)) as [->|Hne].
    + destruct (Z.ltb_spec (Z.of_nat n) (Z.of_nat n)); [lia|].
      destruct (Z.ltb_spec (Z.of_nat n) (Z.succ (Z.of_nat n))); [|lia].
      cbn [andb orb]. destruct (test_bit (Z.of_nat n) bm); cbn [negb]; lia.
    + cbn [orb].
      destruct (Z.ltb_spec i (Z.of_nat n)), (Z.ltb_spec i (Z.succ (Z.of_nat n)));
        try lia; cbn [andb]; lia.
Qed.

Lemma popcount_upto_clear_bit (n : nat) (bm i : Z) :
  0 <= i ->
  popcount_upto n (clear_bit i bm) =
  popcount_upto n bm -
  (if (i <? Z.of_nat n) && test_bit i bm then 1 else 0).
Proof.
  intros Hi. induction n as [|n IH].
  - cbn [popcount_upto]. destruct (Z.ltb_spec i (Z.of_nat 0)); [cbn in *; lia|].
    reflexivity.
  - cbn [popcount_upto]. rewrite IH. rewrite Nat2Z.inj_succ.
    unfold test_bit at 2, clear_bit. rewrite Z.clearbit_eqb by exact Hi.
    fold (test_bit (Z.of_nat n) bm).
    destruct (Z.eqb_spec i (Z.of_nat n)) as [->|Hne].
    + destruct (Z.ltb_spec (Z.of_nat n) (Z.of_nat n)); [lia|].
      destruct (Z.ltb_spec (Z.of_nat n) (Z.succ (Z.of_nat n))); [|lia].
      cbn [andb negb]. rewrite andb_false_r.
      destruct (test_bit (Z.of_nat n) bm); lia.
    + cbn [negb]. rewrite andb_true_r.
      destruct (Z.ltb_spec i (Z.of_nat n)), (Z.ltb_spec i (Z.succ (Z.of_nat n)));
        try lia; cbn [andb]; lia.
Qed.

Lemma popcount_set_free_bit (count bm i : Z) :
  0 <= i < count -> test_bit i bm = false ->
  popcount count (set_bit i bm) = popcount count bm + 1.
Proof.
  intros Hi Hbit. unfold popcount. rewrite popcount_upto_set_bit by lia.
  rewrite Z2Nat.id by lia. rewrite Hbit.
  destruct (Z.ltb_spec i count); [reflexivity | lia].
Qed.

Lemma popcount_room (count bm i : Z) :
  0 <= i < count -> test_bit i bm = false -> popcount count bm <= count - 1.
Proof.
  intros Hi Hbit. unfold popcount.
  pose proof (popcount_upto_room (Z.to_nat count) bm i) as H.
  rewrite Z2Nat.id in H by lia. apply H; assumption.
Qed.

Lemma popcount_mark_blocks (count : Z) (n : nat) (bm s : Z) :
  0 <= s -> s + Z.of_nat n <= count ->
  (forall k, s <= k < s + Z.of_nat n -> test_bit k bm = false) ->
  popcount count (mark_blocks n s bm) = popcount count bm + Z.of_nat n.
Proof.
  revert bm s. induction n as [|n IH]; intros bm s Hs Hend Hfree.
  - cbn. lia.
  - rewrite Nat2Z.inj_succ in *. cbn [mark_blocks].
    rewrite IH; [| lia | lia |].
    + rewrite popcount_set_free_bit; [lia | lia | apply Hfree; lia].
    + intros k Hk. rewrite test_set_bit_other by lia. apply Hfree. lia.
Qed.

(** ** The bitmap allocators and the counters *)

Lemma get_free_inode_loop_spec (sb : osfs_sb_info) (n : nat) (ino : Z) :
  0 <= ino ->
  (get_free_inode_loop n ino sb = (- ENOSPC, sb) /\
   forall k, ino <= k < ino + Z.of_nat n -> test_bit k (inode_bitmap sb) = true) \/
  (exists k, ino <= k < ino + Z.of_nat n /\
     test_bit k (inode_bitmap sb) = false /\
     get_free_inode_loop n ino sb = (to_int k, sb_take_inode sb k)).
Proof.
  revert ino. induction n as [|n IH]; intros ino Hino.
  - left. split; [reflexivity | intros k Hk; cbn in Hk; lia].
  - rewrite Nat2Z.inj_succ. cbn [get_free_inode_loop].
    destruct (test_bit ino (inode_bitmap sb)) eqn:Hbit; cbn [negb].
    + destruct (IH (ino + 1) ltac:(lia)) as [[Hr Hall] | (k & Hk & Hfree & Hr)].
      * left. split; [exact Hr|]. intros k Hk.
        destruct (Z.eq_dec k ino) as [->|Hne]; [exact Hbit | apply Hall; lia].
      * right. exists k. split; [lia|]. split; assumption.
    + right. exists ino. split; [lia|]. split; [exact Hbit | reflexivity].
Qed.

Lemma alloc_data_block_loop_spec (sb : osfs_sb_info) (n : nat) (i : Z) :
  0 <= i ->
  (alloc_data_block_loop n i sb = (- ENOSPC, None, sb) /\
   forall k, i <= k < i + Z.of_nat n -> test_bit k (block_bitmap sb) = true) \/
  (exists k, i <= k < i + Z.of_nat n /\
     test_bit k (block_bitmap sb) = false /\
     alloc_data_block_loop n i sb = (0, Some k, sb_take_block sb k)).
Proof.
  revert i. induction n as [|n IH]; intros i Hi.
  - left. split; [reflexivity | intros k Hk; cbn in Hk; lia].
  - rewrite Nat2Z.inj_succ. cbn [alloc_data_block_loop].
    destruct (test_bit i (block_bitmap sb)) eqn:Hbit; cbn [negb].
    + destruct (IH (i + 1) ltac:(lia)) as [[Hr Hall] | (k & Hk & Hfree & Hr)].
      * left. split; [exact Hr|]. intros k Hk.
        destruct (Z.eq_dec k i) as [->|Hne]; [exact Hbit | apply Hall; lia].
      * right. exists k. split; [lia|]. split; assumption.
    + right. exists i. split; [lia|]. split; [exact Hbit | reflexivity].
Qed.

Lemma sb_take_inode_counter (sb : osfs_sb_info) (k : Z) :
  sb_in_range sb -> inode_counter_ok sb ->
  0 <= k < inode_count sb -> test_bit k (inode_bitmap sb) = false ->
  inode_counter_ok (sb_take_inode sb k) /\
  nr_free_inodes (sb_take_inode sb k) = nr_free_inodes sb - 1.
Proof.
  intros (Hic & Hbc & Hfi & Hfb) Hok Hk Hbit.
  unfold inode_counter_ok, sb_take_inode in *. cbn [nr_free_inodes inode_count inode_bitmap].
  rewrite popcount_set_free_bit by assumption.
  pose proof (popcount_room _ _ _ Hk Hbit).
  unfold is_uint32 in *. rewrite wrap32_small by lia. lia.
Qed.

Lemma osfs_get_free_inode_counter (sb : osfs_sb_info) :
  sb_in_range sb -> inode_counter_ok sb ->
  inode_counter_ok (snd (osfs_get_free_inode sb)).
Proof.
  intros Hr Hok. unfold osfs_get_free_inode.
  destruct (get_free_inode_loop_spec sb (Z.to_nat (inode_count sb - 1)) 1 ltac:(lia))
    as [[Heq _] | (k & Hk & Hbit & Heq)]; rewrite Heq; cbn [snd].
  - exact Hok.
  - apply sb_take_inode_counter; try assumption. lia.
Qed.

Lemma osfs_alloc_data_block_counter (sb : osfs_sb_info) :
  sb_in_range sb -> block_counter_ok sb ->
  block_counter_ok (snd (osfs_alloc_data_block sb)).
Proof.
  intros (Hic & Hbc & Hfi & Hfb) Hok. unfold osfs_alloc_data_block.
  destruct (alloc_data_block_loop_spec sb (Z.to_nat (block_count sb)) 0 ltac:(lia))
    as [[Heq _] | (k & Hk & Hbit & Heq)]; rewrite Heq; cbn [snd].
  - exact Hok.
  - unfold block_counter_ok, sb_take_block in *.
    cbn [nr_free_blocks block_count block_bitmap].
    assert (Hk' : 0 <= k < block_count sb) by lia.
    rewrite popcount_set_free_bit by assumption.
    pose proof (popcount_room _ _ _ Hk' Hbit).
    unfold is_uint32 in *. rewrite wrap32_small by lia. lia.
Qed.

Lemma sb_take_run_counter (sb : osfs_sb_info) (s req : Z) :
  0 < req -> sb_in_range sb -> block_counter_ok sb -> free_run sb s req ->
  block_counter_ok (sb_take_run sb s req) /\
  nr_free_blocks (sb_take_run sb s req) = nr_free_blocks sb - req.
Proof.
  intros Hreq (Hic & Hbc & Hfi & Hfb) Hok (Hs & Hend & Hfree).
  unfold block_counter_ok, sb_take_run in *.
  cbn [nr_free_blocks block_count block_bitmap].
  assert (Hpc : popcount (block_count sb)
                  (mark_blocks (Z.to_nat req) s (block_bitmap sb))
                = popcount (block_count sb) (block_bitmap sb) + req).
  { rewrite popcount_mark_blocks; rewrite ?Z2Nat.id by lia; try lia. exact Hfree. }
  rewrite Hpc.
  pose proof (popcount_upto_bounds (Z.to_nat (block_count sb))
                (mark_blocks (Z.to_nat req) s (block_bitmap sb))) as Hb.
  fold (popcount (block_count sb)
          (mark_blocks (Z.to_nat req) s (block_bitmap sb))) in Hb.
  rewrite Hpc in Hb. unfold is_uint32 in *. rewrite Z2Nat.id in Hb by lia.
  rewrite wrap32_small by lia. lia.
Qed.

(** [osfs_alloc_extent] keeps the block counter in step with the bitmap
    and does not touch the inode counter or the inode bitmap. *)
Lemma osfs_alloc_extent_counter (sb : osfs_sb_info) (req : Z) (inode : osfs_inode) :
  0 < req -> sb_in_range sb -> block_counter_ok sb ->
  let sb' := snd (fst (osfs_alloc_extent sb req inode)) in
  block_counter_ok sb' /\ sb_in_range sb' /\
  inode_count sb' = inode_count sb /\ block_count sb' = block_count sb /\
  nr_free_inodes sb' = nr_free_inodes sb /\ inode_bitmap sb' = inode_bitmap sb.
Proof.
  intros Hreq Hr Hok.
  pose proof (osfs_alloc_extent_spec sb req inode Hreq (proj1 (proj2 Hr))) as Hout.
  destruct (alloc_outcome_cases _ _ _ _ Hout) as [Heq | (s & idx & Hrun & _ & Heq)];
    rewrite Heq; cbn [fst snd].
  - repeat split; try assumption; try apply Hr.
  - destruct (sb_take_run_counter sb s req Hreq Hr Hok Hrun) as [Hok' Hnr].
    split; [exact Hok'|].
    destruct Hr as (Hic & Hbc & Hfi & Hfb).
    split; [| repeat split].
    unfold sb_in_range. cbn [inode_count block_count nr_free_inodes sb_take_run].
    repeat split; try apply Hic; try apply Hbc; try apply Hfi;
      cbn [nr_free_blocks]; apply wrap32_range.
Qed.

Lemma osfs_free_data_block_counter (sb : osfs_sb_info) (block_no : Z) :
  sb_in_range sb -> block_counter_ok sb ->
  0 <= block_no < block_count sb ->
  test_bit block_no (block_bitmap sb) = true ->
  block_counter_ok (osfs_free_data_block sb block_no).
Proof.
  intros (Hic & Hbc & Hfi & Hfb) Hok Hb Hbit.
  unfold block_counter_ok, osfs_free_data_block in *.
  cbn [nr_free_blocks block_count block_bitmap].
  unfold popcount in *. rewrite popcount_upto_clear_bit by lia.
  rewrite Z2Nat.id by lia. rewrite Hbit.
  destruct (Z.ltb_spec block_no (block_count sb)); [|lia]. cbn [andb].
  pose proof (popcount_upto_bounds (Z.to_nat (block_count sb))
                (clear_bit block_no (block_bitmap sb))) as Hbd.
  rewrite popcount_upto_clear_bit in Hbd by lia.
  rewrite Z2Nat.id in Hbd by lia. rewrite Hbit in Hbd.
  destruct (Z.ltb_spec block_no (block_count sb)); [|lia]. cbn [andb] in Hbd.
  unfold is_uint32 in *. rewrite wrap32_small by lia. lia.
Qed.

Lemma osfs_alloc_extent_inode_side (sb : osfs_sb_info) (req : Z) (inode : osfs_inode) :
  0 < req -> is_uint32 (block_count sb) ->
  let sb' := snd (fst (osfs_alloc_extent sb req inode)) in
  inode_count sb' = inode_count sb /\ block_count sb' = block_count sb /\
  nr_free_inodes sb' = nr_free_inodes sb /\ inode_bitmap sb' = inode_bitmap sb.
Proof.
  intros Hreq Hbc.
  pose proof (osfs_alloc_extent_spec sb req inode Hreq Hbc) as Hout.
  destruct (alloc_outcome_cases _ _ _ _ Hout) as [Heq | (s & idx & _ & _ & Heq)];
    rewrite Heq; cbn [fst snd]; repeat split.
Qed.

(** ** [osfs_new_inode] *)

Lemma first_free_slot_unique (inode : osfs_inode) (i j : Z) :
  first_free_slot inode i -> first_free_slot inode j -> i = j.
Proof.
  intros (Hi & Hfi & Hli) (Hj & Hfj & Hlj).
  destruct (Z.lt_trichotomy i j) as [Hlt | [Heq | Hgt]]; [| exact Heq |].
  - rewrite (Hlj i) in Hfi by lia. discriminate.
  - rewrite (Hli j) in Hfj by lia. discriminate.
Qed.

Lemma wrap32_sub_idem (a b : Z) : wrap32 (wrap32 a - b) = wrap32 (a - b).
Proof. unfold wrap32. apply Zminus_mod_idemp_l. Qed.

(** The inode number [osfs_get_free_inode] returns is the bit it set,
    when it fits a C [int]. *)
Lemma to_int_nonneg (k : Z) :
  0 <= k < 2 ^ 32 -> (to_int k <? 0) = false -> to_int k = k /\ wrap32 k = k.
Proof.
  intros Hk Hneg. unfold to_int in *. rewrite (wrap32_small k Hk) in *.
  destruct (k <? 2 ^ 31); [split; reflexivity|].
  apply Z.ltb_ge in Hneg. lia.
Qed.

(** A successful [osfs_new_inode], in full: inode [k] is reserved, the
    record at [k] is cleared, stamped and given block [s] as its first
    extent, and the free-inode counter is decremented a second time. *)
Lemma osfs_new_inode_success (st st' : fs_state) (ok : bool)
    (uid gid now mode : Z) (vi : vfs_inode) :
  sb_in_range (fs_sb st) ->
  osfs_new_inode st ok uid gid now mode = (inl vi, st') ->
  exists k s, 1 <= k < inode_count (fs_sb st) /\
    test_bit k (inode_bitmap (fs_sb st)) = false /\
    free_run (fs_sb st) s 1 /\
    vi_ino vi = k /\ vi_private vi = Some k /\
    st' = mk_fs (new_inode_sb (fs_sb st) k s)
                (store_inode (fs_inodes st) k
                   (inode_take_slot (fresh_record k mode uid gid now) 0 s 1))
                (fs_dir st).
Proof.
  intros Hr Hnew. unfold osfs_new_inode in Hnew.
  destruct (negb (S_ISDIR mode) && negb (S_ISREG mode) && negb (S_ISLNK mode));
    [discriminate|].
  destruct ((nr_free_inodes (fs_sb st) =? 0) || (nr_free_blocks (fs_sb st) =? 0));
    [discriminate|].
  unfold osfs_get_free_inode in Hnew.
  destruct (get_free_inode_loop_spec (fs_sb st)
              (Z.to_nat (inode_count (fs_sb st) - 1)) 1 ltac:(lia))
    as [[Heq _] | (k & Hk & Hbit & Heq)]; rewrite Heq in Hnew.
  - cbn in Hnew. discriminate.
  - assert (Hk' : 1 <= k < inode_count (fs_sb st)) by lia.
    destruct ((to_int k <? 0) ||
              (wrap32 (to_int k) >=? inode_count (sb_take_inode (fs_sb st) k)))
      eqn:Hchk; [discriminate|].
    apply orb_false_iff in Hchk. destruct Hchk as [Hneg Hge].
    assert (Hk32 : 0 <= k < 2 ^ 32).
    { destruct Hr as ((_ & Hic) & _). lia. }
    destruct (to_int_nonneg k Hk32 Hneg) as [Hint Hw].
    rewrite Hint in Hnew.
    destruct (negb ok); [discriminate|].
    rewrite Hw in Hnew.
    destruct (osfs_get_osfs_inode (sb_take_inode (fs_sb st) k) k) as [p|] eqn:Hp;
      [|discriminate].
    assert (p = k) as ->.
    { unfold osfs_get_osfs_inode in Hp.
      destruct ((k =? 0) || (k >=? inode_count (sb_take_inode (fs_sb st) k)));
        congruence. }
    fold (fresh_record k mode uid gid now) in Hnew.
    pose proof (osfs_alloc_extent_spec (sb_take_inode (fs_sb st) k) 1
                  (fresh_record k mode uid gid now)
                  Z.lt_0_1 (proj1 (proj2 Hr))) as Hout.
    destruct (alloc_outcome_cases _ _ _ _ Hout)
      as [Heqa | (s & idx & Hrun & Hidx & Heqa)]; rewrite Heqa in Hnew.
    + cbn in Hnew. discriminate.
    + assert (idx = 0) as ->.
      { apply (first_free_slot_unique (fresh_record k mode uid gid now));
          [exact Hidx|].
        split; [lia|]. split; [reflexivity | intros j Hj; lia]. }
      cbn [Z.eqb negb] in Hnew. injection Hnew as <- <-.
      exists k, s. repeat split; try lia; try assumption; apply Hrun.
Qed.

(** C1 (the code drifts): after every successful [osfs_new_inode] from a
    state in which the free-inode counter agrees with the inode bitmap,
    the two no longer agree: one bit was set, the counter went down by
    two. *)
Theorem osfs_new_inode_counter_drift (st st' : fs_state) (ok : bool)
    (uid gid now mode : Z) (vi : vfs_inode) :
  sb_in_range (fs_sb st) -> inode_counter_ok (fs_sb st) ->
  osfs_new_inode st ok uid gid now mode = (inl vi, st') ->
  popcount (inode_count (fs_sb st')) (inode_bitmap (fs_sb st'))
  = popcount (inode_count (fs_sb st)) (inode_bitmap (fs_sb st)) + 1 /\
  nr_free_inodes (fs_sb st') = wrap32 (nr_free_inodes (fs_sb st) - 2) /\
  ~ inode_counter_ok (fs_sb st').
Proof.
  intros Hr Hok Hnew.
  destruct (osfs_new_inode_success _ _ _ _ _ _ _ _ Hr Hnew)
    as (k & s & Hk & Hbit & _ & _ & _ & ->).
  cbn [fs_sb new_inode_sb sb_take_run sb_take_inode inode_count inode_bitmap
       nr_free_inodes].
  assert (Hpc : popcount (inode_count (fs_sb st)) (set_bit k (inode_bitmap (fs_sb st)))
                = popcount (inode_count (fs_sb st)) (inode_bitmap (fs_sb st)) + 1).
  { apply popcount_set_free_bit; [lia | exact Hbit]. }
  assert (Hnr : wrap32 (wrap32 (nr_free_inodes (fs_sb st) - 1) - 1)
                = wrap32 (nr_free_inodes (fs_sb st) - 2)).
  { rewrite wrap32_sub_idem. f_equal. lia. }
  split; [exact Hpc|]. split; [exact Hnr|].
  unfold inode_counter_ok in *.
  cbn [new_inode_sb sb_take_run sb_take_inode inode_count inode_bitmap
       nr_free_inodes]. rewrite Hpc, Hnr.
  pose proof (popcount_room (inode_count (fs_sb st)) (inode_bitmap (fs_sb st)) k
                ltac:(lia) Hbit) as Hroom.
  destruct Hr as (Hcnt & _ & Hfi & _). unfold is_uint32 in *.
  pose proof (popcount_upto_bounds (Z.to_nat (inode_count (fs_sb st)))
                (inode_bitmap (fs_sb st))) as Hb.
  fold (popcount (inode_count (fs_sb st)) (inode_bitmap (fs_sb st))) in Hb.
  destruct (Z.eq_dec (nr_free_inodes (fs_sb st)) 1) as [H1 | Hn1].
  - rewrite H1. change (wrap32 (1 - 2)) with (2 ^ 32 - 1). lia.
  - rewrite wrap32_small by lia. lia.
Qed.

(** On the fresh volume: creating one regular file sets one bit of the
    inode bitmap and takes the counter from 49 to 47. *)
Lemma osfs_new_inode_counter_drift_witness :
  inode_counter_ok (fs_sb fs_fresh) /\
  nr_free_inodes (fs_sb (snd (osfs_new_inode fs_fresh true 0 0 0 S_IFREG))) = 47 /\
  ~ inode_counter_ok (fs_sb (snd (osfs_new_inode fs_fresh true 0 0 0 S_IFREG))).
Proof.
  assert (Hr : sb_in_range (fs_sb fs_fresh)).
  { unfold sb_in_range, is_uint32. simpl. lia. }
  assert (Hok : inode_counter_ok (fs_sb fs_fresh)) by reflexivity.
  destruct (osfs_new_inode fs_fresh true 0 0 0 S_IFREG) as [[vi | err] st'] eqn:Hnew.
  - destruct (osfs_new_inode_counter_drift fs_fresh st' true 0 0 0 S_IFREG vi
                Hr Hok Hnew) as (_ & Hnr & Hbad).
    split; [exact Hok|]. split; [|exact Hbad].
    cbn [snd]. rewrite Hnr. reflexivity.
  - vm_compute in Hnew. discriminate Hnew.
Defined.




(** ** Extent slots in use *)

Lemma used_slots_bounds (inode : osfs_inode) : 0 <= used_slots inode <= 4.
Proof.
  unfold used_slots.
  destruct (slot_used inode 0), (slot_used inode 1),
           (slot_used inode 2), (slot_used inode 3); lia.
Qed.

Lemma inode_take_slot_used_slots (inode : osfs_inode) (idx s req : Z) :
  first_free_slot inode idx -> req <> 0 ->
  used_slots (inode_take_slot inode idx s req) = used_slots inode + 1.
Proof.
  intros (Hr & Hfree & _) Hreq.
  assert (Hq : (req =? 0) = false) by (apply Z.eqb_neq; exact Hreq).
  destruct inode as [a1 a2 a3 a4 a5 a6 a7 a8 a9 [[s0 b0] [s1 b1] [s2 b2] [s3 b3]] cnt].
  unfold used_slots, slot_used, inode_take_slot, set_extents, ext_get, ext_set in *.
  cbn [extents slot0 slot1 slot2 slot3 Extent.block_count] in *.
  assert (idx = 0 \/ idx = 1 \/ idx = 2 \/ idx = 3) as [-> | [-> | [-> | ->]]]
    by lia;
    cbn [Z.eqb Pos.eqb slot0 slot1 slot2 slot3 Extent.block_count] in Hfree |- *;
    rewrite Hq; apply negb_false_iff in Hfree; rewrite Hfree; cbn [negb]; lia.
Qed.

(** A successful allocation of a non-empty extent takes one more slot. *)
Lemma osfs_alloc_extent_takes_slot (sb sb' : osfs_sb_info) (req : Z)
    (inode inode' : osfs_inode) :
  0 < req -> is_uint32 (block_count sb) ->
  osfs_alloc_extent sb req inode = (0, sb', inode') ->
  used_slots inode' = used_slots inode + 1 /\ block_count sb' = block_count sb.
Proof.
  intros Hreq Hbc Heq.
  pose proof (osfs_alloc_extent_spec sb req inode Hreq Hbc) as Hout.
  rewrite Heq in Hout.
  destruct (alloc_outcome_cases _ _ _ _ Hout) as [Hf | (s & idx & _ & Hidx & Hs)].
  - discriminate Hf.
  - injection Hs as -> ->. split; [|reflexivity].
    apply inode_take_slot_used_slots; [exact Hidx | lia].
Qed.

Lemma osfs_alloc_extent_failure (sb sb' : osfs_sb_info) (req ret : Z)
    (inode inode' : osfs_inode) :
  0 < req -> is_uint32 (block_count sb) ->
  osfs_alloc_extent sb req inode = (ret, sb', inode') -> ret <> 0 ->
  ret = - ENOSPC /\ sb' = sb /\ inode' = inode.
Proof.
  intros Hreq Hbc Heq Hret.
  pose proof (osfs_alloc_extent_spec sb req inode Hreq Hbc) as Hout.
  rewrite Heq in Hout.
  destruct (alloc_outcome_cases _ _ _ _ Hout) as [Hf | (s & idx & _ & _ & Hs)].
  - injection Hf as -> -> ->. repeat split.
  - injection Hs as -> _ _. contradiction.
Qed.

Lemma used_slots_four (inode : osfs_inode) :
  used_slots inode = 4 -> all_slots_used inode.
Proof.
  unfold used_slots, all_slots_used.
  destruct (slot_used inode 0), (slot_used inode 1),
           (slot_used inode 2), (slot_used inode 3); intros H;
    try lia; repeat split.
Qed.

(** After four successful allocations for one inode, whatever it held
    before, a fifth call fails with [-ENOSPC] and changes nothing. *)
Lemma osfs_alloc_extent_fifth_call
    (sb0 sb1 sb2 sb3 sb4 : osfs_sb_info) (i0 i1 i2 i3 i4 : osfs_inode)
    (r1 r2 r3 r4 r5 : Z) :
  is_uint32 (block_count sb0) ->
  0 < r1 -> 0 < r2 -> 0 < r3 -> 0 < r4 ->
  osfs_alloc_extent sb0 r1 i0 = (0, sb1, i1) ->
  osfs_alloc_extent sb1 r2 i1 = (0, sb2, i2) ->
  osfs_alloc_extent sb2 r3 i2 = (0, sb3, i3) ->
  osfs_alloc_extent sb3 r4 i3 = (0, sb4, i4) ->
  osfs_alloc_extent sb4 r5 i4 = (- ENOSPC, sb4, i4).
Proof.
  intros Hbc H1 H2 H3 H4 A1 A2 A3 A4.
  destruct (osfs_alloc_extent_takes_slot _ _ _ _ _ H1 Hbc A1) as [U1 C1].
  rewrite <- C1 in Hbc.
  destruct (osfs_alloc_extent_takes_slot _ _ _ _ _ H2 Hbc A2) as [U2 C2].
  rewrite <- C2 in Hbc.
  destruct (osfs_alloc_extent_takes_slot _ _ _ _ _ H3 Hbc A3) as [U3 C3].
  rewrite <- C3 in Hbc.
  destruct (osfs_alloc_extent_takes_slot _ _ _ _ _ H4 Hbc A4) as [U4 C4].
  rewrite <- C4 in Hbc.
  pose proof (used_slots_bounds i0). pose proof (used_slots_bounds i4).
  assert (Hfull : all_slots_used i4) by (apply used_slots_four; lia).
  destruct (Z_le_gt_dec r5 0) as [Hle | Hgt].
  - apply osfs_alloc_extent_nonpos; assumption.
  - pose proof (osfs_alloc_extent_spec sb4 r5 i4 ltac:(lia) Hbc) as Hout.
    destruct (alloc_outcome_cases _ _ _ _ Hout) as [Hfail | (s & idx & _ & Hidx & _)].
    + exact Hfail.
    + destruct (first_free_slot_not_full _ _ Hidx Hfull).
Qed.

(** ** [osfs_add_dir_entry] *)

Lemma find_app_first {A : Type} (f : A -> bool) (l1 l2 : list A) :
  find f (l1 ++ l2) =
  match find f l1 with Some x => Some x | None => find f l2 end.
Proof.
  induction l1 as [|x l1 IH]; [reflexivity|].
  cbn [app find]. destruct (f x); [reflexivity | exact IH].
Qed.

Section DirInsert.

Variables BLOCK_SIZE MAX_FILENAME_LEN DIR_ENTRY_SIZE : Z.

(** The scan of one extent returns the first free record in slot order. *)
Lemma find_free_entry_first (d : dir_region) (base : Z) (n : nat) (j : Z) :
  option_map (entry_addr DIR_ENTRY_SIZE base)
             (find_free_entry DIR_ENTRY_SIZE n j base d)
  = find (entry_free d)
         (map (fun k => entry_addr DIR_ENTRY_SIZE base (j + Z.of_nat k)) (seq 0 n)).
Proof.
  revert j. induction n as [|n IH]; intros j; [reflexivity|].
  cbn [find_free_entry seq map find]. unfold entry_free at 1.
  replace (j + Z.of_nat 0) with j by lia.
  destruct (inode_no (d (entry_addr DIR_ENTRY_SIZE base j)) =? 0); [reflexivity|].
  rewrite IH. rewrite <- seq_shift, map_map. f_equal.
  apply map_ext. intros k. f_equal. lia.
Qed.

(** The scan of the directory returns the first free record in extent
    order, then slot order. *)
Lemma find_free_slot_first (d : dir_region) (parent : osfs_inode) (n : nat) (i : Z) :
  find_free_slot BLOCK_SIZE DIR_ENTRY_SIZE n i parent d
  = find (entry_free d)
         (dir_slots_from BLOCK_SIZE DIR_ENTRY_SIZE
            (insert_entry_count BLOCK_SIZE DIR_ENTRY_SIZE) n i parent).
Proof.
  revert i. induction n as [|n IH]; intros i; [reflexivity|].
  cbn [find_free_slot dir_slots_from]. rewrite find_app_first.
  unfold extent_slots, insert_entry_count.
  pose proof (find_free_entry_first d
                (extent_start BLOCK_SIZE (ext_get (extents parent) i))
                (Z.to_nat (to_int (Extent.block_count (ext_get (extents parent) i)
                                   * (BLOCK_SIZE / DIR_ENTRY_SIZE)))) 0) as Hf.
  unfold entry_addr in Hf at 2. cbn [Z.add] in Hf. rewrite <- Hf.
  destruct (find_free_entry DIR_ENTRY_SIZE _ 0 _ d); cbn [option_map];
    [reflexivity | apply IH].
Qed.

(** More fuel does not change a result. *)
Lemma osfs_add_dir_entry_fuel_mono (fuel : nat) :
  forall sb parent d ino name name_len r,
    osfs_add_dir_entry BLOCK_SIZE MAX_FILENAME_LEN DIR_ENTRY_SIZE
      fuel sb parent d ino name name_len = Some r ->
    osfs_add_dir_entry BLOCK_SIZE MAX_FILENAME_LEN DIR_ENTRY_SIZE
      (S fuel) sb parent d ino name name_len = Some r.
Proof.
  induction fuel as [|fuel IH]; intros sb parent d ino name name_len r Hr;
    [discriminate|].
  cbn [osfs_add_dir_entry] in Hr.
  change (osfs_add_dir_entry BLOCK_SIZE MAX_FILENAME_LEN DIR_ENTRY_SIZE
            (S (S fuel)) sb parent d ino name name_len)
    with (if name_len >? MAX_FILENAME_LEN
          then Some (- ENAMETOOLONG, sb, parent, d)
          else
            match find_free_slot BLOCK_SIZE DIR_ENTRY_SIZE
                    (Z.to_nat (extent_count parent)) 0 parent d with
            | Some a =>
                Some (0, sb, parent,
                      store_dir_entry d a
                        (mk_dir_entry (substring 0 (Z.to_nat name_len) name) ino))
            | None =>
                let '(ret, sb', parent') := osfs_alloc_extent sb 1 parent in
                if ret =? 0
                then osfs_add_dir_entry BLOCK_SIZE MAX_FILENAME_LEN DIR_ENTRY_SIZE
                       (S fuel) sb' parent' d ino name name_len
                else Some (ret, sb', parent', d)
            end).
  destruct (name_len >? MAX_FILENAME_LEN); [exact Hr|].
  destruct (find_free_slot BLOCK_SIZE DIR_ENTRY_SIZE
              (Z.to_nat (extent_count parent)) 0 parent d); [exact Hr|].
  destruct (osfs_alloc_extent sb 1 parent) as [[ret sb'] parent'].
  destruct (ret =? 0); [apply IH; exact Hr | exact Hr].
Qed.

Lemma osfs_add_dir_entry_fuel_le (f1 f2 : nat) :
  (f1 <= f2)%nat ->
  forall sb parent d ino name name_len r,
    osfs_add_dir_entry BLOCK_SIZE MAX_FILENAME_LEN DIR_ENTRY_SIZE
      f1 sb parent d ino name name_len = Some r ->
    osfs_add_dir_entry BLOCK_SIZE MAX_FILENAME_LEN DIR_ENTRY_SIZE
      f2 sb parent d ino name name_len = Some r.
Proof.
  induction 1 as [|f2 Hle IH]; intros sb parent d ino name name_len r Hr;
    [exact Hr|].
  apply osfs_add_dir_entry_fuel_mono. apply IH. exact Hr.
Qed.

(** With one unit of fuel per free extent slot, and one more, the
    insertion returns: it found a free record, or it ran out of slots or
    blocks and reports [-ENOSPC].  Each round of growth takes one extent
    slot of the directory. *)
Lemma osfs_add_dir_entry_returns (fuel : nat) :
  forall sb parent d ino name name_len,
    is_uint32 (block_count sb) ->
    name_len <= MAX_FILENAME_LEN ->
    4 - used_slots parent + 1 <= Z.of_nat fuel ->
    exists ret sb' parent' d',
      osfs_add_dir_entry BLOCK_SIZE MAX_FILENAME_LEN DIR_ENTRY_SIZE
      fuel sb parent d ino name name_len
      = Some (ret, sb', parent', d') /\
      (ret = 0 \/ ret = - ENOSPC) /\
      used_slots parent <= used_slots parent' <= 4.
Proof.
  induction fuel as [|fuel IH]; intros sb parent d ino name name_len Hbc Hlen Hfuel.
  - pose proof (used_slots_bounds parent). lia.
  - cbn [osfs_add_dir_entry].
    destruct (Z.gtb_spec name_len MAX_FILENAME_LEN) as [Hgt|_]; [lia|].
    destruct (find_free_slot BLOCK_SIZE DIR_ENTRY_SIZE
                (Z.to_nat (extent_count parent)) 0 parent d) as [a|].
    + exists 0, sb, parent, (store_dir_entry d a
                (mk_dir_entry (substring 0 (Z.to_nat name_len) name) ino)).
      pose proof (used_slots_bounds parent).
      split; [reflexivity|]. split; [left; reflexivity | lia].
    + destruct (osfs_alloc_extent sb 1 parent) as [[ret sb'] parent'] eqn:Halloc.
      destruct (Z.eqb_spec ret 0) as [-> | Hne].
      * destruct (osfs_alloc_extent_takes_slot _ _ _ _ _ Z.lt_0_1 Hbc Halloc)
          as [Hused Hcount].
        pose proof (used_slots_bounds parent').
        destruct (IH sb' parent' d ino name name_len) as
          (ret & sb'' & parent'' & d' & Hrun & Hret & Hu);
          [rewrite Hcount; exact Hbc | exact Hlen | rewrite Nat2Z.inj_succ in Hfuel; lia |].
        exists ret, sb'', parent'', d'.
        split; [exact Hrun|]. split; [exact Hret | lia].
      * destruct (osfs_alloc_extent_failure _ _ _ _ _ _ Z.lt_0_1 Hbc Halloc Hne)
          as (-> & -> & ->).
        exists (- ENOSPC), sb, parent, d.
        pose proof (used_slots_bounds parent).
        split; [reflexivity|]. split; [right; reflexivity | lia].
Qed.

(** The rounds of the insertion, one by one: every retry follows a scan
    that found no free record and a successful allocation of one block;
    the call ends with the entry stored in the first free record of the
    directory as grown, or with a scan that found nothing and an
    allocation that failed. *)
Lemma osfs_add_dir_entry_rounds (fuel : nat) :
  forall sb parent d ino name name_len,
    is_uint32 (block_count sb) ->
    name_len <= MAX_FILENAME_LEN ->
    4 - used_slots parent + 1 <= Z.of_nat fuel ->
    exists (k : nat) ret sb' parent' d',
      osfs_add_dir_entry BLOCK_SIZE MAX_FILENAME_LEN DIR_ENTRY_SIZE
        fuel sb parent d ino name name_len
      = Some (ret, sb', parent', d') /\
      grow_retry BLOCK_SIZE DIR_ENTRY_SIZE d k (sb, parent) (sb', parent') /\
      Z.of_nat k = used_slots parent' - used_slots parent /\
      used_slots parent' <= 4 /\
      ((ret = 0 /\
        exists a,
          find (entry_free d) (insert_slots BLOCK_SIZE DIR_ENTRY_SIZE parent') = Some a /\
          d' = store_dir_entry d a
                 (mk_dir_entry (substring 0 (Z.to_nat name_len) name) ino)) \/
       (ret = - ENOSPC /\ d' = d /\
        find (entry_free d) (insert_slots BLOCK_SIZE DIR_ENTRY_SIZE parent') = None /\
        osfs_alloc_extent sb' 1 parent' = (- ENOSPC, sb', parent') /\
        (all_slots_used parent' \/ forall s, ~ free_run sb' s 1))).
Proof.
  induction fuel as [|fuel IH]; intros sb parent d ino name name_len Hbc Hlen Hfuel.
  - pose proof (used_slots_bounds parent). lia.
  - cbn [osfs_add_dir_entry].
    destruct (Z.gtb_spec name_len MAX_FILENAME_LEN) as [Hgt|_]; [lia|].
    pose proof (used_slots_bounds parent) as Hub.
    destruct (find_free_slot BLOCK_SIZE DIR_ENTRY_SIZE
                (Z.to_nat (extent_count parent)) 0 parent d) as [a|] eqn:Hfind;
      rewrite find_free_slot_first in Hfind;
      fold (insert_slots BLOCK_SIZE DIR_ENTRY_SIZE parent) in Hfind.
    + exists 0%nat, 0, sb, parent, (store_dir_entry d a
                (mk_dir_entry (substring 0 (Z.to_nat name_len) name) ino)).
      split; [reflexivity|]. split; [apply grow_done|].
      split; [cbn; lia|]. split; [lia|].
      left. split; [reflexivity|]. exists a. split; [exact Hfind | reflexivity].
    + destruct (osfs_alloc_extent sb 1 parent) as [[ret sb1] parent1] eqn:Halloc.
      destruct (Z.eqb_spec ret 0) as [-> | Hne].
      * destruct (osfs_alloc_extent_takes_slot _ _ _ _ _ Z.lt_0_1 Hbc Halloc)
          as [Hused Hcount].
        destruct (IH sb1 parent1 d ino name name_len) as
          (k & ret & sb' & parent' & d' & Hrun & Hgrow & Hk & Hcap & Hend);
          [rewrite Hcount; exact Hbc | exact Hlen
          | rewrite Nat2Z.inj_succ in Hfuel; lia |].
        exists (S k), ret, sb', parent', d'.
        split; [exact Hrun|].
        split; [exact (grow_round _ _ _ _ _ _ _ _ _ Hfind Halloc Hgrow)|].
        split; [rewrite Nat2Z.inj_succ; lia|]. split; [exact Hcap | exact Hend].
      * destruct (osfs_alloc_extent_failure _ _ _ _ _ _ Z.lt_0_1 Hbc Halloc Hne)
          as (-> & -> & ->).
        exists 0%nat, (- ENOSPC), sb, parent, d.
        split; [reflexivity|]. split; [apply grow_done|].
        split; [cbn; lia|]. split; [lia|].
        right. split; [reflexivity|]. split; [reflexivity|].
        split; [exact Hfind|]. split; [exact Halloc|].
        pose proof (osfs_alloc_extent_spec sb 1 parent Z.lt_0_1 Hbc) as Hout.
        rewrite Halloc in Hout.
        inversion Hout as [Hno | s Hrun Hfull | s idx Hrun Hidx Hmin].
        -- right. exact Hno.
        -- left. exact Hfull.
Qed.

(** C8: for a name that fits, [osfs_add_dir_entry] returns for every
    recursion budget of at least 5, always with the same result: 0 or
    [-ENOSPC].  When the existing extents hold a free record the entry is
    written into the first one, in extent order then slot order, and
    nothing is allocated.  Otherwise the call goes through [k <= 4]
    rounds of growth, one extent slot of the directory per round: each
    round follows a scan that found no free record and allocates one
    extent of one block, after which the directory is scanned again.
    The call ends with 0, the entry then being stored in the first free
    record of the directory as grown; or with [-ENOSPC], when the last
    scan found no free record and the allocation failed, because the
    four extent slots are used or because no block is free, and then
    no record was written. *)
Theorem osfs_add_dir_entry_terminates (sb : osfs_sb_info) (parent : osfs_inode)
    (d : dir_region) (ino : Z) (name : string) (name_len : Z) :
  is_uint32 (block_count sb) ->
  name_len <= MAX_FILENAME_LEN ->
  exists ret sb' parent' d',
    (forall fuel, (5 <= fuel)%nat ->
       osfs_add_dir_entry BLOCK_SIZE MAX_FILENAME_LEN DIR_ENTRY_SIZE
         fuel sb parent d ino name name_len = Some (ret, sb', parent', d')) /\
    (ret = 0 \/ ret = - ENOSPC) /\
    0 <= used_slots parent' - used_slots parent <= 4 /\
    (forall a,
       find (entry_free d) (insert_slots BLOCK_SIZE DIR_ENTRY_SIZE parent) = Some a ->
       ret = 0 /\ sb' = sb /\ parent' = parent /\
       d' = store_dir_entry d a
              (mk_dir_entry (substring 0 (Z.to_nat name_len) name) ino)) /\
    (exists k : nat,
       (k <= 4)%nat /\ Z.of_nat k = used_slots parent' - used_slots parent /\
       grow_retry BLOCK_SIZE DIR_ENTRY_SIZE d k (sb, parent) (sb', parent')) /\
    (ret = 0 ->
     exists a,
       find (entry_free d) (insert_slots BLOCK_SIZE DIR_ENTRY_SIZE parent') = Some a /\
       d' = store_dir_entry d a
              (mk_dir_entry (substring 0 (Z.to_nat name_len) name) ino)) /\
    (ret = - ENOSPC ->
     d' = d /\
     find (entry_free d) (insert_slots BLOCK_SIZE DIR_ENTRY_SIZE parent') = None /\
     osfs_alloc_extent sb' 1 parent' = (- ENOSPC, sb', parent') /\
     (all_slots_used parent' \/ forall s, ~ free_run sb' s 1)).
Proof.
  intros Hbc Hlen.
  pose proof (used_slots_bounds parent) as Hub.
  destruct (osfs_add_dir_entry_rounds 5 sb parent d ino name name_len Hbc Hlen)
    as (k & ret & sb' & parent' & d' & Hrun & Hgrow & Hk & Hcap & Hend); [lia|].
  exists ret, sb', parent', d'.
  split.
  { intros fuel Hfuel.
    apply (osfs_add_dir_entry_fuel_le 5 fuel Hfuel). exact Hrun. }
  split.
  { destruct Hend as [[Hr _] | [Hr _]]; [left | right]; exact Hr. }
  split; [lia|].
  split.
  { intros a Hfind. unfold insert_slots in Hfind.
    rewrite <- find_free_slot_first in Hfind.
    cbn [osfs_add_dir_entry] in Hrun.
    destruct (Z.gtb_spec name_len MAX_FILENAME_LEN) as [Hgt|_]; [lia|].
    rewrite Hfind in Hrun. injection Hrun as <- <- <- <-.
    repeat split. }
  split.
  { exists k. split; [lia|]. split; [exact Hk | exact Hgrow]. }
  split.
  - intros Hr. destruct Hend as [[_ Hstored] | [Hc _]]; [exact Hstored|].
    rewrite Hc in Hr. discriminate Hr.
  - intros Hr. destruct Hend as [[Hc _] | [_ Hfail]]; [|exact Hfail].
    rewrite Hc in Hr. discriminate Hr.
Qed.

End DirInsert.

(** The root directory with a full first block: the scan finds nothing,
    one round of growth gives the directory block 1, and the entry goes
    into the first record of that block. *)
Lemma osfs_add_dir_entry_terminates_witness :
  exists sb' parent' d',
    (forall fuel, (5 <= fuel)%nat ->
       osfs_add_dir_entry 4096 255 260 fuel vol_root root_dir first_block_full 2 "a" 1
       = Some (0, sb', parent', d')) /\
    grow_retry 4096 260 first_block_full 1 (vol_root, root_dir) (sb', parent') /\
    used_slots parent' = 2 /\
    find (entry_free first_block_full) (insert_slots 4096 260 parent') = Some 4096.
Proof.
  destruct (osfs_add_dir_entry_terminates 4096 255 260 vol_root root_dir
              first_block_full 2 "a" 1)
    as (ret & sb' & parent' & d' & Hrun & _ & _ & _ & (k & _ & Hk & Hgrow) & _);
    [unfold is_uint32; simpl; lia | lia |].
  pose proof (Hrun 5%nat (le_n 5)) as H5.
  assert (Hres : ret = 0 /\ used_slots parent' = 2 /\
                 find (entry_free first_block_full) (insert_slots 4096 260 parent')
                 = Some 4096).
  { vm_compute in H5. injection H5 as <- _ <- _. repeat split. }
  destruct Hres as (-> & Hused & Hfind).
  assert (k = 1%nat) as ->.
  { rewrite Hused in Hk. change (used_slots root_dir) with 1 in Hk. lia. }
  exists sb', parent', d'.
  split; [exact Hrun|]. split; [exact Hgrow|]. split; [exact Hused | exact Hfind].
Defined.

(** A directory whose records are all taken, and stay taken in every
    block it is given: three rounds of growth use up the extent slots,
    the fourth allocation fails, and the call returns [-ENOSPC] after
    four activations, keeping the three blocks. *)
Lemma osfs_add_dir_entry_full_directory :
  exists sb' parent',
    osfs_add_dir_entry 4096 255 260 4 vol_root root_dir all_entries_used 2 "a" 1
    = Some (- ENOSPC, sb', parent', all_entries_used) /\
    osfs_add_dir_entry 4096 255 260 3 vol_root root_dir all_entries_used 2 "a" 1
    = None /\
    used_slots parent' = 4 /\ extent_count parent' = 4 /\
    nr_free_blocks sb' = 96.
Proof.
  eexists. eexists. split; [vm_compute; reflexivity|].
  split; [vm_compute; reflexivity|]. repeat split.
Qed.

(** ** [osfs_iterate] *)

(** C9 (the code replays and skips entries).  The directory has one
    block with slot 0 free, ["a"] in slot 1 and ["b"] in slot 2.
    A full listing emits [., .., a, b] and leaves the cursor at 4.  A
    consumer that stops after three entries leaves the cursor at 3, and
    resuming there emits ["a"] a second time; calling again at the final
    cursor 4 emits ["b"] a second time.  In a directory of two extents the
    entry in the first slot of the second extent is never emitted. *)
Theorem osfs_iterate_cursor_replays :
  let it := osfs_iterate 4096 260 1 1 in
  it root_dir dir_hole_a_b (mk_ctx 0 10 [])
  = (0, mk_ctx 4 6 [("."%string, 1); (".."%string, 1);
                    ("a"%string, 5); ("b"%string, 6)]) /\
  dir_listing 4096 260 root_dir dir_hole_a_b
  = [("a"%string, 5); ("b"%string, 6)] /\
  it root_dir dir_hole_a_b (mk_ctx 0 3 [])
  = (- EINVAL, mk_ctx 3 0 [("."%string, 1); (".."%string, 1); ("a"%string, 5)]) /\
  it root_dir dir_hole_a_b (mk_ctx 3 10 [])
  = (0, mk_ctx 5 8 [("a"%string, 5); ("b"%string, 6)]) /\
  it root_dir dir_hole_a_b (mk_ctx 4 10 [])
  = (0, mk_ctx 5 9 [("b"%string, 6)]) /\
  it two_extent_dir dir_a_then_c (mk_ctx 2 10 [])
  = (0, mk_ctx 3 9 [("a"%string, 5)]) /\
  dir_listing 4096 260 two_extent_dir dir_a_then_c
  = [("a"%string, 5); ("c"%string, 7)].
Proof. vm_compute. repeat split. Qed.

(** ** [osfs_create] *)

(** Creating ["a"] in the root directory of the volume that holds the
    root directory only: the new inode 2 ends with [extent_count = 1] but
    with two slots in use, blocks 1 and 2, and two blocks leave the free
    pool. *)
Lemma osfs_create_on_root :
  match osfs_create 4096 255 260 5 fs_root 1 true 0 0 0 "a" 1 S_IFREG with
  | Some (ret, Some vi, st') =>
      ret = 0 /\ vi_ino vi = 2 /\
      extent_count (fs_inodes st' 2) = 1 /\
      used_slots (fs_inodes st' 2) = 2 /\
      extents (fs_inodes st' 2)
      = mk_extents (Extent.mk 1 1) (Extent.mk 2 1) Extent.zero Extent.zero /\
      block_bitmap (fs_sb fs_root) = 1 /\
      block_bitmap (fs_sb st') = 7 /\
      nr_free_blocks (fs_sb fs_root) = 99 /\
      nr_free_blocks (fs_sb st') = 97 /\
      fs_dir st' 0 = mk_dir_entry "a" 2
  | _ => False
  end.
Proof. vm_compute. repeat split. Qed.

Section Create.

Variables BLOCK_SIZE MAX_FILENAME_LEN DIR_ENTRY_SIZE : Z.

(** C6 (the code allocates twice): every successful [osfs_create] in an
    allocated directory leaves the new inode with [extent_count = 1] and
    two extent slots in use, holding two different blocks that were free
    before: one taken by [osfs_new_inode], one by [osfs_create] itself. *)
Theorem osfs_create_allocates_two_extents (fuel : nat) (st st' : fs_state)
    (dir_ino : Z) (ok : bool) (uid gid now : Z) (name : string)
    (name_len mode : Z) (vi : vfs_inode) :
  sb_in_range (fs_sb st) ->
  test_bit dir_ino (inode_bitmap (fs_sb st)) = true ->
  osfs_create BLOCK_SIZE MAX_FILENAME_LEN DIR_ENTRY_SIZE fuel st dir_ino ok
              uid gid now name name_len mode = Some (0, Some vi, st') ->
  extent_count (fs_inodes st' (vi_ino vi)) = 1 /\
  used_slots (fs_inodes st' (vi_ino vi)) = 2 /\
  exists s1 s2, s1 <> s2 /\
    test_bit s1 (block_bitmap (fs_sb st)) = false /\
    test_bit s2 (block_bitmap (fs_sb st)) = false /\
    extents (fs_inodes st' (vi_ino vi))
    = mk_extents (Extent.mk s1 1) (Extent.mk s2 1) Extent.zero Extent.zero.
Proof.
  intros Hr Hdir Hcreate. unfold osfs_create in Hcreate.
  destruct (name_len >? MAX_FILENAME_LEN); [discriminate|].
  destruct (osfs_new_inode st ok uid gid now mode) as [[vi1 | err] st1] eqn:Hnew;
    [|discriminate].
  destruct (osfs_new_inode_success _ _ _ _ _ _ _ _ Hr Hnew)
    as (k & s1 & Hk & Hbit & Hrun1 & Hino & Hpriv & ->).
  rewrite Hpriv in Hcreate. cbn [fs_sb fs_inodes fs_dir] in Hcreate.
  assert (Hkk : store_inode (fs_inodes st) k
                  (inode_take_slot (fresh_record k mode uid gid now) 0 s1 1) k
                = inode_take_slot (fresh_record k mode uid gid now) 0 s1 1).
  { unfold store_inode. rewrite Z.eqb_refl. reflexivity. }
  rewrite Hkk in Hcreate.
  set (rec1 := mk_inode _ _ _ _ _ 0 _ _ _ _ _) in Hcreate.
  assert (Hbc : is_uint32 (block_count (new_inode_sb (fs_sb st) k s1))).
  { apply Hr. }
  pose proof (osfs_alloc_extent_spec (new_inode_sb (fs_sb st) k s1) 1 rec1
                Z.lt_0_1 Hbc) as Hout.
  destruct (alloc_outcome_cases _ _ _ _ Hout)
    as [Heqa | (s2 & idx & Hrun2 & Hidx & Heqa)]; rewrite Heqa in Hcreate.
  { cbn in Hcreate. discriminate. }
  assert (idx = 1) as ->.
  { apply (first_free_slot_unique rec1); [exact Hidx|].
    split; [lia|]. split; [reflexivity|].
    intros j Hj. assert (j = 0) as -> by lia. reflexivity. }
  cbn [Z.eqb negb] in Hcreate.
  set (tbl2 := store_inode _ k (set_extent_count _ 1)) in Hcreate.
  destruct (osfs_add_dir_entry BLOCK_SIZE MAX_FILENAME_LEN DIR_ENTRY_SIZE fuel
              (sb_take_run (new_inode_sb (fs_sb st) k s1) s2 1)
              (tbl2 dir_ino) (fs_dir st) (vi_ino vi1) name name_len)
    as [[[[ret' sb3] parent'] d']|]; [|discriminate].
  destruct (negb (ret' =? 0)); [discriminate|].
  injection Hcreate as <- <-. cbn [fs_inodes]. rewrite Hino.
  assert (Hne : k <> dir_ino) by (intros ->; congruence).
  assert (Hfinal : forall p1 p2,
             store_inode (store_inode tbl2 dir_ino p1) dir_ino p2 k = tbl2 k).
  { intros p1 p2. unfold store_inode at 1 2.
    destruct (Z.eqb_spec k dir_ino); [contradiction | reflexivity]. }
  rewrite Hfinal. unfold tbl2, store_inode. rewrite Z.eqb_refl.
  split; [reflexivity|]. split; [reflexivity|].
  exists s1, s2.
  destruct Hrun1 as (Hs1 & _ & Hfree1). destruct Hrun2 as (Hs2 & _ & Hfree2).
  specialize (Hfree1 s1 ltac:(lia)). specialize (Hfree2 s2 ltac:(lia)).
  cbn [new_inode_sb sb_take_run sb_take_inode block_bitmap] in Hfree2.
  rewrite mark_blocks_test in Hfree2 by exact Hs1.
  apply orb_false_iff in Hfree2. destruct Hfree2 as [Hrange Hfree2].
  split; [|split; [exact Hfree1 | split; [exact Hfree2 | reflexivity]]].
  intros ->. apply andb_false_iff in Hrange.
  destruct Hrange as [Hle | Hlt];
    [apply Z.leb_gt in Hle | apply Z.ltb_ge in Hlt]; simpl in *; lia.
Qed.

End Create.

Lemma osfs_create_allocates_two_extents_witness :
  match osfs_create 4096 255 260 5 fs_root 1 true 0 0 0 "a" 1 S_IFREG with
  | Some (_, Some vi, st') =>
      extent_count (fs_inodes st' (vi_ino vi)) = 1 /\
      used_slots (fs_inodes st' (vi_ino vi)) = 2
  | _ => False
  end.
Proof.
  assert (Hr : sb_in_range (fs_sb fs_root)).
  { unfold sb_in_range, is_uint32. simpl. lia. }
  assert (Hdir : test_bit 1 (inode_bitmap (fs_sb fs_root)) = true) by reflexivity.
  destruct (osfs_create 4096 255 260 5 fs_root 1 true 0 0 0 "a" 1 S_IFREG)
    as [[[ret [vi|]] st']|] eqn:Hc.
  - assert (ret = 0) as ->.
    { apply (f_equal (fun r => match r with
                                | Some (z, _, _) => z
                                | None => 1
                                end)) in Hc.
      vm_compute in Hc. symmetry. exact Hc. }
    destruct (osfs_create_allocates_two_extents 4096 255 260 5 fs_root st' 1 true
                0 0 0 "a" 1 S_IFREG vi Hr Hdir Hc) as (Hcount & Hused & _).
    split; assumption.
  - vm_compute in Hc. discriminate Hc.
  - vm_compute in Hc. discriminate Hc.
Defined.

(** ** [osfs_write] and [osfs_read] *)

Lemma io_progress_refl (w : io_state) : 0 <= io_len w -> io_progress w w.
Proof.
  intros H. unfold io_progress.
  split; [lia|]. split; [lia|]. split; [lia|]. split; [lia|].
  intros _. repeat split.
Qed.

Lemma io_progress_trans (w1 w2 w3 : io_state) :
  io_progress w1 w2 -> io_progress w2 w3 -> io_progress w1 w3.
Proof.
  intros (Hl1 & Hd1 & Hp1 & Hs1 & Hu1) (Hl2 & Hd2 & Hp2 & Hs2 & Hu2).
  unfold io_progress.
  split; [lia|]. split; [lia|]. split; [lia|]. split; [lia|].
  intros Hsame.
  assert (Heq2 : io_done w3 = io_done w2) by lia.
  assert (Heq1 : io_done w2 = io_done w1) by lia.
  destruct (Hu2 Heq2) as (-> & -> & ->). exact (Hu1 Heq1).
Qed.

Lemma io_progress_set_inode (w : io_state) (inode : osfs_inode) :
  0 <= io_len w -> i_size inode = i_size (io_inode w) ->
  io_progress w (io_set_inode w inode).
Proof.
  intros Hl Hs. unfold io_progress, io_set_inode.
  cbn [io_len io_done io_pos io_mem io_inode].
  split; [lia|]. split; [lia|]. split; [lia|]. split; [lia|].
  intros _. split; [reflexivity | split; [reflexivity | exact Hs]].
Qed.

Lemma used_slots_extents (a b : osfs_inode) :
  extents a = extents b -> used_slots a = used_slots b.
Proof. intros H. unfold used_slots, slot_used. rewrite H. reflexivity. Qed.

Section FileIO.

Variable BLOCK_SIZE : Z.

(** One pass over the extents writes some bytes or leaves the loop state
    untouched; it never changes the extent table. *)
Lemma write_extents_progress (buf : list Byte.byte) (n : nat) :
  forall (i : Z) (w : io_state),
    0 <= io_len w ->
    io_progress w (write_extents BLOCK_SIZE n i buf w) /\
    extents (io_inode (write_extents BLOCK_SIZE n i buf w)) = extents (io_inode w) /\
    extent_count (io_inode (write_extents BLOCK_SIZE n i buf w))
    = extent_count (io_inode w) /\
    (io_done (write_extents BLOCK_SIZE n i buf w) = io_done w ->
     write_extents BLOCK_SIZE n i buf w = w).
Proof.
  induction n as [|n IH]; intros i w Hlen.
  - cbn [write_extents]. split; [apply io_progress_refl; exact Hlen|].
    repeat split.
  - cbn [write_extents].
    destruct (Z.gtb_spec (io_len w) 0) as [Hpos|Hzero].
    2:{ split; [apply io_progress_refl; exact Hlen|]. repeat split. }
    destruct ((io_pos w >=? extent_start BLOCK_SIZE (ext_get (extents (io_inode w)) i))
              && (io_pos w <? extent_end BLOCK_SIZE (ext_get (extents (io_inode w)) i)))
      eqn:Hhit.
    2:{ apply IH. exact Hlen. }
    apply andb_true_iff in Hhit. destruct Hhit as [_ Hlt].
    apply Z.ltb_lt in Hlt.
    set (e := extent_end BLOCK_SIZE (ext_get (extents (io_inode w)) i)) in *.
    set (t := Z.min (io_len w) (e - io_pos w)).
    assert (Ht : 1 <= t <= io_len w) by (unfold t; lia).
    set (inode' := if io_pos w + t >? i_size (io_inode w)
                   then set_i_size (io_inode w) (io_pos w + t) else io_inode w).
    assert (Hino : i_size (io_inode w) <= i_size inode' /\
                   extents inode' = extents (io_inode w) /\
                   extent_count inode' = extent_count (io_inode w)).
    { unfold inode'. destruct (Z.gtb_spec (io_pos w + t) (i_size (io_inode w)));
        cbn [set_i_size i_size extents extent_count]; repeat split; lia. }
    destruct Hino as (Hsz & Hext & Hcnt).
    match goal with
    | |- context [write_extents BLOCK_SIZE n (i + 1) buf ?w1] =>
        destruct (IH (i + 1) w1) as ((Hl & Hd & Hp & Hs & Hu) & He & Hc & Hsame);
          [cbn [io_len]; lia|];
          cbn [io_len io_done io_pos io_mem io_inode] in Hl, Hd, Hp, Hs, Hu, He, Hc, Hsame
    end.
    split; [|split; [congruence | split; [congruence | intros Heq; lia]]].
    unfold io_progress. repeat split; try lia.
Qed.

Lemma osfs_alloc_extent_keeps_size (sb : osfs_sb_info) (req : Z) (inode : osfs_inode) :
  0 < req -> is_uint32 (block_count sb) ->
  i_size (snd (osfs_alloc_extent sb req inode)) = i_size inode.
Proof.
  intros Hreq Hbc.
  pose proof (osfs_alloc_extent_spec sb req inode Hreq Hbc) as Hout.
  destruct (alloc_outcome_cases _ _ _ _ Hout) as [Heq | (s & idx & _ & _ & Heq)];
    rewrite Heq; reflexivity.
Qed.

(** What a run of the [while] loop does to the loop state, and what it
    returns: the number of bytes when everything was written, [-ENOSPC]
    when some input is left. *)
Lemma write_loop_progress (buf : list Byte.byte) (fuel : nat) :
  forall sb w ret sb' w',
    is_uint32 (block_count sb) -> 0 <= io_len w ->
    write_loop BLOCK_SIZE fuel buf sb w = Some (ret, sb', w') ->
    io_progress w w' /\
    ((ret = io_done w' /\ io_len w' = 0) \/ (ret = - ENOSPC /\ 0 < io_len w')).
Proof.
  induction fuel as [|fuel IH]; intros sb w ret sb' w' Hbc Hlen Hrun;
    [discriminate|].
  cbn [write_loop] in Hrun.
  destruct (Z.gtb_spec (io_len w) 0) as [Hpos|Hzero].
  2:{ injection Hrun as <- <- <-.
      split; [apply io_progress_refl; exact Hlen | left; split; [reflexivity | lia]]. }
  destruct (write_extents_progress buf (Z.to_nat (extent_count (io_inode w))) 0 w Hlen)
    as (Hp1 & _ & _ & _).
  set (w1 := write_extents BLOCK_SIZE (Z.to_nat (extent_count (io_inode w))) 0 buf w) in *.
  assert (Hlen1 : 0 <= io_len w1) by apply Hp1.
  destruct (Z.gtb_spec (io_len w1) 0) as [Hpos1|Hzero1].
  - pose proof (osfs_alloc_extent_keeps_size sb 1 (io_inode w1) Z.lt_0_1 Hbc) as Hsz.
    pose proof (osfs_alloc_extent_inode_side sb 1 (io_inode w1) Z.lt_0_1 Hbc) as Hside.
    destruct (osfs_alloc_extent sb 1 (io_inode w1)) as [[r sb1] inode1] eqn:Halloc.
    cbn [fst snd] in Hsz, Hside.
    pose proof (io_progress_set_inode w1 inode1 Hlen1 Hsz) as Hp2.
    destruct (Z.eqb_spec r 0) as [-> | Hne].
    + destruct (IH sb1 (io_set_inode w1 inode1) ret sb' w') as [Hp3 Hret];
        [ destruct Hside as (_ & -> & _); exact Hbc | exact Hlen1 | exact Hrun |].
      split; [|exact Hret].
      apply (io_progress_trans _ _ _ Hp1). apply (io_progress_trans _ _ _ Hp2 Hp3).
    + injection Hrun as <- <- <-.
      destruct (osfs_alloc_extent_failure _ _ _ _ _ _ Z.lt_0_1 Hbc Halloc Hne)
        as (-> & _ & _).
      split; [apply (io_progress_trans _ _ _ Hp1 Hp2) | right; split; [reflexivity|]].
      cbn [io_set_inode io_len]. exact Hpos1.
  - destruct (IH sb w1 ret sb' w' Hbc Hlen1 Hrun) as [Hp3 Hret].
    split; [apply (io_progress_trans _ _ _ Hp1 Hp3) | exact Hret].
Qed.

Lemma write_loop_fuel_mono (buf : list Byte.byte) (fuel : nat) :
  forall sb w r,
    write_loop BLOCK_SIZE fuel buf sb w = Some r ->
    write_loop BLOCK_SIZE (S fuel) buf sb w = Some r.
Proof.
  induction fuel as [|fuel IH]; intros sb w r Hr; [discriminate|].
  cbn [write_loop] in Hr.
  change (write_loop BLOCK_SIZE (S (S fuel)) buf sb w)
    with (if io_len w >? 0
          then
            let w1 := write_extents BLOCK_SIZE
                        (Z.to_nat (extent_count (io_inode w))) 0 buf w in
            if io_len w1 >? 0
            then
              let '(ret, sb', inode') := osfs_alloc_extent sb 1 (io_inode w1) in
              if ret =? 0
              then write_loop BLOCK_SIZE (S fuel) buf sb' (io_set_inode w1 inode')
              else Some (ret, sb', io_set_inode w1 inode')
            else write_loop BLOCK_SIZE (S fuel) buf sb w1
          else Some (io_done w, sb, w)).
  destruct (io_len w >? 0); [|exact Hr]. cbv zeta in Hr |- *.
  destruct (io_len (write_extents BLOCK_SIZE
                      (Z.to_nat (extent_count (io_inode w))) 0 buf w) >? 0).
  - destruct (osfs_alloc_extent sb 1 _) as [[ret sb'] inode'].
    destruct (ret =? 0); [apply IH; exact Hr | exact Hr].
  - apply IH; exact Hr.
Qed.

Lemma write_loop_fuel_le (buf : list Byte.byte) (f1 f2 : nat) :
  (f1 <= f2)%nat ->
  forall sb w r,
    write_loop BLOCK_SIZE f1 buf sb w = Some r ->
    write_loop BLOCK_SIZE f2 buf sb w = Some r.
Proof.
  induction 1 as [|f2 Hle IH]; intros sb w r Hr; [exact Hr|].
  apply write_loop_fuel_mono. apply IH. exact Hr.
Qed.

(** The [while] loop returns: every round that does not finish the write
    takes one of the four extent slots. *)
Lemma write_loop_returns (buf : list Byte.byte) (fuel : nat) :
  forall sb w,
    is_uint32 (block_count sb) -> 0 <= io_len w ->
    4 - used_slots (io_inode w) + 2 <= Z.of_nat fuel ->
    exists r, write_loop BLOCK_SIZE fuel buf sb w = Some r.
Proof.
  induction fuel as [|fuel IH]; intros sb w Hbc Hlen Hfuel.
  - pose proof (used_slots_bounds (io_inode w)). lia.
  - rewrite Nat2Z.inj_succ in Hfuel. cbn [write_loop].
    destruct (io_len w >? 0); [|eexists; reflexivity].
    destruct (write_extents_progress buf (Z.to_nat (extent_count (io_inode w))) 0 w Hlen)
      as (Hp1 & Hext & _ & _).
    set (w1 := write_extents BLOCK_SIZE (Z.to_nat (extent_count (io_inode w))) 0 buf w) in *.
    assert (Hlen1 : 0 <= io_len w1) by apply Hp1.
    pose proof (used_slots_extents _ _ Hext) as Hused.
    pose proof (used_slots_bounds (io_inode w)) as Hub.
    destruct (Z.gtb_spec (io_len w1) 0) as [Hpos1|Hzero1].
    + destruct (osfs_alloc_extent sb 1 (io_inode w1)) as [[r sb1] inode1] eqn:Halloc.
      destruct (Z.eqb_spec r 0) as [-> | Hne]; [|eexists; reflexivity].
      destruct (osfs_alloc_extent_takes_slot _ _ _ _ _ Z.lt_0_1 Hbc Halloc)
        as [Htake Hcount].
      apply IH; [rewrite Hcount; exact Hbc | exact Hlen1 |].
      cbn [io_set_inode io_inode]. lia.
    + destruct fuel as [|fuel']; [lia|].
      cbn [write_loop].
      destruct (Z.gtb_spec (io_len w1) 0) as [Hc|_]; [lia|].
      eexists; reflexivity.
Qed.

(** After the first pass over the extents, the rest of a run of the
    [while] loop only moves the state forward. *)
Lemma write_loop_progress_after_pass (buf : list Byte.byte) (fuel : nat) :
  forall sb w ret sb' w',
    is_uint32 (block_count sb) -> 0 < io_len w ->
    write_loop BLOCK_SIZE (S fuel) buf sb w = Some (ret, sb', w') ->
    io_progress
      (write_extents BLOCK_SIZE (Z.to_nat (extent_count (io_inode w))) 0 buf w) w'.
Proof.
  intros sb w ret sb' w' Hbc Hpos Hrun. cbn [write_loop] in Hrun.
  destruct (Z.gtb_spec (io_len w) 0) as [_|Hzero]; [|lia].
  destruct (write_extents_progress buf (Z.to_nat (extent_count (io_inode w))) 0 w
              ltac:(lia)) as (Hp1 & _ & _ & _).
  set (w1 := write_extents BLOCK_SIZE (Z.to_nat (extent_count (io_inode w))) 0 buf w) in *.
  assert (Hlen1 : 0 <= io_len w1) by apply Hp1.
  destruct (Z.gtb_spec (io_len w1) 0) as [Hpos1|Hzero1].
  - pose proof (osfs_alloc_extent_keeps_size sb 1 (io_inode w1) Z.lt_0_1 Hbc) as Hsz.
    pose proof (osfs_alloc_extent_inode_side sb 1 (io_inode w1) Z.lt_0_1 Hbc) as Hside.
    destruct (osfs_alloc_extent sb 1 (io_inode w1)) as [[r sb1] inode1] eqn:Halloc.
    cbn [fst snd] in Hsz, Hside.
    pose proof (io_progress_set_inode w1 inode1 Hlen1 Hsz) as Hp2.
    destruct (Z.eqb_spec r 0) as [-> | Hne].
    + apply (io_progress_trans _ _ _ Hp2).
      apply (write_loop_progress buf fuel sb1 _ ret sb' w');
        [destruct Hside as (_ & -> & _); exact Hbc | exact Hlen1 | exact Hrun].
    + injection Hrun as _ _ <-. exact Hp2.
  - apply (write_loop_progress buf fuel sb _ ret sb' w' Hbc Hlen1 Hrun).
Qed.

Lemma firstn_skipn_firstn {A : Type} (l : list A) (n k m : nat) :
  (k + n <= m)%nat -> firstn n (skipn k (firstn m l)) = firstn n (skipn k l).
Proof.
  intros H. rewrite skipn_firstn_comm, firstn_firstn.
  replace (Nat.min n (m - k)) with n by lia. reflexivity.
Qed.

Ltac trim_simpl total w :=
  change (io_len (io_trim total w)) with (total - io_done w) in *;
  change (io_pos (io_trim total w)) with (io_pos w) in *;
  change (io_done (io_trim total w)) with (io_done w) in *;
  change (io_mem (io_trim total w)) with (io_mem w) in *;
  change (io_inode (io_trim total w)) with (io_inode w) in *.

(** One pass over the extents, for a write that is cut to its first
    [total] bytes: as long as the full write does not get past [total],
    the cut write goes through the same states. *)
Lemma write_extents_trim (buf : list Byte.byte) (total : Z) (n : nat) :
  forall (i : Z) (w : io_state),
    0 <= io_done w -> io_done w <= total -> total - io_done w <= io_len w ->
    io_done (write_extents BLOCK_SIZE n i buf w) <= total ->
    write_extents BLOCK_SIZE n i (firstn (Z.to_nat total) buf) (io_trim total w)
    = io_trim total (write_extents BLOCK_SIZE n i buf w).
Proof.
  induction n as [|n IH]; intros i w Hd0 HdT Hlen Hfin; [reflexivity|].
  destruct (Z.eq_dec (io_done w) total) as [Heq | Hne].
  - (* nothing is left for the cut write, and the full write writes nothing *)
    destruct (write_extents_progress buf (S n) i w ltac:(lia))
      as ((_ & Hsum & _) & _ & _ & Hsame).
    rewrite Hsame.
    + cbn [write_extents]. trim_simpl total w.
      destruct (Z.gtb_spec (total - io_done w) 0); [lia | reflexivity].
    + destruct (write_extents_progress buf (S n) i w ltac:(lia))
        as ((Hl & _) & _). lia.
  - cbn [write_extents] in Hfin |- *. trim_simpl total w.
    destruct (Z.gtb_spec (total - io_done w) 0) as [_|Hc]; [|lia].
    destruct (Z.gtb_spec (io_len w) 0) as [_|Hc]; [|lia].
    destruct ((io_pos w >=? extent_start BLOCK_SIZE (ext_get (extents (io_inode w)) i))
              && (io_pos w <? extent_end BLOCK_SIZE (ext_get (extents (io_inode w)) i)))
      eqn:Hhit.
    2:{ apply IH; assumption. }
    apply andb_true_iff in Hhit. destruct Hhit as [_ Hlt]. apply Z.ltb_lt in Hlt.
    set (e := extent_end BLOCK_SIZE (ext_get (extents (io_inode w)) i)) in *.
    set (tA := Z.min (io_len w) (e - io_pos w)) in *.
    assert (HtA : 1 <= tA <= io_len w) by (unfold tA; lia).
    match type of Hfin with
    | io_done (write_extents BLOCK_SIZE n (i + 1) buf ?w1) <= _ =>
        destruct (write_extents_progress buf n (i + 1) w1) as ((Hl1 & Hs1 & _) & _);
          [cbn [io_len]; lia | cbn [io_len io_done] in Hl1, Hs1]
    end.
    assert (HtB : Z.min (total - io_done w) (e - io_pos w) = tA) by (unfold tA in *; lia).
    rewrite HtB.
    rewrite firstn_skipn_firstn by lia.
    match goal with
    | |- write_extents _ _ _ _ ?wB = io_trim _ (write_extents _ _ _ _ ?wA) =>
        replace wB with (io_trim total wA)
    end.
    + apply IH; cbn [io_done io_len]; lia.
    + unfold io_trim. cbn [io_len io_pos io_done io_inode io_mem].
      f_equal. lia.
Qed.

(** A run of the [while] loop that ends with [total] bytes written, and
    the same run on the first [total] bytes of the input: the cut run
    returns [total] and leaves the same data region, file position and
    [i_size]. *)
Lemma write_loop_trim (buf : list Byte.byte) (total : Z) (fuel : nat) :
  forall sb w retA sbA wA retB sbB wB,
    is_uint32 (block_count sb) ->
    0 <= io_done w -> io_done w <= total -> total - io_done w <= io_len w ->
    write_loop BLOCK_SIZE fuel buf sb w = Some (retA, sbA, wA) ->
    io_done wA = total ->
    write_loop BLOCK_SIZE fuel (firstn (Z.to_nat total) buf) sb (io_trim total w)
    = Some (retB, sbB, wB) ->
    io_mem wB = io_mem wA /\ io_pos wB = io_pos wA /\
    i_size (io_inode wB) = i_size (io_inode wA) /\ retB = total.
Proof.
  induction fuel as [|fuel IH];
    intros sb w retA sbA wA retB sbB wB Hbc Hd0 HdT Hlen HA Hfin HB;
    [discriminate|].
  destruct (Z.eq_dec (io_done w) total) as [Heq | Hne].
  - (* the cut run stops at once; the full run writes nothing more *)
    cbn [write_loop] in HB. trim_simpl total w.
    destruct (Z.gtb_spec (total - io_done w) 0) as [Hc|_]; [lia|].
    injection HB as <- <- <-. cbn [io_trim io_mem io_pos io_inode io_done].
    destruct (write_loop_progress buf (S fuel) sb w retA sbA wA Hbc ltac:(lia) HA)
      as ((_ & _ & _ & _ & Hu) & _).
    destruct (Hu ltac:(lia)) as (-> & -> & ->). repeat split. exact Heq.
  - assert (Hpos : 0 < io_len w) by lia.
    pose proof (write_loop_progress_after_pass buf fuel sb w retA sbA wA Hbc Hpos HA)
      as Hrest.
    destruct (write_extents_progress buf (Z.to_nat (extent_count (io_inode w))) 0 w
                ltac:(lia)) as ((Hl1 & Hs1 & _) & _ & _ & _).
    cbn [write_loop] in HA, HB. trim_simpl total w.
    destruct (Z.gtb_spec (total - io_done w) 0) as [_|Hc]; [|lia].
    destruct (Z.gtb_spec (io_len w) 0) as [_|Hc]; [|lia].
    set (w1 := write_extents BLOCK_SIZE (Z.to_nat (extent_count (io_inode w))) 0 buf w) in *.
    assert (Hd1 : io_done w1 <= total).
    { destruct Hrest as (Hl & Hs & _). clear - Hl Hs Hfin. lia. }
    rewrite (write_extents_trim buf total _ 0 w Hd0 HdT Hlen Hd1) in HB.
    fold w1 in HB. trim_simpl total w1.
    destruct (Z.gtb_spec (total - io_done w1) 0) as [Hmore | Hstop].
    + (* both runs ask for another extent *)
      destruct (Z.gtb_spec (io_len w1) 0) as [_|Hc]; [|lia].
      pose proof (osfs_alloc_extent_inode_side sb 1 (io_inode w1) Z.lt_0_1 Hbc) as Hside.
      destruct (osfs_alloc_extent sb 1 (io_inode w1)) as [[r sb1] inode1] eqn:Halloc.
      cbn [fst snd] in Hside.
      destruct (Z.eqb_spec r 0) as [-> | Hr].
      * apply (IH sb1 (io_set_inode w1 inode1) retA sbA wA retB sbB wB);
          [ destruct Hside as (_ & -> & _); exact Hbc
          | cbn [io_set_inode io_done io_len]; lia
          | cbn [io_set_inode io_done io_len]; lia
          | cbn [io_set_inode io_done io_len]; lia
          | exact HA | exact Hfin | exact HB ].
      * injection HA as _ _ <-. cbn [io_set_inode io_done] in Hfin. lia.
    + (* the cut run is complete; the full run writes nothing more *)
      destruct fuel as [|fuel']; [discriminate HB|].
      cbn [write_loop] in HB. trim_simpl total w1.
      destruct (Z.gtb_spec (total - io_done w1) 0) as [Hc|_]; [lia|].
      injection HB as <- <- <-. cbn [io_trim io_mem io_pos io_inode io_done].
      destruct Hrest as (_ & _ & _ & _ & Hu).
      destruct (Hu ltac:(lia)) as (-> & -> & ->). repeat split. lia.
Qed.

End FileIO.

Section FileWrite.

Variable BLOCK_SIZE : Z.

(** The [while] loop of a write, started on [buf] at [ppos]: it returns
    with a budget of six rounds, and its outcome is described together
    with the outcome of the same loop on the bytes that were written. *)
Lemma write_loop_from_start (buf : list Byte.byte) (sb : osfs_sb_info)
    (inode0 : osfs_inode) (mem : data_region) (ppos : Z) :
  is_uint32 (block_count sb) ->
  let len := Z.of_nat (List.length buf) in
  exists ret sb' w',
    (forall fuel, (6 <= fuel)%nat ->
       write_loop BLOCK_SIZE fuel buf sb (mk_io mem ppos 0 len inode0)
       = Some (ret, sb', w')) /\
    i_size inode0 <= i_size (io_inode w') /\
    0 <= io_done w' <= len /\
    io_pos w' = ppos + io_done w' /\
    ((ret = len /\ io_done w' = len) \/ ret = - ENOSPC) /\
    (forall fuel, (6 <= fuel)%nat ->
       exists retp sbp wp,
         write_loop BLOCK_SIZE fuel (firstn (Z.to_nat (io_done w')) buf) sb
           (mk_io mem ppos 0
              (Z.of_nat (List.length (firstn (Z.to_nat (io_done w')) buf))) inode0)
         = Some (retp, sbp, wp) /\
         io_mem wp = io_mem w' /\ io_pos wp = io_pos w' /\
         i_size (io_inode wp) = i_size (io_inode w') /\
         retp = io_done w').
Proof.
  intros Hbc len.
  pose proof (used_slots_bounds inode0) as Hub.
  set (w0 := mk_io mem ppos 0 len inode0).
  assert (Hlen0 : 0 <= io_len w0) by (cbn; lia).
  destruct (write_loop_returns BLOCK_SIZE buf 6 sb w0 Hbc Hlen0)
    as [[[ret sb'] w'] Hrun]; [cbn [io_inode w0]; lia|].
  destruct (write_loop_progress BLOCK_SIZE buf 6 sb w0 ret sb' w' Hbc Hlen0 Hrun)
    as ((Hl & Hs & Hp & Hsz & _) & Hret).
  cbn [w0 io_len io_done io_pos io_inode] in Hl, Hs, Hp, Hsz.
  exists ret, sb', w'.
  assert (Hdone : 0 <= io_done w' <= len) by lia.
  split; [|split; [exact Hsz | split; [exact Hdone | split; [lia | split]]]].
  - intros fuel Hfuel. apply (write_loop_fuel_le BLOCK_SIZE buf 6 fuel Hfuel). exact Hrun.
  - destruct Hret as [[-> Hz] | [-> _]]; [left; split; lia | right; reflexivity].
  - intros fuel Hfuel.
    set (total := io_done w') in *.
    assert (Hlenp : Z.of_nat (List.length (firstn (Z.to_nat total) buf)) = total).
    { rewrite firstn_length_le; [lia|]. unfold len in Hdone. lia. }
    rewrite Hlenp.
    assert (Hw0 : mk_io mem ppos 0 total inode0 = io_trim total w0).
    { unfold io_trim, w0. cbn [io_mem io_pos io_done io_inode]. f_equal. lia. }
    rewrite Hw0.
    destruct (write_loop_returns BLOCK_SIZE (firstn (Z.to_nat total) buf) fuel sb
                (io_trim total w0) Hbc)
      as [[[retp sbp] wp] Hrunp];
      [cbn; lia | cbn [io_trim io_inode w0]; lia |].
    exists retp, sbp, wp. split; [exact Hrunp|].
    apply (write_loop_trim BLOCK_SIZE buf total fuel sb w0 ret sb' w' retp sbp wp);
      [ exact Hbc | cbn; lia | cbn [w0 io_done]; lia | cbn [w0 io_done io_len]; lia
      | apply (write_loop_fuel_le BLOCK_SIZE buf 6 fuel Hfuel); exact Hrun
      | reflexivity | exact Hrunp ].
Qed.

(** C7, as the code has it.  Every [osfs_write] returns (a budget of six
    rounds of the [while] loop is enough), and [i_size] does not shrink.
    If all bytes were written the return value is their number; in every
    other case it is [-ENOSPC], not the partial count [bytes_written].
    What was copied before the failure stays: the data region, the file
    position and [i_size] are exactly those a write of the first
    [bytes_written] bytes leaves, and that shorter write returns
    [bytes_written]. *)
Theorem osfs_write_failure_keeps_partial_write (sb : osfs_sb_info)
    (inode : osfs_inode) (mem : data_region) (buf : list Byte.byte) (ppos : Z) :
  is_uint32 (block_count sb) ->
  let len := Z.of_nat (List.length buf) in
  exists ret sb' w',
    (forall fuel, (6 <= fuel)%nat ->
       osfs_write BLOCK_SIZE fuel sb inode mem buf ppos = Some (ret, sb', w')) /\
    i_size inode <= i_size (io_inode w') /\
    0 <= io_done w' <= len /\
    io_pos w' = ppos + io_done w' /\
    ((ret = len /\ io_done w' = len) \/ ret = - ENOSPC) /\
    (forall fuel, (6 <= fuel)%nat ->
       exists retp sbp wp,
         osfs_write BLOCK_SIZE fuel sb inode mem
                    (firstn (Z.to_nat (io_done w')) buf) ppos
         = Some (retp, sbp, wp) /\
         io_mem wp = io_mem w' /\ io_pos wp = io_pos w' /\
         i_size (io_inode wp) = i_size (io_inode w') /\
         (0 < io_done w' -> retp = io_done w')).
Proof.
  intros Hbc len. unfold osfs_write.
  destruct (extent_count inode =? 0).
  - pose proof (osfs_alloc_extent_keeps_size sb 1 inode Z.lt_0_1 Hbc) as Hsz.
    pose proof (osfs_alloc_extent_inode_side sb 1 inode Z.lt_0_1 Hbc) as Hside.
    destruct (osfs_alloc_extent sb 1 inode) as [[r sb1] inode1] eqn:Halloc.
    cbn [fst snd] in Hsz, Hside.
    destruct (Z.eqb_spec r 0) as [-> | Hne].
    + assert (Hbc1 : is_uint32 (block_count sb1)).
      { destruct Hside as (_ & -> & _). exact Hbc. }
      destruct (write_loop_from_start buf sb1 (set_extent_count inode1 1) mem ppos Hbc1)
        as (ret & sb' & w' & Hrun & Hs & Hd & Hp & Hret & Hpre).
      exists ret, sb', w'.
      split; [exact Hrun|]. split; [cbn [set_extent_count set_extents i_size] in Hs; lia|].
      split; [exact Hd|]. split; [exact Hp|]. split; [exact Hret|].
      intros fuel Hfuel.
      destruct (Hpre fuel Hfuel) as (retp & sbp & wp & Hrunp & Hm & Hpp & Hsp & Hrp).
      exists retp, sbp, wp. split; [exact Hrunp|].
      split; [exact Hm|]. split; [exact Hpp|]. split; [exact Hsp|].
      intros _. exact Hrp.
    + destruct (osfs_alloc_extent_failure _ _ _ _ _ _ Z.lt_0_1 Hbc Halloc Hne)
        as (-> & -> & ->).
      exists (- ENOSPC), sb, (mk_io mem ppos 0 len inode).
      cbn [io_inode io_done io_pos io_mem].
      split; [intros fuel _; reflexivity|]. split; [lia|].
      split; [unfold len; lia|]. split; [lia|]. split; [right; reflexivity|].
      intros fuel _. cbn [Z.to_nat firstn List.length Z.of_nat].
      exists (- ENOSPC), sb, (mk_io mem ppos 0 0 inode).
      cbn [io_inode io_done io_pos io_mem].
      split; [reflexivity|]. repeat split. intros Hc. lia.
  - destruct (write_loop_from_start buf sb inode mem ppos Hbc)
      as (ret & sb' & w' & Hrun & Hs & Hd & Hp & Hret & Hpre).
    exists ret, sb', w'.
    split; [exact Hrun|]. split; [exact Hs|].
    split; [exact Hd|]. split; [exact Hp|]. split; [exact Hret|].
    intros fuel Hfuel.
    destruct (Hpre fuel Hfuel) as (retp & sbp & wp & Hrunp & Hm & Hpp & Hsp & Hrp).
    exists retp, sbp, wp. split; [exact Hrunp|].
    split; [exact Hm|]. split; [exact Hpp|]. split; [exact Hsp|].
    intros _. exact Hrp.
Qed.

End FileWrite.

Lemma osfs_write_failure_keeps_partial_write_witness :
  exists ret sb' w',
    osfs_write 4096 6 vol_single_block file_a blank_region (pattern 5000) 0
    = Some (ret, sb', w') /\
    i_size file_a <= i_size (io_inode w') /\
    ((ret = 5000 /\ io_done w' = 5000) \/ ret = - ENOSPC).
Proof.
  assert (Hbc : is_uint32 (block_count vol_single_block)).
  { unfold is_uint32. simpl. lia. }
  destruct (osfs_write_failure_keeps_partial_write 4096 vol_single_block file_a
              blank_region (pattern 5000) 0 Hbc)
    as (ret & sb' & w' & Hrun & Hsz & _ & _ & Hret & _).
  exists ret, sb', w'.
  split; [apply Hrun; lia|]. split; [exact Hsz | exact Hret].
Defined.

(** C7, as stated, fails: file ["a"] owns the only block of the volume;
    a write of 5000 bytes copies the first 4096, cannot get a second
    extent, and returns [-ENOSPC] = -28, not the 4096 bytes written.
    The bytes copied are in the data region (sampled at offsets 0, 1,
    2048 and 4095), and the file position and [i_size] stand at 4096. *)
Lemma osfs_write_returns_error_not_count :
  match osfs_write 4096 6 vol_single_block file_a blank_region (pattern 5000) 0 with
  | Some (ret, _, w) =>
      ret = - 28 /\ io_done w = 4096 /\ io_pos w = 4096 /\
      i_size (io_inode w) = 4096 /\
      map (io_mem w) [0; 1; 2048; 4095]
      = map (fun k => nth k (pattern 5000) Byte.x00) [0; 1; 2048; 4095]%nat
  | None => False
  end.
Proof. vm_compute. repeat split. Qed.

(** C2 (the write and the read address the data region differently).
    File ["a"] holds block 0.  Writing 5000 bytes at offset 0 returns
    5000 with [i_size = 5000] and a second extent, block 1; but the
    second chunk is copied to the start of the region, over the first
    one, while the read takes it from offset 4096.  Reading the 5000
    bytes back returns 5000, yet byte 0 of the result is byte 4096 of the
    input, byte 904 is byte 904, and byte 4096 was never written.
    File ["b"] holds block 1: a write of three bytes at offset 0 finds no
    extent that covers offset 0, takes the three remaining extent slots,
    and returns [-ENOSPC] with nothing written. *)
Theorem osfs_write_read_round_trip_fails :
  match osfs_write 4096 6 vol_file_a file_a blank_region (pattern 5000) 0 with
  | Some (ret, _, w) =>
      ret = 5000 /\ i_size (io_inode w) = 5000 /\
      extents (io_inode w)
      = mk_extents (Extent.mk 0 1) (Extent.mk 1 1) Extent.zero Extent.zero /\
      let back := osfs_read 4096 (io_inode w) (io_mem w) 5000 0 in
      fst (fst back) = 5000 /\
      nth 0 (snd back) Byte.x00 = nth 4096 (pattern 5000) Byte.x00 /\
      nth 0 (snd back) Byte.x00 <> nth 0 (pattern 5000) Byte.x00 /\
      nth 904 (snd back) Byte.x00 = nth 904 (pattern 5000) Byte.x00 /\
      nth 4096 (snd back) Byte.x00 = Byte.xff /\
      nth 4096 (snd back) Byte.x00 <> nth 4096 (pattern 5000) Byte.x00
  | None => False
  end /\
  match osfs_write 4096 6 vol_two_files file_b blank_region (pattern 3) 0 with
  | Some (ret, sb', w) =>
      ret = - ENOSPC /\ io_done w = 0 /\ used_slots (io_inode w) = 4 /\
      nr_free_blocks sb' = 95
  | None => False
  end.
Proof.
  vm_compute. split; [|repeat split].
  split; [reflexivity|]. split; [reflexivity|]. split; [reflexivity|].
  split; [reflexivity|]. split; [reflexivity|].
  split; [intros H; discriminate H|].
  split; [reflexivity|]. split; [reflexivity|].
  intros H. discriminate H.
Qed.

(** ** What does round-trip *)

Lemma copy_round_trip (mem : data_region) (dst : Z) (src : list Byte.byte) :
  copy_to_user (copy_from_user mem dst src) dst (Z.of_nat (List.length src)) = src.
Proof.
  unfold copy_to_user. rewrite Nat2Z.id.
  apply (nth_ext _ _ Byte.x00 Byte.x00).
  - rewrite length_map, length_seq. reflexivity.
  - intros k Hk. rewrite length_map, length_seq in Hk.
    rewrite (nth_indep _ Byte.x00 ((fun j => copy_from_user mem dst src
                                                (dst + Z.of_nat j)) 0%nat))
      by (rewrite length_map, length_seq; exact Hk).
    rewrite (map_nth (fun j => copy_from_user mem dst src (dst + Z.of_nat j))).
    rewrite seq_nth by exact Hk. cbn [Nat.add].
    unfold copy_from_user.
    destruct (Z.leb_spec dst (dst + Z.of_nat k)); [|lia].
    destruct (Z.ltb_spec (dst + Z.of_nat k) (dst + Z.of_nat (List.length src))); [|lia].
    cbn [andb]. f_equal. lia.
Qed.

Section FirstExtent.

Variable BLOCK_SIZE : Z.

Lemma write_extents_nothing_left (buf : list Byte.byte) (n : nat) (i : Z)
    (w : io_state) :
  io_len w <= 0 -> write_extents BLOCK_SIZE n i buf w = w.
Proof.
  intros H. destruct n; cbn [write_extents]; [reflexivity|].
  destruct (Z.gtb_spec (io_len w) 0); [lia | reflexivity].
Qed.

Lemma read_extents_nothing_left (n : nat) (i : Z) (inode : osfs_inode)
    (mem : data_region) (ppos bytes_read : Z) (out : list Byte.byte) :
  read_extents BLOCK_SIZE n i inode mem 0 ppos bytes_read out
  = (bytes_read, ppos, out).
Proof. destruct n; reflexivity. Qed.

(** The one case in which the write and the read agree: the first extent
    slot of the file starts at block 0 and the bytes fit into it.  Then
    writing at offset 0 and reading back returns the bytes written. *)
Lemma osfs_write_read_first_extent (sb : osfs_sb_info) (inode : osfs_inode)
    (mem : data_region) (buf : list Byte.byte) (fuel : nat) :
  let n := Z.of_nat (List.length buf) in
  0 < n -> 0 < extent_count inode ->
  Extent.start_block (slot0 (extents inode)) = 0 ->
  n <= wrap32 (Extent.block_count (slot0 (extents inode)) * BLOCK_SIZE) ->
  exists w,
    osfs_write BLOCK_SIZE (S (S fuel)) sb inode mem buf 0 = Some (n, sb, w) /\
    osfs_read BLOCK_SIZE (io_inode w) (io_mem w) n 0 = (n, n, buf).
Proof.
  intros n Hn Hec Hstart Hfit.
  assert (Hs : extent_start BLOCK_SIZE (ext_get (extents inode) 0) = 0).
  { unfold extent_start, ext_get. cbn [Z.eqb]. rewrite Hstart. reflexivity. }
  assert (He : extent_end BLOCK_SIZE (ext_get (extents inode) 0)
               = wrap32 (Extent.block_count (slot0 (extents inode)) * BLOCK_SIZE)).
  { unfold extent_end. rewrite Hs. unfold ext_get. cbn [Z.eqb Z.add].
    unfold wrap32. apply Z.mod_mod. lia. }
  set (E := wrap32 (Extent.block_count (slot0 (extents inode)) * BLOCK_SIZE)) in *.
  set (inode' := if 0 + n >? i_size inode then set_i_size inode (0 + n) else inode).
  assert (Hino : n <= i_size inode' /\ extents inode' = extents inode /\
                 extent_count inode' = extent_count inode).
  { unfold inode'. destruct (Z.gtb_spec (0 + n) (i_size inode));
      cbn [set_i_size i_size extents extent_count]; repeat split; lia. }
  destruct Hino as (Hsz & Hext & Hcnt).
  exists (mk_io (copy_from_user mem 0 buf) n n 0 inode').
  destruct (Z.to_nat (extent_count inode)) as [|m] eqn:Hm; [lia|].
  split.
  - unfold osfs_write. fold n.
    destruct (Z.eqb_spec (extent_count inode) 0) as [Hc|_]; [lia|].
    cbn [write_loop io_len io_inode].
    destruct (Z.gtb_spec n 0) as [_|Hc]; [|lia].
    rewrite Hm. cbn [write_extents io_len io_pos io_inode io_done io_mem].
    destruct (Z.gtb_spec n 0) as [_|Hc]; [|lia].
    rewrite Hs, He.
    destruct (Z.geb_spec 0 0) as [_|Hc]; [|lia].
    destruct (Z.ltb_spec 0 E) as [_|Hc]; [|lia]. cbn [andb].
    replace (Z.min n (E - 0)) with n by lia.
    replace (0 - 0) with 0 by lia.
    change (Z.to_nat 0) with 0%nat. cbn [skipn].
    rewrite firstn_all2 by (unfold n; lia).
    replace (n - n) with 0 by lia. replace (0 + n) with n by lia.
    fold inode'. replace (0 + n) with n in inode' by lia.
    rewrite write_extents_nothing_left by (cbn [io_len]; lia).
    cbn [io_len]. cbn [Z.gtb Z.compare io_done]. reflexivity.
  - cbn [io_inode io_mem]. unfold osfs_read. rewrite Hcnt.
    destruct (Z.eqb_spec (extent_count inode) 0) as [Hc|_]; [lia|].
    destruct (Z.geb_spec 0 (i_size inode')) as [Hc|_]; [lia|]. cbn [orb].
    assert (HE : 0 <= E < 2 ^ 32) by apply wrap32_range.
    assert (Hsum : to_size_t (0 + n) = 0 + n)
      by (unfold to_size_t; apply Z.mod_small; lia).
    rewrite Hsum.
    destruct (Z.gtb_spec (0 + n) (i_size inode')) as [Hc|_]; [lia|].
    rewrite Hm. cbn [read_extents]. rewrite Hext.
    destruct (Z.gtb_spec n 0) as [_|Hc]; [|lia].
    rewrite Hs, He.
    destruct (Z.geb_spec 0 0) as [_|Hc]; [|lia].
    destruct (Z.ltb_spec 0 E) as [_|Hc]; [|lia]. cbn [andb].
    replace (Z.min n (E - 0)) with n by lia.
    replace (n - n) with 0 by lia.
    rewrite read_extents_nothing_left. cbn [app]. unfold n at 3.
    rewrite copy_round_trip. replace (0 + n) with n by lia. reflexivity.
Qed.

End FirstExtent.

(** ** Operations that keep the counters in step *)

Lemma osfs_alloc_extent_counters (sb : osfs_sb_info) (req : Z) (inode : osfs_inode) :
  0 < req -> counters_ok sb ->
  counters_ok (snd (fst (osfs_alloc_extent sb req inode))).
Proof.
  intros Hreq (Hr & Hb & Hi).
  destruct (osfs_alloc_extent_counter sb req inode Hreq Hr Hb)
    as (Hb' & Hr' & Hic & _ & Hfi & Hbm).
  split; [exact Hr' | split; [exact Hb'|]].
  unfold inode_counter_ok in *. rewrite Hic, Hfi, Hbm. exact Hi.
Qed.

Lemma osfs_add_dir_entry_counters (bs mfl des : Z) (fuel : nat) :
  forall sb parent d ino name name_len ret sb' parent' d',
    counters_ok sb ->
    osfs_add_dir_entry bs mfl des fuel sb parent d ino name name_len
    = Some (ret, sb', parent', d') ->
    counters_ok sb'.
Proof.
  induction fuel as [|fuel IH];
    intros sb parent d ino name name_len ret sb' parent' d' Hok Hrun;
    [discriminate|].
  cbn [osfs_add_dir_entry] in Hrun.
  destruct (name_len >? mfl); [injection Hrun as _ <- _ _; exact Hok|].
  destruct (find_free_slot bs des (Z.to_nat (extent_count parent)) 0 parent d);
    [injection Hrun as _ <- _ _; exact Hok|].
  pose proof (osfs_alloc_extent_counters sb 1 parent Z.lt_0_1 Hok) as Hok1.
  destruct (osfs_alloc_extent sb 1 parent) as [[r sb1] parent1].
  cbn [fst snd] in Hok1.
  destruct (r =? 0).
  - apply (IH _ _ _ _ _ _ _ _ _ _ Hok1 Hrun).
  - injection Hrun as _ <- _ _. exact Hok1.
Qed.

Lemma write_loop_counters (bs : Z) (buf : list Byte.byte) (fuel : nat) :
  forall sb w ret sb' w',
    counters_ok sb ->
    write_loop bs fuel buf sb w = Some (ret, sb', w') ->
    counters_ok sb'.
Proof.
  induction fuel as [|fuel IH]; intros sb w ret sb' w' Hok Hrun; [discriminate|].
  cbn [write_loop] in Hrun.
  destruct (io_len w >? 0); [|injection Hrun as _ <- _; exact Hok].
  cbv zeta in Hrun.
  destruct (io_len (write_extents bs (Z.to_nat (extent_count (io_inode w))) 0 buf w)
            >? 0).
  - pose proof (osfs_alloc_extent_counters sb 1
                  (io_inode (write_extents bs (Z.to_nat (extent_count (io_inode w)))
                                           0 buf w)) Z.lt_0_1 Hok) as Hok1.
    destruct (osfs_alloc_extent sb 1 _) as [[r sb1] inode1].
    cbn [fst snd] in Hok1.
    destruct (r =? 0).
    + apply (IH _ _ _ _ _ Hok1 Hrun).
    + injection Hrun as _ <- _. exact Hok1.
  - apply (IH _ _ _ _ _ Hok Hrun).
Qed.

(** [osfs_write] keeps both counters in step with the bitmaps. *)
Lemma osfs_write_counters (bs : Z) (fuel : nat) (sb sb' : osfs_sb_info)
    (inode : osfs_inode) (mem : data_region) (buf : list Byte.byte)
    (ppos ret : Z) (w' : io_state) :
  counters_ok sb ->
  osfs_write bs fuel sb inode mem buf ppos = Some (ret, sb', w') ->
  counters_ok sb'.
Proof.
  intros Hok Hrun. unfold osfs_write in Hrun.
  destruct (extent_count inode =? 0).
  - pose proof (osfs_alloc_extent_counters sb 1 inode Z.lt_0_1 Hok) as Hok1.
    destruct (osfs_alloc_extent sb 1 inode) as [[r sb1] inode1].
    cbn [fst snd] in Hok1.
    destruct (r =? 0).
    + apply (write_loop_counters _ _ _ _ _ _ _ _ Hok1 Hrun).
    + injection Hrun as _ <- _. exact Hok1.
  - apply (write_loop_counters _ _ _ _ _ _ _ _ Hok Hrun).
Qed.

(** A block freed twice drives the block counter ahead of the bitmap;
    [osfs_free_data_block] does not look at the bit it clears. *)
Lemma osfs_free_data_block_twice :
  let sb := mk_sb 50 2 48 0 3 3 in
  block_counter_ok sb /\
  block_counter_ok (osfs_free_data_block sb 1) /\
  ~ block_counter_ok (osfs_free_data_block (osfs_free_data_block sb 1) 1).
Proof.
  split; [reflexivity|]. split; [reflexivity|].
  intros H. vm_compute in H. discriminate H.
Qed.

(** * Further properties of the code *)

(** ** The bitmap allocators *)

Lemma get_free_inode_loop_first (sb : osfs_sb_info) (n : nat) (ino : Z) :
  0 <= ino ->
  (get_free_inode_loop n ino sb = (- ENOSPC, sb) /\
   forall k, ino <= k < ino + Z.of_nat n -> test_bit k (inode_bitmap sb) = true) \/
  (exists k, k < ino + Z.of_nat n /\ first_clear_bit (inode_bitmap sb) ino k /\
     get_free_inode_loop n ino sb = (to_int k, sb_take_inode sb k)).
Proof.
  revert ino. induction n as [|n IH]; intros ino Hino.
  - left. split; [reflexivity | intros k Hk; cbn in Hk; lia].
  - rewrite Nat2Z.inj_succ. cbn [get_free_inode_loop].
    destruct (test_bit ino (inode_bitmap sb)) eqn:Hbit; cbn [negb].
    + destruct (IH (ino + 1) ltac:(lia)) as [[Hr Hall] | (k & Hk & Hfirst & Hr)].
      * left. split; [exact Hr|]. intros k Hk.
        destruct (Z.eq_dec k ino) as [->|Hne]; [exact Hbit | apply Hall; lia].
      * right. exists k. split; [lia|]. split; [|exact Hr].
        destruct Hfirst as (Hle & Hclear & Hlow).
        split; [lia|]. split; [exact Hclear|].
        intros j Hj. destruct (Z.eq_dec j ino) as [->|Hne];
          [exact Hbit | apply Hlow; lia].
    + right. exists ino. split; [lia|]. split; [|reflexivity].
      split; [lia|]. split; [exact Hbit | intros j Hj; lia].
Qed.

(** X1: [osfs_get_free_inode] is first-fit from inode 1.  Either every
    inode number in [1 .. inode_count-1] is taken, and it returns
    [-ENOSPC] leaving the superblock as it was; or it returns the lowest
    free number [k >= 1], having set exactly bit [k] and decremented
    [nr_free_inodes].  Inode 0 is never handed out. *)
Theorem osfs_get_free_inode_first_fit (sb : osfs_sb_info) :
  0 <= inode_count sb <= 2 ^ 31 ->
  (osfs_get_free_inode sb = (- ENOSPC, sb) /\
   forall k, 1 <= k < inode_count sb -> test_bit k (inode_bitmap sb) = true) \/
  (exists k, 1 <= k < inode_count sb /\
     first_clear_bit (inode_bitmap sb) 1 k /\
     osfs_get_free_inode sb = (k, sb_take_inode sb k) /\
     (forall j, test_bit j (inode_bitmap (sb_take_inode sb k))
                = (k =? j) || test_bit j (inode_bitmap sb))).
Proof.
  intros Hcount. unfold osfs_get_free_inode.
  destruct (get_free_inode_loop_first sb (Z.to_nat (inode_count sb - 1)) 1 ltac:(lia))
    as [[Hr Hall] | (k & Hk & Hfirst & Hr)].
  - left. split; [exact Hr|]. intros k Hk. apply Hall. lia.
  - right. exists k.
    assert (Hk1 : 1 <= k) by apply Hfirst.
    assert (Hkc : k < inode_count sb) by lia.
    split; [lia|]. split; [exact Hfirst|]. split.
    + rewrite Hr. f_equal. unfold to_int.
      rewrite wrap32_small by lia.
      destruct (Z.ltb_spec k (2 ^ 31)); [reflexivity | lia].
    + intros j. cbn [sb_take_inode inode_bitmap]. apply test_set_bit. lia.
Qed.

Lemma osfs_get_free_inode_first_fit_witness :
  osfs_get_free_inode vol_root = (2, sb_take_inode vol_root 2).
Proof.
  destruct (osfs_get_free_inode_first_fit vol_root) as [[Hr _] | (k & Hk & Hf & Hr & _)].
  - simpl. lia.
  - vm_compute in Hr. discriminate Hr.
  - destruct Hf as (_ & Hclear & Hlow).
    assert (k = 2) as ->.
    { destruct (Z.lt_trichotomy k 2) as [Hlt | [Heq | Hgt]]; [| exact Heq |].
      - assert (k = 1) as -> by lia. discriminate Hclear.
      - specialize (Hlow 2 ltac:(lia)). discriminate Hlow. }
    exact Hr.
Defined.

Lemma alloc_data_block_loop_first (sb : osfs_sb_info) (n : nat) (i : Z) :
  0 <= i ->
  (alloc_data_block_loop n i sb = (- ENOSPC, None, sb) /\
   forall k, i <= k < i + Z.of_nat n -> test_bit k (block_bitmap sb) = true) \/
  (exists k, k < i + Z.of_nat n /\ first_clear_bit (block_bitmap sb) i k /\
     alloc_data_block_loop n i sb = (0, Some k, sb_take_block sb k)).
Proof.
  revert i. induction n as [|n IH]; intros i Hi.
  - left. split; [reflexivity | intros k Hk; cbn in Hk; lia].
  - rewrite Nat2Z.inj_succ. cbn [alloc_data_block_loop].
    destruct (test_bit i (block_bitmap sb)) eqn:Hbit; cbn [negb].
    + destruct (IH (i + 1) ltac:(lia)) as [[Hr Hall] | (k & Hk & Hfirst & Hr)].
      * left. split; [exact Hr|]. intros k Hk.
        destruct (Z.eq_dec k i) as [->|Hne]; [exact Hbit | apply Hall; lia].
      * right. exists k. split; [lia|]. split; [|exact Hr].
        destruct Hfirst as (Hle & Hclear & Hlow).
        split; [lia|]. split; [exact Hclear|].
        intros j Hj. destruct (Z.eq_dec j i) as [->|Hne];
          [exact Hbit | apply Hlow; lia].
    + right. exists i. split; [lia|]. split; [|reflexivity].
      split; [lia|]. split; [exact Hbit | intros j Hj; lia].
Qed.

Lemma popcount_upto_all_set (n : nat) (bm : Z) :
  (forall k, 0 <= k < Z.of_nat n -> test_bit k bm = true) ->
  popcount_upto n bm = Z.of_nat n.
Proof.
  induction n as [|n IH]; intros Hall; [reflexivity|].
  rewrite Nat2Z.inj_succ in *. cbn [popcount_upto].
  rewrite IH by (intros k Hk; apply Hall; lia).
  rewrite Hall by lia. lia.
Qed.

(** X2: [osfs_alloc_data_block] is first-fit from block 0 and keeps the
    counters in step.  From a state whose counters agree with the
    bitmaps it returns [-ENOSPC], stores no block number and changes
    nothing exactly when every block is taken, in which case
    [nr_free_blocks] is 0; otherwise it returns 0 with the lowest free
    block, marks that block, lowers [nr_free_blocks] by one, and the
    counters agree with the bitmaps again. *)
Theorem osfs_alloc_data_block_first_fit (sb : osfs_sb_info) :
  counters_ok sb ->
  (osfs_alloc_data_block sb = (- ENOSPC, None, sb) /\
   nr_free_blocks sb = 0 /\
   forall k, 0 <= k < block_count sb -> test_bit k (block_bitmap sb) = true) \/
  (exists k, 0 <= k < block_count sb /\
     first_clear_bit (block_bitmap sb) 0 k /\
     osfs_alloc_data_block sb = (0, Some k, sb_take_block sb k) /\
     nr_free_blocks (sb_take_block sb k) = nr_free_blocks sb - 1 /\
     counters_ok (sb_take_block sb k)).
Proof.
  intros (Hr & Hb & Hi). unfold osfs_alloc_data_block.
  destruct Hr as (Hic & Hbc & Hfi & Hfb).
  destruct (alloc_data_block_loop_first sb (Z.to_nat (block_count sb)) 0 ltac:(lia))
    as [[Hres Hall] | (k & Hk & Hfirst & Hres)].
  - left. unfold is_uint32 in Hbc. rewrite Z2Nat.id in Hall by lia.
    split; [exact Hres|]. split; [|intros k Hk; apply Hall; lia].
    unfold block_counter_ok, popcount in Hb.
    rewrite popcount_upto_all_set in Hb; [rewrite Z2Nat.id in Hb by lia; lia|].
    intros k Hk. rewrite Z2Nat.id in Hk by lia. apply Hall. lia.
  - right. exists k. unfold is_uint32 in Hbc. rewrite Z2Nat.id in Hk by lia.
    destruct Hfirst as (Hk0 & Hclear & Hlow).
    assert (Hkr : 0 <= k < block_count sb) by lia.
    pose proof (popcount_room _ _ _ Hkr Hclear) as Hroom.
    assert (Hnr : nr_free_blocks (sb_take_block sb k) = nr_free_blocks sb - 1).
    { cbn [sb_take_block nr_free_blocks]. unfold block_counter_ok in Hb.
      unfold is_uint32 in Hfb. apply wrap32_small. lia. }
    split; [exact Hkr|]. split; [split; [lia | split; assumption]|].
    split; [exact Hres|]. split; [exact Hnr|].
    split; [|split].
    + unfold sb_in_range. cbn [sb_take_block inode_count block_count
                                 nr_free_inodes nr_free_blocks].
      split; [exact Hic|]. split; [exact Hbc|]. split; [exact Hfi|].
      apply wrap32_range.
    + unfold block_counter_ok in *. rewrite Hnr.
      cbn [sb_take_block block_count block_bitmap].
      rewrite popcount_set_free_bit by assumption. lia.
    + exact Hi.
Qed.

Lemma osfs_alloc_data_block_first_fit_witness :
  osfs_alloc_data_block vol_two_files = (0, Some 2, sb_take_block vol_two_files 2).
Proof.
  assert (Hok : counters_ok vol_two_files).
  { split; [|split; reflexivity]. unfold sb_in_range, is_uint32. simpl. lia. }
  destruct (osfs_alloc_data_block_first_fit vol_two_files Hok)
    as [(Hres & _) | (k & Hk & Hfirst & Hres & _)].
  - vm_compute in Hres. discriminate Hres.
  - destruct Hfirst as (_ & Hclear & Hlow).
    assert (k = 2) as ->.
    { destruct (Z.lt_trichotomy k 2) as [Hlt | [Heq | Hgt]]; [| exact Heq |].
      - assert (k = 0 \/ k = 1) as [-> | ->] by lia; discriminate Hclear.
      - specialize (Hlow 2 ltac:(lia)). discriminate Hlow. }
    exact Hres.
Defined.

Lemma clear_set_bit (k bm : Z) :
  0 <= k -> test_bit k bm = false -> clear_bit k (set_bit k bm) = bm.
Proof.
  intros Hk Hbit. unfold clear_bit, set_bit, test_bit in *.
  apply Z.bits_inj'. intros j Hj.
  rewrite Z.clearbit_eqb by exact Hk. rewrite Z.setbit_eqb by exact Hk.
  destruct (Z.eqb_spec k j) as [->|Hne]; cbn [negb orb andb].
  - symmetry. exact Hbit.
  - apply andb_true_r.
Qed.

(** X3: freeing the block [osfs_alloc_data_block] has just handed out
    restores the superblock: bitmap and counter are as before the
    allocation. *)
Theorem osfs_alloc_then_free_data_block (sb sb' : osfs_sb_info) (k : Z) :
  is_uint32 (nr_free_blocks sb) ->
  osfs_alloc_data_block sb = (0, Some k, sb') ->
  osfs_free_data_block sb' k = sb.
Proof.
  intros Hnr Halloc. unfold osfs_alloc_data_block in Halloc.
  destruct (alloc_data_block_loop_first sb (Z.to_nat (block_count sb)) 0 ltac:(lia))
    as [[Hres _] | (k' & _ & Hfirst & Hres)]; rewrite Hres in Halloc.
  - discriminate Halloc.
  - injection Halloc as <- <-. destruct Hfirst as (Hk0 & Hclear & _).
    unfold osfs_free_data_block, sb_take_block.
    cbn [inode_count block_count nr_free_inodes nr_free_blocks
         inode_bitmap block_bitmap].
    rewrite clear_set_bit by assumption.
    replace (wrap32 (wrap32 (nr_free_blocks sb - 1) + 1)) with (nr_free_blocks sb).
    + destruct sb; reflexivity.
    + unfold wrap32. rewrite Zplus_mod_idemp_l.
      replace (nr_free_blocks sb - 1 + 1) with (nr_free_blocks sb) by lia.
      symmetry. apply Z.mod_small. exact Hnr.
Qed.

Lemma osfs_alloc_then_free_data_block_witness :
  osfs_free_data_block (sb_take_block vol_two_files 2) 2 = vol_two_files.
Proof.
  apply (osfs_alloc_then_free_data_block vol_two_files
           (sb_take_block vol_two_files 2) 2).
  - unfold is_uint32. simpl. lia.
  - reflexivity.
Defined.

(** X4: [osfs_free_data_block] does not look at the bit it clears.  From
    a state whose counters agree with the bitmaps, the block counter
    still agrees afterwards exactly when the block lies in the volume
    and was allocated; freeing a free block, or a block number outside
    the volume, leaves [nr_free_blocks] one too high. *)
Theorem osfs_free_data_block_safe_iff (sb : osfs_sb_info) (block_no : Z) :
  counters_ok sb -> 0 <= block_no ->
  (block_counter_ok (osfs_free_data_block sb block_no) <->
   (block_no < block_count sb /\ test_bit block_no (block_bitmap sb) = true)).
Proof.
  intros (Hr & Hb & _) Hb0. split.
  - intros Hok.
    destruct (Z.ltb_spec block_no (block_count sb)) as [Hin | Hout].
    + destruct (test_bit block_no (block_bitmap sb)) eqn:Hbit;
        [split; [exact Hin | reflexivity]|].
      exfalso. destruct Hr as (_ & Hbc & _ & Hfb).
      unfold block_counter_ok, osfs_free_data_block, popcount in *.
      cbn [nr_free_blocks block_count block_bitmap] in Hok.
      rewrite popcount_upto_clear_bit in Hok by exact Hb0.
      rewrite Hbit, andb_false_r in Hok.
      unfold is_uint32 in *.
      pose proof (popcount_upto_bounds (Z.to_nat (block_count sb)) (block_bitmap sb)).
      destruct (Z.eq_dec (nr_free_blocks sb) (2 ^ 32 - 1)) as [Hmax | Hnmax].
      * rewrite Hmax in Hok. change (wrap32 (2 ^ 32 - 1 + 1)) with 0 in Hok. lia.
      * rewrite wrap32_small in Hok by lia. lia.
    + exfalso. destruct Hr as (_ & Hbc & _ & Hfb).
      unfold block_counter_ok, osfs_free_data_block, popcount in *.
      cbn [nr_free_blocks block_count block_bitmap] in Hok.
      rewrite popcount_upto_clear_bit in Hok by exact Hb0.
      unfold is_uint32 in *. rewrite Z2Nat.id in Hok by lia.
      destruct (Z.ltb_spec block_no (block_count sb)) as [Hc|_]; [lia|].
      cbn [andb] in Hok.
      pose proof (popcount_upto_bounds (Z.to_nat (block_count sb)) (block_bitmap sb)).
      destruct (Z.eq_dec (nr_free_blocks sb) (2 ^ 32 - 1)) as [Hmax | Hnmax].
      * rewrite Hmax in Hok. change (wrap32 (2 ^ 32 - 1 + 1)) with 0 in Hok. lia.
      * rewrite wrap32_small in Hok by lia. lia.
  - intros [Hin Hbit].
    apply osfs_free_data_block_counter; [exact Hr | exact Hb | lia | exact Hbit].
Qed.

Lemma osfs_free_data_block_safe_iff_witness :
  block_counter_ok (osfs_free_data_block vol_two_files 1) /\
  ~ block_counter_ok (osfs_free_data_block vol_two_files 2).
Proof.
  assert (Hok : counters_ok vol_two_files).
  { split; [|split; reflexivity]. unfold sb_in_range, is_uint32. simpl. lia. }
  split.
  - apply (osfs_free_data_block_safe_iff vol_two_files 1 Hok); [lia|].
    split; [simpl; lia | reflexivity].
  - intros Hc.
    apply (osfs_free_data_block_safe_iff vol_two_files 2 Hok) in Hc; [|lia].
    destruct Hc as [_ Hbit]. discriminate Hbit.
Defined.

(** ** [osfs_alloc_extent], in full *)

Lemma ext_get_set_same (a : extent_array) (idx : Z) (e : osfs_extent) :
  0 <= idx < 4 -> ext_get (ext_set a idx e) idx = e.
Proof.
  intros H.
  assert (idx = 0 \/ idx = 1 \/ idx = 2 \/ idx = 3) as [-> | [-> | [-> | ->]]]
    by lia; reflexivity.
Qed.

Lemma ext_get_set_other (a : extent_array) (idx i : Z) (e : osfs_extent) :
  i <> idx -> ext_get (ext_set a idx e) i = ext_get a i.
Proof.
  intros Hne. unfold ext_set, ext_get.
  destruct (Z.eqb_spec idx 0) as [-> | H0].
  { destruct (Z.eqb_spec i 0); [contradiction | reflexivity]. }
  destruct (Z.eqb_spec idx 1) as [-> | H1].
  { destruct (Z.eqb_spec i 0); [reflexivity|].
    destruct (Z.eqb_spec i 1); [contradiction | reflexivity]. }
  destruct (Z.eqb_spec idx 2) as [-> | H2].
  { destruct (Z.eqb_spec i 0); [reflexivity|].
    destruct (Z.eqb_spec i 1); [reflexivity|].
    destruct (Z.eqb_spec i 2); [contradiction | reflexivity]. }
  destruct (Z.eqb_spec idx 3) as [-> | H3]; [|reflexivity].
  destruct (Z.eqb_spec i 0); [reflexivity|].
  destruct (Z.eqb_spec i 1); [reflexivity|].
  destruct (Z.eqb_spec i 2); [reflexivity|].
  destruct (Z.eqb_spec i 3); [contradiction | reflexivity].
Qed.

(** X5: what a successful [osfs_alloc_extent] does.  The run it takes is
    the lowest run of [required_blocks] free blocks of the volume; it
    goes into the first unused extent slot, all other slots and [i_size]
    stay, [extent_count] goes up by one; in the block bitmap exactly
    the blocks of the run are newly set, so no block in use is handed
    out and none is released. *)
Theorem osfs_alloc_extent_effect (sb sb' : osfs_sb_info) (req : Z)
    (inode inode' : osfs_inode) :
  0 < req -> is_uint32 (block_count sb) ->
  osfs_alloc_extent sb req inode = (0, sb', inode') ->
  exists s idx,
    free_run sb s req /\ (forall s', free_run sb s' req -> s <= s') /\
    first_free_slot inode idx /\
    ext_get (extents inode') idx = Extent.mk s req /\
    (forall i, i <> idx ->
       ext_get (extents inode') i = ext_get (extents inode) i) /\
    extent_count inode' = wrap32 (extent_count inode + 1) /\
    i_size inode' = i_size inode /\
    (forall k, test_bit k (block_bitmap sb')
               = ((s <=? k) && (k <? s + req)) || test_bit k (block_bitmap sb)) /\
    nr_free_blocks sb' = wrap32 (nr_free_blocks sb - req) /\
    inode_bitmap sb' = inode_bitmap sb /\ nr_free_inodes sb' = nr_free_inodes sb.
Proof.
  intros Hreq Hbc Halloc.
  pose proof (osfs_alloc_extent_spec sb req inode Hreq Hbc) as Hout.
  rewrite Halloc in Hout.
  inversion Hout as [Hno | s Hrun Hfull | s idx Hrun Hidx Hmin]; subst.
  exists s, idx.
  split; [exact Hrun|]. split; [exact Hmin|]. split; [exact Hidx|].
  destruct Hidx as (Hrange & _). destruct Hrun as (Hs & _).
  cbn [inode_take_slot set_extents extents extent_count i_size].
  split; [apply ext_get_set_same; exact Hrange|].
  split; [intros i Hi; apply ext_get_set_other; exact Hi|].
  split; [reflexivity|]. split; [reflexivity|].
  cbn [sb_take_run block_bitmap nr_free_blocks inode_bitmap nr_free_inodes].
  split; [|repeat split].
  intros k. rewrite mark_blocks_test by exact Hs.
  rewrite Z2Nat.id by lia. reflexivity.
Qed.

Lemma osfs_alloc_extent_effect_witness :
  exists s idx,
    free_run vol_two_files s 1 /\
    ext_get (extents (snd (osfs_alloc_extent vol_two_files 1 file_b))) idx
    = Extent.mk s 1.
Proof.
  destruct (osfs_alloc_extent vol_two_files 1 file_b) as [[r sb'] inode'] eqn:Ha.
  assert (r = 0) as ->.
  { apply (f_equal (fun x => fst (fst x))) in Ha. vm_compute in Ha.
    symmetry. exact Ha. }
  destruct (osfs_alloc_extent_effect vol_two_files sb' 1 file_b inode'
              Z.lt_0_1 ltac:(unfold is_uint32; simpl; lia) Ha)
    as (s & idx & Hrun & _ & _ & Hslot & _).
  exists s, idx. split; [exact Hrun | exact Hslot].
Defined.

Lemma all_slots_used_dec (inode : osfs_inode) :
  all_slots_used inode \/ exists idx, first_free_slot inode idx.
Proof.
  destruct (claim_extent_slot_spec 0 0 inode) as [[Hfull _] | (idx & Hidx & _)];
    [left; exact Hfull | right; exists idx; exact Hidx].
Qed.

(** With a free run and an unused slot the allocation goes through. *)
Lemma osfs_alloc_extent_succeeds (sb : osfs_sb_info) (req s : Z)
    (inode : osfs_inode) :
  0 < req -> is_uint32 (block_count sb) ->
  free_run sb s req -> ~ all_slots_used inode ->
  exists sb' inode', osfs_alloc_extent sb req inode = (0, sb', inode').
Proof.
  intros Hreq Hbc Hrun Hslot.
  pose proof (osfs_alloc_extent_spec sb req inode Hreq Hbc) as Hout.
  inversion Hout as [Hno Heq | s0 Hrun0 Hfull Heq | s0 idx Hrun0 Hidx Hmin Heq].
  - destruct (Hno s Hrun).
  - contradiction.
  - eexists. eexists. reflexivity.
Qed.

(** X6: when [osfs_alloc_extent] succeeds.  For [required_blocks > 0] it
    returns 0 exactly when the volume holds a run of that many free
    blocks and the inode has an unused extent slot; in every other case
    it returns [-ENOSPC] and changes neither superblock nor inode. *)
Theorem osfs_alloc_extent_success_iff (sb : osfs_sb_info) (req : Z)
    (inode : osfs_inode) :
  0 < req -> is_uint32 (block_count sb) ->
  (fst (fst (osfs_alloc_extent sb req inode)) = 0 <->
   ((exists s, free_run sb s req) /\ ~ all_slots_used inode)) /\
  (fst (fst (osfs_alloc_extent sb req inode)) <> 0 ->
   osfs_alloc_extent sb req inode = (- ENOSPC, sb, inode)).
Proof.
  intros Hreq Hbc.
  pose proof (osfs_alloc_extent_spec sb req inode Hreq Hbc) as Hout.
  split; [split|].
  - intros Hret.
    destruct (alloc_outcome_cases _ _ _ _ Hout) as [Hf | (s & idx & Hrun & Hidx & Hs)].
    + rewrite Hf in Hret. discriminate Hret.
    + split; [exists s; exact Hrun|].
      intros Hfull. exact (first_free_slot_not_full _ _ Hidx Hfull).
  - intros [[s Hrun] Hslot].
    destruct (osfs_alloc_extent_succeeds sb req s inode Hreq Hbc Hrun Hslot)
      as (sb' & inode' & ->). reflexivity.
  - intros Hret.
    destruct (alloc_outcome_cases _ _ _ _ Hout) as [Hf | (s & idx & _ & _ & Hs)].
    + exact Hf.
    + rewrite Hs in Hret. contradiction Hret. reflexivity.
Qed.

Lemma osfs_alloc_extent_success_iff_witness :
  fst (fst (osfs_alloc_extent vol_empty 3 zero_inode)) = 0.
Proof.
  apply (osfs_alloc_extent_success_iff vol_empty 3 zero_inode).
  - lia.
  - unfold is_uint32. simpl. lia.
  - split.
    + exists 0. split; [lia|]. split; [simpl; lia|].
      intros k Hk. unfold test_bit. apply Z.testbit_0_l.
    + intros (H0 & _). discriminate H0.
Defined.

(** X7: [osfs_alloc_extent] keeps both counters in step with the
    bitmaps.  From a consistent state the result is consistent again;
    on success the number of blocks in use grows by [required_blocks]
    and [nr_free_blocks] falls by the same amount, without wrapping. *)
Theorem osfs_alloc_extent_keeps_counters (sb sb' : osfs_sb_info) (req ret : Z)
    (inode inode' : osfs_inode) :
  0 < req -> counters_ok sb ->
  osfs_alloc_extent sb req inode = (ret, sb', inode') ->
  counters_ok sb' /\
  (ret = 0 ->
   nr_free_blocks sb' = nr_free_blocks sb - req /\
   popcount (block_count sb') (block_bitmap sb')
   = popcount (block_count sb) (block_bitmap sb) + req /\
   req <= nr_free_blocks sb).
Proof.
  intros Hreq Hok Halloc.
  pose proof (osfs_alloc_extent_counters sb req inode Hreq Hok) as Hok'.
  rewrite Halloc in Hok'. cbn [fst snd] in Hok'.
  split; [exact Hok'|]. intros ->.
  destruct Hok as (Hr & Hb & _). destruct Hok' as (Hr' & Hb' & _).
  pose proof (osfs_alloc_extent_spec sb req inode Hreq (proj1 (proj2 Hr))) as Hout.
  rewrite Halloc in Hout.
  destruct (alloc_outcome_cases _ _ _ _ Hout) as [Hf | (s & idx & Hrun & _ & Hs)];
    [discriminate Hf|].
  injection Hs as -> _.
  destruct (sb_take_run_counter sb s req Hreq Hr Hb Hrun) as [_ Hnr].
  split; [exact Hnr|].
  unfold block_counter_ok in Hb, Hb'. rewrite Hnr in Hb'.
  cbn [sb_take_run block_count] in Hb' |- *.
  destruct Hr' as (_ & _ & _ & Hfb'). unfold is_uint32 in Hfb'.
  rewrite Hnr in Hfb'. split; lia.
Qed.

Lemma osfs_alloc_extent_keeps_counters_witness :
  counters_ok (snd (fst (osfs_alloc_extent vol_two_files 1 file_b))).
Proof.
  assert (Hok : counters_ok vol_two_files).
  { split; [|split; reflexivity]. unfold sb_in_range, is_uint32. simpl. lia. }
  destruct (osfs_alloc_extent vol_two_files 1 file_b) as [[r sb'] inode'] eqn:Ha.
  exact (proj1 (osfs_alloc_extent_keeps_counters vol_two_files sb' 1 r file_b inode'
                  Z.lt_0_1 Hok Ha)).
Defined.

(** ** [osfs_new_inode] and [osfs_iget] *)

Lemma popcount_upto_lt_clear (n : nat) (bm : Z) :
  popcount_upto n bm < Z.of_nat n ->
  exists k, 0 <= k < Z.of_nat n /\ test_bit k bm = false.
Proof.
  induction n as [|n IH]; intros Hlt; [cbn in Hlt; lia|].
  rewrite Nat2Z.inj_succ in *. cbn [popcount_upto] in Hlt.
  destruct (test_bit (Z.of_nat n) bm) eqn:Hbit.
  - destruct IH as (k & Hk & Hc); [lia|]. exists k. split; [lia | exact Hc].
  - exists (Z.of_nat n). split; [lia | exact Hbit].
Qed.

Lemma free_counter_gives_clear_bit (count nr bm : Z) :
  0 <= count -> nr + popcount count bm = count -> 0 < nr ->
  exists k, 0 <= k < count /\ test_bit k bm = false.
Proof.
  intros Hc Hinv Hnr. unfold popcount in Hinv.
  destruct (popcount_upto_lt_clear (Z.to_nat count) bm) as (k & Hk & Hbit).
  - rewrite Z2Nat.id by lia. lia.
  - exists k. rewrite Z2Nat.id in Hk by lia. split; assumption.
Qed.

(** X8: when [osfs_new_inode] succeeds.  If the counters agree with the
    bitmaps, bit 0 of the inode bitmap is set (inode 0 is reserved), the
    mode is a directory, a regular file or a symlink, both free
    counters are non-zero and the kernel provides a VFS inode, the call
    returns an inode: its number is the lowest free number from 1 on,
    its record holds one extent of one block, and the block counter
    still agrees with the block bitmap. *)
Theorem osfs_new_inode_succeeds (st : fs_state) (uid gid now mode : Z) :
  counters_ok (fs_sb st) -> inode_count (fs_sb st) <= 2 ^ 31 ->
  test_bit 0 (inode_bitmap (fs_sb st)) = true ->
  S_ISDIR mode || S_ISREG mode || S_ISLNK mode = true ->
  nr_free_inodes (fs_sb st) <> 0 -> nr_free_blocks (fs_sb st) <> 0 ->
  exists vi st',
    osfs_new_inode st true uid gid now mode = (inl vi, st') /\
    first_clear_bit (inode_bitmap (fs_sb st)) 1 (vi_ino vi) /\
    vi_mode vi = mode /\ vi_size vi = 0 /\
    used_slots (fs_inodes st' (vi_ino vi)) = 1 /\
    extent_count (fs_inodes st' (vi_ino vi)) = 1 /\
    block_counter_ok (fs_sb st').
Proof.
  intros (Hr & Hb & Hi) Hic31 Hbit0 Hmode Hfi Hfb.
  destruct Hr as (Hic & Hbc & Hfir & Hfbr).
  unfold is_uint32 in Hic, Hbc, Hfir, Hfbr.
  destruct (free_counter_gives_clear_bit _ _ _ (proj1 Hic) Hi ltac:(lia))
    as (ki & Hki & Hkibit).
  destruct (free_counter_gives_clear_bit _ _ _ (proj1 Hbc) Hb ltac:(lia))
    as (kb & Hkb & Hkbbit).
  assert (Hki1 : 1 <= ki).
  { destruct (Z.eq_dec ki 0) as [-> | Hne]; [congruence | lia]. }
  unfold osfs_new_inode.
  assert (Hm : negb (S_ISDIR mode) && negb (S_ISREG mode) && negb (S_ISLNK mode) = false).
  { destruct (S_ISDIR mode), (S_ISREG mode), (S_ISLNK mode); try reflexivity;
      discriminate Hmode. }
  rewrite Hm.
  destruct (Z.eqb_spec (nr_free_inodes (fs_sb st)) 0) as [Hc|_]; [contradiction|].
  destruct (Z.eqb_spec (nr_free_blocks (fs_sb st)) 0) as [Hc|_]; [contradiction|].
  cbn [orb]. unfold osfs_get_free_inode.
  destruct (get_free_inode_loop_first (fs_sb st)
              (Z.to_nat (inode_count (fs_sb st) - 1)) 1 ltac:(lia))
    as [[_ Hall] | (k & Hk & Hfirst & Hres)].
  { rewrite Hall in Hkibit by lia. discriminate Hkibit. }
  rewrite Hres.
  assert (Hk1 : 1 <= k) by apply Hfirst.
  assert (Hkc : k < inode_count (fs_sb st)) by lia.
  assert (Hint : to_int k = k).
  { unfold to_int. rewrite wrap32_small by lia.
    destruct (Z.ltb_spec k (2 ^ 31)); [reflexivity | lia]. }
  rewrite Hint. rewrite (wrap32_small k) by lia.
  destruct (Z.ltb_spec k 0) as [Hc|_]; [lia|].
  unfold osfs_get_osfs_inode.
  change (inode_count (sb_take_inode (fs_sb st) k)) with (inode_count (fs_sb st)).
  destruct (Z.geb_spec k (inode_count (fs_sb st))) as [Hc|_]; [lia|].
  destruct (Z.eqb_spec k 0) as [Hc|_]; [lia|].
  cbn [orb negb].
  fold (fresh_record k mode uid gid now).
  assert (Hrun : free_run (sb_take_inode (fs_sb st) k) kb 1).
  { split; [lia|]. split; [cbn [sb_take_inode block_count]; lia|].
    intros j Hj. assert (j = kb) as -> by lia. exact Hkbbit. }
  assert (Hbc1 : is_uint32 (block_count (sb_take_inode (fs_sb st) k))) by exact Hbc.
  pose proof (osfs_alloc_extent_spec (sb_take_inode (fs_sb st) k) 1
                (fresh_record k mode uid gid now) Z.lt_0_1 Hbc1) as Hout.
  inversion Hout as [Hno Heq | s0 Hrun0 Hfull Heq | s0 idx Hrun0 Hidx Hmin Heq].
  { destruct (Hno kb Hrun). }
  { destruct Hfull as (H0 & _). discriminate H0. }
  assert (idx = 0) as ->.
  { apply (first_free_slot_unique (fresh_record k mode uid gid now)); [exact Hidx|].
    split; [lia|]. split; [reflexivity | intros j Hj; lia]. }
  cbn [Z.eqb negb].
  eexists. eexists. split; [reflexivity|].
  cbn [vi_ino vi_mode vi_size fs_inodes fs_sb].
  split; [exact Hfirst|]. split; [reflexivity|]. split; [reflexivity|].
  unfold store_inode. rewrite Z.eqb_refl.
  split; [reflexivity|]. split; [reflexivity|].
  assert (Hr1 : sb_in_range (sb_take_inode (fs_sb st) k)).
  { unfold sb_in_range, is_uint32.
    cbn [sb_take_inode inode_count block_count nr_free_inodes nr_free_blocks].
    pose proof (wrap32_range (nr_free_inodes (fs_sb st) - 1)). lia. }
  destruct (sb_take_run_counter (sb_take_inode (fs_sb st) k) s0 1 Z.lt_0_1 Hr1 Hb Hrun0)
    as [Hok _].
  exact Hok.
Qed.

Lemma osfs_new_inode_succeeds_witness :
  exists vi st',
    osfs_new_inode fs_root true 0 0 0 S_IFREG = (inl vi, st') /\ vi_ino vi = 2.
Proof.
  assert (Hok : counters_ok (fs_sb fs_root)).
  { split; [|split; reflexivity]. unfold sb_in_range, is_uint32. simpl. lia. }
  destruct (osfs_new_inode_succeeds fs_root 0 0 0 S_IFREG Hok)
    as (vi & st' & Hnew & Hfirst & _); try reflexivity.
  - simpl. lia.
  - intros Hc. discriminate Hc.
  - intros Hc. discriminate Hc.
  - exists vi, st'. split; [exact Hnew|].
    destruct Hfirst as (H1 & Hclear & Hlow).
    destruct (Z.lt_trichotomy (vi_ino vi) 2) as [Hlt | [Heq | Hgt]]; [| exact Heq |].
    + assert (Hv : vi_ino vi = 1) by lia. rewrite Hv in Hclear. discriminate Hclear.
    + specialize (Hlow 2 ltac:(lia)). discriminate Hlow.
Defined.

Lemma osfs_new_inode_vfs_fields (st st' : fs_state) (ok : bool)
    (uid gid now mode : Z) (vi : vfs_inode) :
  osfs_new_inode st ok uid gid now mode = (inl vi, st') ->
  vi_mode vi = mode /\ vi_uid vi = uid /\ vi_gid vi = gid.
Proof.
  intros Hnew. unfold osfs_new_inode in Hnew.
  destruct (negb (S_ISDIR mode) && negb (S_ISREG mode) && negb (S_ISLNK mode));
    [discriminate|].
  destruct ((nr_free_inodes (fs_sb st) =? 0) || (nr_free_blocks (fs_sb st) =? 0));
    [discriminate|].
  destruct (osfs_get_free_inode (fs_sb st)) as [ino sb1].
  destruct ((ino <? 0) || (wrap32 ino >=? inode_count sb1)); [discriminate|].
  destruct (negb ok); [discriminate|].
  destruct (osfs_get_osfs_inode sb1 (wrap32 ino)) as [p|]; [|discriminate].
  destruct (osfs_alloc_extent sb1 1 _) as [[ret sb2] rec1].
  destruct (negb (ret =? 0)); [discriminate|].
  injection Hnew as <- _. repeat split.
Qed.

(** X9: [osfs_iget] reads back what [osfs_new_inode] wrote.  After a
    successful [osfs_new_inode], [osfs_iget] of the new inode number on
    the resulting state returns a VFS inode with the same number, mode,
    owner, size 0 and the same record; and [osfs_iget] of number 0 or of
    a number from [inode_count] on fails with [-EFAULT]. *)
Theorem osfs_iget_after_new_inode (st st' : fs_state) (ok : bool)
    (uid gid now mode : Z) (vi : vfs_inode) :
  sb_in_range (fs_sb st) ->
  osfs_new_inode st ok uid gid now mode = (inl vi, st') ->
  (exists vi',
     osfs_iget (fs_sb st') (fs_inodes st') true (vi_ino vi) = inl vi' /\
     vi_ino vi' = vi_ino vi /\ vi_mode vi' = vi_mode vi /\
     vi_uid vi' = vi_uid vi /\ vi_gid vi' = vi_gid vi /\
     vi_size vi' = 0 /\ vi_private vi' = vi_private vi) /\
  (forall ino, 0 <= ino < 2 ^ 32 -> ino = 0 \/ inode_count (fs_sb st') <= ino ->
     osfs_iget (fs_sb st') (fs_inodes st') true ino = inr (- EFAULT)).
Proof.
  intros Hr Hnew.
  destruct (osfs_new_inode_vfs_fields _ _ _ _ _ _ _ _ Hnew) as (Hmode & Huid & Hgid).
  destruct (osfs_new_inode_success _ _ _ _ _ _ _ _ Hr Hnew)
    as (k & s & Hk & Hbit & Hrun & Hino & Hpriv & ->).
  cbn [fs_sb fs_inodes]. split.
  - unfold osfs_iget. rewrite Hino.
    assert (Hk32 : 0 <= k < 2 ^ 32) by (destruct Hr as ((_ & Hic) & _); lia).
    rewrite (wrap32_small k Hk32).
    unfold osfs_get_osfs_inode.
    cbn [new_inode_sb sb_take_run sb_take_inode inode_count].
    destruct (Z.eqb_spec k 0) as [Hc|_]; [lia|].
    destruct (Z.geb_spec k (inode_count (fs_sb st))) as [Hc|_]; [lia|].
    cbn [orb negb]. eexists. split; [reflexivity|].
    unfold store_inode. rewrite Z.eqb_refl.
    cbn [vi_ino vi_mode vi_uid vi_gid vi_size vi_private inode_take_slot
         set_extents fresh_record i_mode i_uid i_gid i_size].
    rewrite Hmode, Huid, Hgid, Hpriv. repeat split.
  - intros ino Hino32 Hbad. unfold osfs_iget.
    rewrite (wrap32_small ino Hino32). unfold osfs_get_osfs_inode.
    destruct Hbad as [-> | Hge]; [reflexivity|].
    destruct (Z.eqb_spec ino 0); [reflexivity|].
    destruct (Z.geb_spec ino (inode_count (new_inode_sb (fs_sb st) k s)));
      [reflexivity | lia].
Qed.

Lemma osfs_iget_after_new_inode_witness :
  match osfs_new_inode fs_root true 7 8 0 S_IFREG with
  | (inl vi, st') =>
      exists vi',
        osfs_iget (fs_sb st') (fs_inodes st') true (vi_ino vi) = inl vi' /\
        vi_uid vi' = vi_uid vi
  | (inr _, _) => False
  end.
Proof.
  assert (Hr : sb_in_range (fs_sb fs_root)).
  { unfold sb_in_range, is_uint32. simpl. lia. }
  destruct (osfs_new_inode fs_root true 7 8 0 S_IFREG) as [[vi | err] st'] eqn:Hnew.
  - destruct (osfs_iget_after_new_inode fs_root st' true 7 8 0 S_IFREG vi Hr Hnew)
      as ((vi' & Hget & _ & _ & Huid & _) & _).
    exists vi'. split; [exact Hget | exact Huid].
  - vm_compute in Hnew. discriminate Hnew.
Defined.

(** ** Growth by one block *)

(** One successful call for a single block, from a consistent state. *)
Lemma alloc_one_block_step (sb sb1 : osfs_sb_info) (inode inode1 : osfs_inode) :
  counters_ok sb ->
  osfs_alloc_extent sb 1 inode = (0, sb1, inode1) ->
  counters_ok sb1 /\ nr_free_blocks sb1 = nr_free_blocks sb - 1 /\
  used_slots inode1 = used_slots inode + 1 /\ i_size inode1 = i_size inode.
Proof.
  intros Hok Halloc.
  pose proof (osfs_alloc_extent_counters sb 1 inode Z.lt_0_1 Hok) as Hok1.
  rewrite Halloc in Hok1. cbn [fst snd] in Hok1.
  destruct Hok as (Hr & Hb & _).
  destruct (osfs_alloc_extent_takes_slot _ _ _ _ _ Z.lt_0_1 (proj1 (proj2 Hr)) Halloc)
    as [Hused _].
  pose proof (osfs_alloc_extent_keeps_size sb 1 inode Z.lt_0_1 (proj1 (proj2 Hr)))
    as Hsz.
  rewrite Halloc in Hsz. cbn [snd] in Hsz.
  pose proof (osfs_alloc_extent_spec sb 1 inode Z.lt_0_1 (proj1 (proj2 Hr))) as Hout.
  rewrite Halloc in Hout.
  destruct (alloc_outcome_cases _ _ _ _ Hout) as [Hf | (s & idx & Hrun & _ & Hs)];
    [discriminate Hf|].
  injection Hs as -> _.
  destruct (sb_take_run_counter sb s 1 Z.lt_0_1 Hr Hb Hrun) as [_ Hnr].
  split; [exact Hok1|]. split; [exact Hnr|]. split; [exact Hused | exact Hsz].
Qed.

(** ** [osfs_add_dir_entry], in full *)

(** X10: what [osfs_add_dir_entry] does to the directory and to the
    volume.  From a consistent state the counters stay consistent, and
    the directory pays one free block for every extent slot it takes.
    On success exactly one record changes: the first free record of
    the (possibly grown) directory, in extent order then slot order,
    receives the name and the inode number; a record in use is never
    overwritten.  On failure no record changes. *)
Theorem osfs_add_dir_entry_effect (bs mfl des : Z) (fuel : nat) :
  forall sb parent d ino name name_len ret sb' parent' d',
    counters_ok sb ->
    osfs_add_dir_entry bs mfl des fuel sb parent d ino name name_len
    = Some (ret, sb', parent', d') ->
    counters_ok sb' /\
    nr_free_blocks sb - nr_free_blocks sb' = used_slots parent' - used_slots parent /\
    (ret = 0 ->
     exists a,
       find (entry_free d) (insert_slots bs des parent') = Some a /\
       inode_no (d a) = 0 /\
       d' = store_dir_entry d a (new_dir_entry name name_len ino)) /\
    (ret <> 0 -> d' = d).
Proof.
  induction fuel as [|fuel IH];
    intros sb parent d ino name name_len ret sb' parent' d' Hok Hrun;
    [discriminate|].
  cbn [osfs_add_dir_entry] in Hrun.
  destruct (name_len >? mfl).
  { injection Hrun as <- <- <- <-.
    split; [exact Hok|]. split; [lia|]. split; [discriminate | reflexivity]. }
  destruct (find_free_slot bs des (Z.to_nat (extent_count parent)) 0 parent d)
    as [a|] eqn:Hfind.
  { injection Hrun as <- <- <- <-.
    split; [exact Hok|]. split; [lia|]. split; [|intros Hc; contradiction Hc; reflexivity].
    intros _. exists a. rewrite find_free_slot_first in Hfind.
    split; [exact Hfind|]. split; [|reflexivity].
    apply find_some in Hfind. destruct Hfind as [_ Hfree].
    unfold entry_free in Hfree. apply Z.eqb_eq. exact Hfree. }
  destruct (osfs_alloc_extent sb 1 parent) as [[r sb1] parent1] eqn:Halloc.
  destruct (Z.eqb_spec r 0) as [-> | Hne].
  - destruct (alloc_one_block_step _ _ _ _ Hok Halloc) as (Hok1 & Hnr & Hused & _).
    destruct (IH _ _ _ _ _ _ _ _ _ _ Hok1 Hrun) as (Hok' & Hpay & Hsucc & Hfail).
    split; [exact Hok'|]. split; [lia|]. split; assumption.
  - injection Hrun as <- <- <- <-.
    destruct Hok as (Hr & Hb & Hi).
    destruct (osfs_alloc_extent_failure _ _ _ _ _ _ Z.lt_0_1 (proj1 (proj2 Hr))
                Halloc Hne) as (-> & -> & ->).
    split; [split; [exact Hr | split; assumption]|].
    split; [lia|]. split; [intros Hc; discriminate Hc | reflexivity].
Qed.

Lemma osfs_add_dir_entry_effect_witness :
  match osfs_add_dir_entry 4096 255 260 5 vol_root root_dir all_entries_used
                           2 "a" 1 with
  | Some (_, sb', parent', _) =>
      nr_free_blocks vol_root - nr_free_blocks sb'
      = used_slots parent' - used_slots root_dir
  | None => False
  end.
Proof.
  assert (Hok : counters_ok vol_root).
  { split; [|split; reflexivity]. unfold sb_in_range, is_uint32. simpl. lia. }
  destruct (osfs_add_dir_entry 4096 255 260 5 vol_root root_dir all_entries_used
                               2 "a" 1) as [[[[ret sb'] parent'] d']|] eqn:Hrun.
  - exact (proj1 (proj2 (osfs_add_dir_entry_effect 4096 255 260 5 _ _ _ _ _ _ _ _ _ _
                           Hok Hrun))).
  - vm_compute in Hrun. discriminate Hrun.
Defined.

(** ** [osfs_write]: blocks taken and file size *)

Lemma size_law_refl (w : io_state) : size_law w w.
Proof. unfold size_law. rewrite Z.eqb_refl. reflexivity. Qed.

Lemma size_law_trans (w1 w2 w3 : io_state) :
  io_progress w1 w2 -> io_progress w2 w3 ->
  size_law w1 w2 -> size_law w2 w3 -> size_law w1 w3.
Proof.
  intros (Hl1 & Hd1 & Hp1 & _) (Hl2 & Hd2 & Hp2 & _) H12 H23.
  unfold size_law in *. revert H12 H23.
  destruct (Z.eqb_spec (io_done w3) (io_done w2)) as [E32 | N32];
    destruct (Z.eqb_spec (io_done w2) (io_done w1)) as [E21 | N21];
    destruct (Z.eqb_spec (io_done w3) (io_done w1)) as [E31 | N31];
    intros H12 H23; lia.
Qed.

Lemma size_law_set_inode (w : io_state) (inode : osfs_inode) :
  i_size inode = i_size (io_inode w) -> size_law w (io_set_inode w inode).
Proof.
  intros H. unfold size_law, io_set_inode. cbn [io_done io_inode io_pos].
  rewrite Z.eqb_refl. exact H.
Qed.

Lemma write_extents_size_law (bs : Z) (buf : list Byte.byte) (n : nat) :
  forall (i : Z) (w : io_state),
    0 <= io_len w -> size_law w (write_extents bs n i buf w).
Proof.
  induction n as [|n IH]; intros i w Hlen; [apply size_law_refl|].
  pose proof (write_extents_progress bs buf (S n) i w Hlen) as (Hprog & _).
  cbn [write_extents] in Hprog |- *.
  destruct (Z.gtb_spec (io_len w) 0) as [Hpos|_]; [|apply size_law_refl].
  destruct ((io_pos w >=? extent_start bs (ext_get (extents (io_inode w)) i))
            && (io_pos w <? extent_end bs (ext_get (extents (io_inode w)) i)))
    eqn:Hhit; [|apply IH; exact Hlen].
  apply andb_true_iff in Hhit. destruct Hhit as [_ Hlt]. apply Z.ltb_lt in Hlt.
  set (e := extent_end bs (ext_get (extents (io_inode w)) i)) in *.
  set (t := Z.min (io_len w) (e - io_pos w)) in *.
  assert (Ht : 1 <= t <= io_len w) by (unfold t; lia).
  match goal with
  | |- size_law w (write_extents bs n (i + 1) buf ?w1) =>
      set (w1v := w1) in *;
      assert (Hp1 : io_progress w w1v);
      [| assert (Hs1 : size_law w w1v);
         [| pose proof (write_extents_progress bs buf n (i + 1) w1v) as (Hp2 & _);
            [cbn [w1v io_len]; lia|];
            apply (size_law_trans w w1v _ Hp1 Hp2 Hs1);
            apply IH; cbn [w1v io_len]; lia ] ]
  end.
  - unfold io_progress, w1v. cbn [io_len io_done io_pos io_mem io_inode].
    split; [lia|]. split; [lia|]. split; [lia|].
    split; [|intros Hc; lia].
    destruct (Z.gtb_spec (io_pos w + t) (i_size (io_inode w)));
      cbn [set_i_size i_size]; lia.
  - unfold size_law, w1v. cbn [io_done io_pos io_inode].
    destruct (Z.eqb_spec (io_done w + t) (io_done w)) as [Hc|_]; [lia|].
    destruct (Z.gtb_spec (io_pos w + t) (i_size (io_inode w)));
      cbn [set_i_size i_size]; lia.
Qed.

Lemma write_loop_size_and_blocks (bs : Z) (buf : list Byte.byte) (fuel : nat) :
  forall sb w ret sb' w',
    counters_ok sb -> 0 <= io_len w ->
    write_loop bs fuel buf sb w = Some (ret, sb', w') ->
    size_law w w' /\
    nr_free_blocks sb - nr_free_blocks sb'
    = used_slots (io_inode w') - used_slots (io_inode w) /\
    used_slots (io_inode w) <= used_slots (io_inode w').
Proof.
  induction fuel as [|fuel IH]; intros sb w ret sb' w' Hok Hlen Hrun;
    [discriminate|].
  assert (Hbc : is_uint32 (block_count sb)) by apply Hok.
  cbn [write_loop] in Hrun.
  destruct (Z.gtb_spec (io_len w) 0) as [Hpos|_].
  2:{ injection Hrun as _ <- <-. split; [apply size_law_refl | lia]. }
  destruct (write_extents_progress bs buf (Z.to_nat (extent_count (io_inode w))) 0 w
              Hlen) as (Hp1 & Hext & _ & _).
  pose proof (write_extents_size_law bs buf (Z.to_nat (extent_count (io_inode w)))
                0 w Hlen) as Hs1.
  pose proof (used_slots_extents _ _ Hext) as Hu1.
  set (w1 := write_extents bs (Z.to_nat (extent_count (io_inode w))) 0 buf w) in *.
  assert (Hlen1 : 0 <= io_len w1) by apply Hp1.
  destruct (Z.gtb_spec (io_len w1) 0) as [Hpos1|_].
  - destruct (osfs_alloc_extent sb 1 (io_inode w1)) as [[r sb1] inode1] eqn:Halloc.
    destruct (Z.eqb_spec r 0) as [-> | Hne].
    + destruct (alloc_one_block_step _ _ _ _ Hok Halloc) as (Hok1 & Hnr & Hused & Hsz).
      pose proof (io_progress_set_inode w1 inode1 Hlen1 Hsz) as Hp2.
      pose proof (size_law_set_inode w1 inode1 Hsz) as Hs2.
      destruct (IH sb1 (io_set_inode w1 inode1) ret sb' w' Hok1 Hlen1 Hrun)
        as (Hs3 & Hpay & Hmono).
      destruct (write_loop_progress bs buf fuel sb1 (io_set_inode w1 inode1) ret sb' w'
                  (proj1 (proj2 (proj1 Hok1))) Hlen1 Hrun) as [Hp3 _].
      cbn [io_set_inode io_inode] in Hpay, Hmono.
      split; [|split; lia].
      apply (size_law_trans _ _ _ Hp1 (io_progress_trans _ _ _ Hp2 Hp3) Hs1).
      apply (size_law_trans _ _ _ Hp2 Hp3 Hs2 Hs3).
    + injection Hrun as _ <- <-.
      destruct (osfs_alloc_extent_failure _ _ _ _ _ _ Z.lt_0_1 Hbc Halloc Hne)
        as (_ & -> & ->).
      cbn [io_set_inode io_inode]. split; [|split; lia].
      apply (size_law_trans _ _ _ Hp1
               (io_progress_set_inode w1 (io_inode w1) Hlen1 eq_refl) Hs1).
      apply size_law_set_inode. reflexivity.
  - destruct (IH sb w1 ret sb' w' Hok Hlen1 Hrun) as (Hs3 & Hpay & Hmono).
    destruct (write_loop_progress bs buf fuel sb w1 ret sb' w' Hbc Hlen1 Hrun)
      as [Hp3 _].
    split; [apply (size_law_trans _ _ _ Hp1 Hp3 Hs1 Hs3) | split; lia].
Qed.

(** X11: what a write costs.  From a consistent state [osfs_write]
    leaves the counters consistent, and it takes exactly one free block
    for every extent slot of the inode it fills: at most four blocks,
    whatever the length of the input. *)
Theorem osfs_write_blocks_taken (bs : Z) (fuel : nat) (sb sb' : osfs_sb_info)
    (inode : osfs_inode) (mem : data_region) (buf : list Byte.byte)
    (ppos ret : Z) (w' : io_state) :
  counters_ok sb ->
  osfs_write bs fuel sb inode mem buf ppos = Some (ret, sb', w') ->
  counters_ok sb' /\
  nr_free_blocks sb - nr_free_blocks sb'
  = used_slots (io_inode w') - used_slots inode /\
  0 <= nr_free_blocks sb - nr_free_blocks sb' <= 4.
Proof.
  intros Hok Hrun.
  pose proof (osfs_write_counters bs fuel sb sb' inode mem buf ppos ret w' Hok Hrun)
    as Hok'.
  split; [exact Hok'|].
  pose proof (used_slots_bounds inode) as Hb0.
  pose proof (used_slots_bounds (io_inode w')) as Hb1.
  assert (Hlen0 : forall ino0,
             0 <= io_len (mk_io mem ppos 0 (Z.of_nat (List.length buf)) ino0))
    by (intros ino0; cbn [io_len]; lia).
  assert (Hpay : nr_free_blocks sb - nr_free_blocks sb'
                 = used_slots (io_inode w') - used_slots inode /\
                 used_slots inode <= used_slots (io_inode w')).
  { unfold osfs_write in Hrun.
    destruct (extent_count inode =? 0).
    - destruct (osfs_alloc_extent sb 1 inode) as [[r sb1] inode1] eqn:Halloc.
      destruct (Z.eqb_spec r 0) as [-> | Hne].
      + destruct (alloc_one_block_step _ _ _ _ Hok Halloc) as (Hok1 & Hnr & Hused & _).
        destruct (write_loop_size_and_blocks bs buf fuel sb1 _ ret sb' w' Hok1
                    (Hlen0 _) Hrun) as (_ & Hpay & Hmono).
        cbn [io_inode] in Hpay, Hmono.
        rewrite (used_slots_extents (set_extent_count inode1 1) inode1 eq_refl)
          in Hpay, Hmono.
        split; lia.
      + injection Hrun as _ <- <-.
        destruct (osfs_alloc_extent_failure _ _ _ _ _ _ Z.lt_0_1
                    (proj1 (proj2 (proj1 Hok))) Halloc Hne) as (_ & -> & ->).
        cbn [io_inode]. lia.
    - destruct (write_loop_size_and_blocks bs buf fuel sb _ ret sb' w' Hok
                  (Hlen0 _) Hrun) as (_ & Hpay & Hmono).
      cbn [io_inode] in Hpay, Hmono. split; assumption. }
  destruct Hpay as [Hpay Hle]. split; [exact Hpay | lia].
Qed.

Lemma osfs_write_blocks_taken_witness :
  match osfs_write 4096 6 vol_two_files file_b blank_region (pattern 3) 0 with
  | Some (_, sb', _) => 0 <= nr_free_blocks vol_two_files - nr_free_blocks sb' <= 4
  | None => False
  end.
Proof.
  assert (Hok : counters_ok vol_two_files).
  { split; [|split; reflexivity]. unfold sb_in_range, is_uint32. simpl. lia. }
  destruct (osfs_write 4096 6 vol_two_files file_b blank_region (pattern 3) 0)
    as [[[ret sb'] w']|] eqn:Hrun.
  - exact (proj2 (proj2 (osfs_write_blocks_taken 4096 6 _ _ _ _ _ _ _ _ Hok Hrun))).
  - vm_compute in Hrun. discriminate Hrun.
Defined.

(** The size law of the [while] loop needs nothing of the counters. *)
Lemma write_loop_size_law (bs : Z) (buf : list Byte.byte) (fuel : nat) :
  forall sb w ret sb' w',
    is_uint32 (block_count sb) -> 0 <= io_len w ->
    write_loop bs fuel buf sb w = Some (ret, sb', w') ->
    size_law w w'.
Proof.
  induction fuel as [|fuel IH]; intros sb w ret sb' w' Hbc Hlen Hrun;
    [discriminate|].
  cbn [write_loop] in Hrun.
  destruct (Z.gtb_spec (io_len w) 0) as [Hpos|_].
  2:{ injection Hrun as _ _ <-. apply size_law_refl. }
  destruct (write_extents_progress bs buf (Z.to_nat (extent_count (io_inode w))) 0 w
              Hlen) as (Hp1 & _).
  pose proof (write_extents_size_law bs buf (Z.to_nat (extent_count (io_inode w)))
                0 w Hlen) as Hs1.
  set (w1 := write_extents bs (Z.to_nat (extent_count (io_inode w))) 0 buf w) in *.
  assert (Hlen1 : 0 <= io_len w1) by apply Hp1.
  destruct (Z.gtb_spec (io_len w1) 0) as [Hpos1|_].
  - pose proof (osfs_alloc_extent_keeps_size sb 1 (io_inode w1) Z.lt_0_1 Hbc) as Hsz.
    pose proof (osfs_alloc_extent_inode_side sb 1 (io_inode w1) Z.lt_0_1 Hbc) as Hside.
    destruct (osfs_alloc_extent sb 1 (io_inode w1)) as [[r sb1] inode1] eqn:Halloc.
    cbn [fst snd] in Hsz, Hside.
    pose proof (io_progress_set_inode w1 inode1 Hlen1 Hsz) as Hp2.
    pose proof (size_law_set_inode w1 inode1 Hsz) as Hs2.
    destruct (Z.eqb_spec r 0) as [-> | Hne].
    + assert (Hbc1 : is_uint32 (block_count sb1)).
      { destruct Hside as (_ & Hsame & _). rewrite Hsame. exact Hbc. }
      pose proof (IH sb1 (io_set_inode w1 inode1) ret sb' w' Hbc1 Hlen1 Hrun) as Hs3.
      destruct (write_loop_progress bs buf fuel sb1 (io_set_inode w1 inode1) ret sb' w'
                  Hbc1 Hlen1 Hrun) as [Hp3 _].
      apply (size_law_trans _ _ _ Hp1 (io_progress_trans _ _ _ Hp2 Hp3) Hs1).
      apply (size_law_trans _ _ _ Hp2 Hp3 Hs2 Hs3).
    + injection Hrun as _ _ <-.
      apply (size_law_trans _ _ _ Hp1 Hp2 Hs1 Hs2).
  - pose proof (IH sb w1 ret sb' w' Hbc Hlen1 Hrun) as Hs3.
    destruct (write_loop_progress bs buf fuel sb w1 ret sb' w' Hbc Hlen1 Hrun)
      as [Hp3 _].
    apply (size_law_trans _ _ _ Hp1 Hp3 Hs1 Hs3).
Qed.

(** X12: the file size after a write.  On a volume whose block count
    fits its 32-bit field, whatever the counters say: the final file
    position is [ppos + bytes_written]; if no byte was written
    [i_size] is unchanged, otherwise it is the larger of the old size
    and the final file position, also when the write ends in
    [-ENOSPC]. *)
Theorem osfs_write_final_size (bs : Z) (fuel : nat) (sb sb' : osfs_sb_info)
    (inode : osfs_inode) (mem : data_region) (buf : list Byte.byte)
    (ppos ret : Z) (w' : io_state) :
  is_uint32 (block_count sb) ->
  osfs_write bs fuel sb inode mem buf ppos = Some (ret, sb', w') ->
  io_pos w' = ppos + io_done w' /\
  i_size (io_inode w') =
  if io_done w' =? 0 then i_size inode
  else Z.max (i_size inode) (ppos + io_done w').
Proof.
  intros Hbc Hrun.
  assert (Hcore : forall sb0 inode0,
             is_uint32 (block_count sb0) -> i_size inode0 = i_size inode ->
             write_loop bs fuel buf sb0
               (mk_io mem ppos 0 (Z.of_nat (List.length buf)) inode0)
             = Some (ret, sb', w') ->
             io_pos w' = ppos + io_done w' /\
             i_size (io_inode w') =
             if io_done w' =? 0 then i_size inode
             else Z.max (i_size inode) (ppos + io_done w')).
  { intros sb0 inode0 Hbc0 Hsz Hloop.
    assert (Hlen0 : 0 <= io_len (mk_io mem ppos 0 (Z.of_nat (List.length buf)) inode0))
      by (cbn [io_len]; lia).
    pose proof (write_loop_size_law bs buf fuel sb0 _ ret sb' w' Hbc0 Hlen0 Hloop)
      as Hlaw.
    destruct (write_loop_progress bs buf fuel sb0 _ ret sb' w' Hbc0 Hlen0 Hloop)
      as ((_ & _ & Hp & _) & _).
    unfold size_law in Hlaw. cbn [io_done io_pos io_inode] in Hlaw, Hp.
    assert (Hpos : io_pos w' = ppos + io_done w') by lia.
    split; [exact Hpos|]. rewrite Hlaw, Hsz, Hpos. reflexivity. }
  unfold osfs_write in Hrun.
  destruct (extent_count inode =? 0).
  - pose proof (osfs_alloc_extent_inode_side sb 1 inode Z.lt_0_1 Hbc) as Hside.
    pose proof (osfs_alloc_extent_keeps_size sb 1 inode Z.lt_0_1 Hbc) as Hsz.
    destruct (osfs_alloc_extent sb 1 inode) as [[r sb1] inode1].
    cbn [fst snd] in Hside, Hsz.
    destruct (r =? 0).
    + apply (Hcore sb1 (set_extent_count inode1 1)); [| exact Hsz | exact Hrun].
      destruct Hside as (_ & Hsame & _). rewrite Hsame. exact Hbc.
    + injection Hrun as _ _ <-. cbn [io_pos io_done io_inode Z.eqb].
      split; [lia | exact Hsz].
  - apply (Hcore sb inode Hbc eq_refl Hrun).
Qed.

(** On a volume whose free-block counter has run ahead of the bitmap,
    a write of ten bytes to file ["a"] ends with [i_size = 10]. *)
Lemma osfs_write_final_size_witness :
  match osfs_write 4096 6 (fs_sb fs_blocks_drifted) file_a blank_region
                   (pattern 10) 0 with
  | Some (_, _, w') => i_size (io_inode w') = 10
  | None => False
  end.
Proof.
  assert (Hbc : is_uint32 (block_count (fs_sb fs_blocks_drifted))).
  { unfold is_uint32. simpl. lia. }
  destruct (osfs_write 4096 6 (fs_sb fs_blocks_drifted) file_a blank_region
                       (pattern 10) 0) as [[[ret sb'] w']|] eqn:Hrun.
  - destruct (osfs_write_final_size 4096 6 _ _ _ _ _ _ _ _ Hbc Hrun) as [_ Hsz].
    assert (Hd : io_done w' = 10).
    { apply (f_equal (fun r => match r with
                                | Some (_, _, w) => io_done w
                                | None => 0
                                end)) in Hrun.
      vm_compute in Hrun. symmetry. exact Hrun. }
    rewrite Hsz, Hd. reflexivity.
  - vm_compute in Hrun. discriminate Hrun.
Defined.

(** ** [osfs_read] *)

Lemma map_seq_offset {A : Type} (f : nat -> A) (b : nat) :
  forall a, map f (seq a b) = map (fun k => f (a + k)%nat) (seq 0 b).
Proof.
  induction b as [|b IH]; intros a; [reflexivity|].
  cbn [seq map]. rewrite Nat.add_0_r. f_equal.
  rewrite IH. rewrite <- seq_shift, map_map.
  apply map_ext. intros k. f_equal. lia.
Qed.


Lemma copy_to_user_length (mem : data_region) (p n : Z) :
  List.length (copy_to_user mem p n) = Z.to_nat n.
Proof. unfold copy_to_user. rewrite length_map, length_seq. reflexivity. Qed.




(** ** [osfs_lookup] *)

Section DirLookup.

Variables BLOCK_SIZE DIR_ENTRY_SIZE : Z.

(** The scan of one extent stops at the first record that carries the
    name, in slot order. *)
Lemma lookup_entries_first (d : dir_region) (name : string) (name_len : Z)
    (base : Z) (n : nat) (j : Z) :
  option_map (entry_addr DIR_ENTRY_SIZE base)
             (lookup_entries DIR_ENTRY_SIZE n j base d name name_len)
  = find (name_matches d name name_len)
         (map (fun k => entry_addr DIR_ENTRY_SIZE base (j + Z.of_nat k)) (seq 0 n)).
Proof.
  revert j. induction n as [|n IH]; intros j; [reflexivity|].
  cbn [lookup_entries seq map find].
  replace (j + Z.of_nat 0) with j by lia.
  destruct (name_matches d name name_len (entry_addr DIR_ENTRY_SIZE base j));
    [reflexivity|].
  rewrite IH. rewrite <- seq_shift, map_map. f_equal.
  apply map_ext. intros k. f_equal. lia.
Qed.

Lemma lookup_extents_first (d : dir_region) (name : string) (name_len : Z)
    (parent : osfs_inode) (n : nat) (i : Z) :
  lookup_extents BLOCK_SIZE DIR_ENTRY_SIZE n i parent d name name_len
  = find (name_matches d name name_len)
         (dir_slots_from BLOCK_SIZE DIR_ENTRY_SIZE
            (lookup_entry_count BLOCK_SIZE DIR_ENTRY_SIZE) n i parent).
Proof.
  revert i. induction n as [|n IH]; intros i; [reflexivity|].
  cbn [lookup_extents dir_slots_from]. rewrite find_app_first.
  unfold extent_slots.
  pose proof (lookup_entries_first d name name_len
                (extent_start BLOCK_SIZE (ext_get (extents parent) i))
                (Z.to_nat (lookup_entry_count BLOCK_SIZE DIR_ENTRY_SIZE
                             (ext_get (extents parent) i))) 0) as Hf.
  unfold entry_addr in Hf at 2. cbn [Z.add] in Hf. rewrite <- Hf.
  destruct (lookup_entries DIR_ENTRY_SIZE _ 0 _ d name name_len); cbn [option_map];
    [reflexivity | apply IH].
Qed.

End DirLookup.

Lemma find_none_iff {A : Type} (f : A -> bool) (l : list A) :
  find f l = None <-> forall x, In x l -> f x = false.
Proof.
  split; [apply find_none|].
  induction l as [|x l IH]; intros H; [reflexivity|].
  cbn [find]. rewrite (H x (or_introl eq_refl)).
  apply IH. intros y Hy. apply H. right. exact Hy.
Qed.

(** X14: [osfs_lookup] is a first-match search.  It visits the records
    extent after extent and slot after slot, takes the first whose
    stored name has the length asked for and agrees with the name on
    that length, and hands back what [osfs_iget] makes of that record's
    inode number; whether the record is in use is not looked at.  It
    returns NULL exactly when no visited record carries the name. *)
Theorem osfs_lookup_first_match (bs des : Z) (sb : osfs_sb_info)
    (tbl : Z -> osfs_inode) (ok : bool) (parent : osfs_inode) (d : dir_region)
    (name : string) (name_len : Z) :
  osfs_lookup bs des sb tbl ok parent d name name_len
  = match find (name_matches d name name_len) (lookup_slots bs des parent) with
    | Some a => lookup_of_inode sb tbl ok (inode_no (d a))
    | None => LookupNone
    end
  /\ (osfs_lookup bs des sb tbl ok parent d name name_len = LookupNone <->
      forall a, In a (lookup_slots bs des parent) ->
                name_matches d name name_len a = false).
Proof.
  unfold osfs_lookup, lookup_slots. rewrite lookup_extents_first.
  split; [reflexivity|].
  rewrite <- find_none_iff.
  destruct (find (name_matches d name name_len) _) as [a|]; [|tauto].
  unfold lookup_of_inode.
  split; [|discriminate].
  destruct (osfs_iget sb tbl ok (inode_no (d a))); discriminate.
Qed.

(** ** A name added is a name found *)

Lemma substring_length (s : string) :
  forall n, (n <= String.length s)%nat -> String.length (substring 0 n s) = n.
Proof.
  induction s as [|c s IH]; intros n Hn.
  - cbn in Hn. assert (n = 0%nat) as -> by lia. reflexivity.
  - destruct n as [|n]; [reflexivity|].
    cbn [substring String.length]. f_equal. apply IH. cbn in Hn. lia.
Qed.

Lemma to_int_small (z : Z) : 0 <= z < 2 ^ 31 -> to_int z = z.
Proof.
  intros H. unfold to_int. rewrite wrap32_small by lia.
  destruct (Z.ltb_spec z (2 ^ 31)); [reflexivity | lia].
Qed.

(** For an extent of at most one block the two directory scans agree on
    the number of records. *)
Lemma single_block_entry_counts (bs des : Z) (e : osfs_extent) :
  0 < des -> 0 <= bs < 2 ^ 31 ->
  Extent.block_count e = 0 \/ Extent.block_count e = 1 ->
  lookup_entry_count bs des e = insert_entry_count bs des e.
Proof.
  intros Hdes Hbs Hbc. unfold lookup_entry_count, insert_entry_count.
  assert (Hq : 0 <= bs / des <= bs).
  { split; [apply Z.div_pos; lia|]. apply Z.div_le_upper_bound; nia. }
  destruct Hbc as [-> | ->].
  - rewrite !Z.mul_0_l. reflexivity.
  - rewrite !Z.mul_1_l. rewrite (wrap32_small bs) by lia.
    rewrite (to_int_small bs) by lia.
    unfold to_size_t. rewrite (Z.mod_small bs) by lia. reflexivity.
Qed.

Lemma single_block_slots (bs des : Z) (inode : osfs_inode) :
  0 < des -> 0 <= bs < 2 ^ 31 -> single_block_extents inode ->
  lookup_slots bs des inode = insert_slots bs des inode.
Proof.
  intros Hdes Hbs Hone. unfold lookup_slots, insert_slots.
  generalize (Z.to_nat (extent_count inode)) as n. generalize 0 as i.
  intros i n. revert i.
  induction n as [|n IH]; intros i; [reflexivity|].
  cbn [dir_slots_from]. rewrite IH.
  rewrite (single_block_entry_counts bs des _ Hdes Hbs (Hone i)). reflexivity.
Qed.

Lemma osfs_alloc_extent_single_block (sb sb1 : osfs_sb_info) (ret : Z)
    (inode inode1 : osfs_inode) :
  is_uint32 (block_count sb) -> single_block_extents inode ->
  osfs_alloc_extent sb 1 inode = (ret, sb1, inode1) ->
  single_block_extents inode1 /\ is_uint32 (block_count sb1) /\
  inode_count sb1 = inode_count sb.
Proof.
  intros Hbc Hone Halloc.
  pose proof (osfs_alloc_extent_spec sb 1 inode Z.lt_0_1 Hbc) as Hout.
  rewrite Halloc in Hout.
  destruct (alloc_outcome_cases _ _ _ _ Hout) as [Hf | (s & idx & _ & Hidx & Hs)].
  - injection Hf as _ -> ->. split; [assumption|]. split; [assumption | reflexivity].
  - injection Hs as _ -> ->. split; [|split; [exact Hbc | reflexivity]].
    intros i. unfold inode_take_slot, set_extents. cbn [extents].
    destruct (Z.eq_dec i idx) as [-> | Hne].
    + rewrite ext_get_set_same by (destruct Hidx as [H _]; exact H).
      right. reflexivity.
    + rewrite ext_get_set_other by exact Hne. apply (Hone i).
Qed.

(** Where a successful [osfs_add_dir_entry] stores the record. *)
Lemma osfs_add_dir_entry_stores (bs mfl des : Z) (fuel : nat) :
  forall sb parent d ino name name_len sb' parent' d',
    is_uint32 (block_count sb) -> single_block_extents parent ->
    osfs_add_dir_entry bs mfl des fuel sb parent d ino name name_len
    = Some (0, sb', parent', d') ->
    single_block_extents parent' /\ inode_count sb' = inode_count sb /\
    exists a, In a (insert_slots bs des parent') /\
              d' = store_dir_entry d a (new_dir_entry name name_len ino).
Proof.
  induction fuel as [|fuel IH];
    intros sb parent d ino name name_len sb' parent' d' Hbc Hone Hrun;
    [discriminate|].
  cbn [osfs_add_dir_entry] in Hrun.
  destruct (name_len >? mfl); [discriminate Hrun|].
  destruct (find_free_slot bs des (Z.to_nat (extent_count parent)) 0 parent d)
    as [a|] eqn:Hfind.
  { injection Hrun as <- <- <-. split; [exact Hone|]. split; [reflexivity|].
    exists a. rewrite find_free_slot_first in Hfind.
    apply find_some in Hfind. split; [exact (proj1 Hfind) | reflexivity]. }
  destruct (osfs_alloc_extent sb 1 parent) as [[r sb1] parent1] eqn:Halloc.
  destruct (osfs_alloc_extent_single_block _ _ _ _ _ Hbc Hone Halloc)
    as (Hone1 & Hbc1 & Hic1).
  destruct (Z.eqb_spec r 0) as [-> | Hne].
  - destruct (IH _ _ _ _ _ _ _ _ _ Hbc1 Hone1 Hrun) as (H1 & H2 & H3).
    split; [exact H1|]. split; [congruence | exact H3].
  - injection Hrun as -> _ _ _. contradiction Hne. reflexivity.
Qed.

Lemma find_only_match {A : Type} (f : A -> bool) (a : A) (l : list A) :
  In a l -> f a = true -> (forall x, In x l -> f x = true -> x = a) ->
  find f l = Some a.
Proof.
  induction l as [|x l IH]; intros Hin Hfa Honly; [contradiction Hin|].
  cbn [find]. destruct (f x) eqn:Hfx.
  - f_equal. apply Honly; [left; reflexivity | exact Hfx].
  - destruct Hin as [-> | Hin]; [congruence|].
    apply IH; [exact Hin | exact Hfa|].
    intros y Hy. apply Honly. right. exact Hy.
Qed.

(** The search of [osfs_lookup] over a directory whose record [a] was
    just written for [name], when no other visited record carries the
    name. *)
Lemma lookup_extents_stored (bs des : Z) (parent : osfs_inode) (d : dir_region)
    (a ino : Z) (name : string) (name_len : Z) :
  0 <= name_len <= Z.of_nat (String.length name) ->
  In a (lookup_slots bs des parent) ->
  (forall b, In b (lookup_slots bs des parent) ->
             name_matches d name name_len b = false) ->
  let d' := store_dir_entry d a (new_dir_entry name name_len ino) in
  lookup_extents bs des (Z.to_nat (extent_count parent)) 0 parent d' name name_len
  = Some a /\ inode_no (d' a) = ino.
Proof.
  intros Hlen Hin Hfresh d'.
  rewrite lookup_extents_first. fold (lookup_slots bs des parent).
  assert (Hat : d' a = new_dir_entry name name_len ino).
  { unfold d', store_dir_entry. rewrite Z.eqb_refl. reflexivity. }
  assert (Hmatch : name_matches d' name name_len a = true).
  { unfold name_matches. rewrite Hat. unfold new_dir_entry. cbn [filename].
    rewrite substring_length by lia. rewrite Z2Nat.id by lia.
    rewrite Z.eqb_refl, String.eqb_refl. reflexivity. }
  split; [|rewrite Hat; reflexivity].
  apply (find_only_match _ a _ Hin Hmatch).
  intros b Hb Hmb. destruct (Z.eq_dec b a) as [Heq | Hne]; [exact Heq|].
  exfalso. specialize (Hfresh b Hb).
  unfold name_matches, d', store_dir_entry in Hmb.
  apply Z.eqb_neq in Hne. rewrite Hne in Hmb.
  unfold name_matches in Hfresh. congruence.
Qed.

(** X15: a name added is a name found.  Take a directory whose extents
    hold one block each, a name of at least [name_len] characters, and
    a successful [osfs_add_dir_entry] for inode number [ino].  If no
    record of the directory carried the name before, [osfs_lookup] of
    the name in the directory as the call left it hands back what
    [osfs_iget] makes of [ino]. *)
Theorem osfs_add_dir_entry_then_lookup (bs mfl des : Z) (fuel : nat)
    (sb sb' : osfs_sb_info) (parent parent' : osfs_inode) (d d' : dir_region)
    (ino : Z) (name : string) (name_len : Z)
    (sb0 : osfs_sb_info) (tbl : Z -> osfs_inode) (ok : bool) :
  0 < des -> 0 <= bs < 2 ^ 31 ->
  is_uint32 (block_count sb) -> single_block_extents parent ->
  0 <= name_len <= Z.of_nat (String.length name) ->
  osfs_add_dir_entry bs mfl des fuel sb parent d ino name name_len
  = Some (0, sb', parent', d') ->
  (forall b, In b (lookup_slots bs des parent') ->
             name_matches d name name_len b = false) ->
  osfs_lookup bs des sb0 tbl ok parent' d' name name_len
  = lookup_of_inode sb0 tbl ok ino.
Proof.
  intros Hdes Hbs Hbc Hone Hlen Hrun Hfresh.
  destruct (osfs_add_dir_entry_stores _ _ _ _ _ _ _ _ _ _ _ _ _ Hbc Hone Hrun)
    as (Hone' & _ & a & Hin & ->).
  rewrite <- (single_block_slots bs des parent' Hdes Hbs Hone') in Hin.
  destruct (lookup_extents_stored bs des parent' d a ino name name_len Hlen Hin Hfresh)
    as [Hfind Hino].
  unfold osfs_lookup. rewrite Hfind, Hino. reflexivity.
Qed.

Lemma osfs_add_dir_entry_then_lookup_witness :
  match osfs_add_dir_entry 4096 255 260 5 vol_root root_dir no_entries
                           2 "a" 1 with
  | Some (_, _, parent', d') =>
      osfs_lookup 4096 260 vol_root no_inodes true parent' d' "a" 1
      = lookup_of_inode vol_root no_inodes true 2
  | None => False
  end.
Proof.
  destruct (osfs_add_dir_entry 4096 255 260 5 vol_root root_dir no_entries
                               2 "a" 1) as [[[[ret sb'] parent'] d']|] eqn:Hrun.
  - assert (ret = 0) as ->.
    { vm_compute in Hrun. injection Hrun as <- _ _ _. reflexivity. }
    apply (osfs_add_dir_entry_then_lookup 4096 255 260 5 vol_root sb' root_dir parent'
             no_entries d' 2 "a" 1 vol_root no_inodes true);
      [lia | lia | unfold is_uint32; simpl; lia | | simpl; lia | exact Hrun | ].
    + intros i. unfold root_dir, ext_get. cbn [extents slot0 slot1 slot2 slot3].
      destruct (i =? 0); [right; reflexivity|].
      destruct (i =? 1); [left; reflexivity|].
      destruct (i =? 2); [left; reflexivity|].
      destruct (i =? 3); left; reflexivity.
    + intros b _. reflexivity.
  - vm_compute in Hrun. discriminate Hrun.
Defined.

(** ** [osfs_iterate] on a directory of one extent *)

(** The inner loop, started at slot [j] with room for everything in use
    from there on, emits the records in use in slot order and counts
    the cursor up by one for each. *)
Lemma iterate_entries_all (des base count : Z) (d : dir_region) (n : nat) :
  forall (j : Z) (ctx : dir_context),
    0 <= j -> ((0 < n)%nat -> j + Z.of_nat n <= count) -> count <= 2 ^ 64 ->
    let L := used_entries d
               (map (fun k => base + (j + Z.of_nat k) * des) (seq 0 n)) in
    (List.length L <= ctx_room ctx)%nat ->
    iterate_entries des n j base count d ctx
    = (true, mk_ctx (ctx_pos ctx + Z.of_nat (List.length L))
                    (ctx_room ctx - List.length L) (ctx_out ctx ++ L)).
Proof.
  induction n as [|n IH]; intros j ctx Hj Hn Hc L Hroom.
  - cbn [iterate_entries]. subst L. cbn. rewrite Z.add_0_r, Nat.sub_0_r, app_nil_r.
    destruct ctx; reflexivity.
  - specialize (Hn (Nat.lt_0_succ n)).
    assert (Hsz : to_size_t j = j) by (unfold to_size_t; apply Z.mod_small; lia).
    set (L' := used_entries d
                 (map (fun k => base + (j + 1 + Z.of_nat k) * des) (seq 0 n))).
    assert (HL : L = if inode_no (d (base + j * des)) =? 0 then L'
                     else (filename (d (base + j * des)),
                           inode_no (d (base + j * des))) :: L').
    { subst L L'. cbn [seq map]. rewrite <- seq_shift, map_map.
      unfold used_entries. cbn [filter].
      replace (j + Z.of_nat 0) with j by lia. unfold entry_free at 1.
      replace (map (fun k => base + (j + Z.of_nat (S k)) * des) (seq 0 n))
        with (map (fun k => base + (j + 1 + Z.of_nat k) * des) (seq 0 n))
        by (apply map_ext; intros k; f_equal; f_equal; lia).
      destruct (inode_no (d (base + j * des)) =? 0); reflexivity. }
    clearbody L. subst L.
    cbn [iterate_entries]. rewrite Hsz.
    destruct (Z.ltb_spec j count) as [_ | Hge]; [|lia].
    unfold entry_addr.
    destruct (inode_no (d (base + j * des)) =? 0) eqn:Hfree.
    + apply (IH (j + 1) ctx); [lia | lia | exact Hc | exact Hroom].
    + cbn [List.length] in Hroom. unfold dir_emit.
      destruct (ctx_room ctx) as [|r] eqn:Hr; [lia|].
      rewrite (IH (j + 1)); [| lia | lia | exact Hc | cbn [ctx_set_pos ctx_room]; fold L'; lia].
      fold L'. cbn [ctx_set_pos ctx_pos ctx_room ctx_out List.length].
      rewrite <- app_assoc. cbn [app]. f_equal. f_equal. lia.
Qed.

(** The loops of [osfs_iterate] on a directory of one extent, entered
    with the cursor at [p >= 2]: the slots before [p - 2] are passed
    over, the records in use in the slots from [p - 2] on are emitted. *)
Lemma iterate_extents_single (bs des : Z) (inode : osfs_inode) (d : dir_region)
    (p : Z) (room : nat) (out : list (string * Z)) :
  0 < des -> 2 <= p < 2 ^ 31 ->
  let e := ext_get (extents inode) 0 in
  let L := used_entries d
             (skipn (Z.to_nat (p - 2))
                (extent_slots des (extent_start bs e) (iterate_entry_count bs des e))) in
  (List.length L <= room)%nat ->
  iterate_extents bs des 1 0 inode d (mk_ctx p room out)
  = (0, mk_ctx (p + Z.of_nat (List.length L)) (room - List.length L) (out ++ L)).
Proof.
  intros Hdes Hp e L Hroom.
  cbn [iterate_extents ctx_pos]. fold e.
  change (wrap32 (Extent.block_count e * bs) / des) with (iterate_entry_count bs des e).
  set (count := iterate_entry_count bs des e) in *.
  assert (Hcount : 0 <= count <= 2 ^ 32).
  { unfold count, iterate_entry_count.
    pose proof (wrap32_range (Extent.block_count e * bs)) as Hw.
    split; [apply Z.div_pos; lia|]. apply Z.div_le_upper_bound; nia. }
  rewrite (to_int_small (p - 2)) by lia.
  assert (Hsz : to_size_t (p - 2) = p - 2) by (unfold to_size_t; apply Z.mod_small; lia).
  rewrite Hsz.
  assert (Hslots : skipn (Z.to_nat (p - 2)) (extent_slots des (extent_start bs e) count)
                   = map (fun k => extent_start bs e + (p - 2 + Z.of_nat k) * des)
                         (seq 0 (Z.to_nat (count - (p - 2))))).
  { unfold extent_slots. rewrite skipn_map, skipn_seq. cbn [Nat.add].
    rewrite map_seq_offset. rewrite <- Z2Nat.inj_sub by lia.
    apply map_ext_in. intros k Hk. apply in_seq in Hk.
    f_equal. f_equal. lia. }
  subst L. rewrite Hslots in *.
  rewrite (iterate_entries_all des (extent_start bs e) count d
             (Z.to_nat (count - (p - 2))) (p - 2) (mk_ctx p room out));
    [reflexivity | lia | lia | lia | exact Hroom].
Qed.

(** X16: a first call of [osfs_iterate] on a directory of one extent.
    Entered with the cursor at 0 and room for every entry, it emits
    [.] and [..] and then each record in use exactly once, in slot
    order (the listing of the directory), returns 0, and leaves the
    cursor at 2 plus the number of entries. *)
Theorem osfs_iterate_first_call (bs des dot_ino dotdot_ino : Z)
    (inode : osfs_inode) (d : dir_region) (room : nat) (out : list (string * Z)) :
  0 < des -> extent_count inode = 1 ->
  let L := dir_listing bs des inode d in
  (2 + List.length L <= room)%nat ->
  osfs_iterate bs des dot_ino dotdot_ino inode d (mk_ctx 0 room out)
  = (0, mk_ctx (2 + Z.of_nat (List.length L)) (room - 2 - List.length L)
               (out ++ [("."%string, dot_ino); (".."%string, dotdot_ino)] ++ L)).
Proof.
  intros Hdes Hec L Hroom.
  assert (HL : L = used_entries d
                     (skipn (Z.to_nat (2 - 2))
                        (extent_slots des (extent_start bs (ext_get (extents inode) 0))
                           (iterate_entry_count bs des (ext_get (extents inode) 0))))).
  { unfold L, dir_listing. rewrite Hec.
    change (Z.to_nat 1) with 1%nat. change (Z.to_nat (2 - 2)) with 0%nat.
    cbn [dir_slots_from skipn]. rewrite app_nil_r. reflexivity. }
  destruct room as [|[|room]]; [lia | lia |].
  unfold osfs_iterate.
  assert (Hdots : dir_emit_dots dot_ino dotdot_ino (mk_ctx 0 (S (S room)) out)
                  = (true, mk_ctx 2 room
                             ((out ++ [("."%string, dot_ino)])
                              ++ [(".."%string, dotdot_ino)])))
    by reflexivity.
  cbn [ctx_pos Z.eqb]. rewrite Hdots, Hec.
  change (Z.to_nat 1) with 1%nat.
  rewrite (iterate_extents_single bs des inode d 2 room _ Hdes ltac:(lia));
    [| rewrite <- HL; lia].
  rewrite <- HL. rewrite <- !app_assoc. cbn [app Nat.sub].
  rewrite Nat.sub_0_r. reflexivity.
Qed.

Lemma osfs_iterate_first_call_witness :
  osfs_iterate 4096 260 1 1 root_dir dir_hole_a_b (mk_ctx 0 10 [])
  = (0, mk_ctx 4 6 [("."%string, 1); (".."%string, 1);
                    ("a"%string, 5); ("b"%string, 6)]).
Proof.
  apply (osfs_iterate_first_call 4096 260 1 1 root_dir dir_hole_a_b 10 []);
    [lia | reflexivity | vm_compute; lia].
Defined.

(** X17: resuming [osfs_iterate] on a directory of one extent.  Entered
    with the cursor at [p >= 2], it passes over the first [p - 2] slots
    of the extent, whether in use or not, and emits the records in use
    among the remaining slots; the cursor goes up by the number of
    entries emitted, not by the number of slots visited. *)
Theorem osfs_iterate_resume (bs des dot_ino dotdot_ino : Z)
    (inode : osfs_inode) (d : dir_region) (p : Z) (room : nat)
    (out : list (string * Z)) :
  0 < des -> extent_count inode = 1 -> 2 <= p < 2 ^ 31 ->
  let e := ext_get (extents inode) 0 in
  let L := used_entries d
             (skipn (Z.to_nat (p - 2))
                (extent_slots des (extent_start bs e) (iterate_entry_count bs des e))) in
  (List.length L <= room)%nat ->
  osfs_iterate bs des dot_ino dotdot_ino inode d (mk_ctx p room out)
  = (0, mk_ctx (p + Z.of_nat (List.length L)) (room - List.length L) (out ++ L)).
Proof.
  intros Hdes Hec Hp e L Hroom.
  unfold osfs_iterate. cbn [ctx_pos].
  destruct (Z.eqb_spec p 0) as [Hc | _]; [lia|].
  rewrite Hec. change (Z.to_nat 1) with 1%nat.
  exact (iterate_extents_single bs des inode d p room out Hdes Hp Hroom).
Qed.

Lemma osfs_iterate_resume_witness :
  osfs_iterate 4096 260 1 1 root_dir dir_hole_a_b (mk_ctx 3 10 [])
  = (0, mk_ctx 5 8 [("a"%string, 5); ("b"%string, 6)]).
Proof.
  apply (osfs_iterate_resume 4096 260 1 1 root_dir dir_hole_a_b 3 10 []);
    [lia | reflexivity | lia | vm_compute; lia].
Defined.

(** ** [osfs_create], then [osfs_lookup] *)

Lemma osfs_alloc_extent_keeps_fields (sb sb1 : osfs_sb_info) (req ret : Z)
    (inode inode1 : osfs_inode) :
  0 < req -> is_uint32 (block_count sb) ->
  osfs_alloc_extent sb req inode = (ret, sb1, inode1) ->
  i_mode inode1 = i_mode inode /\ i_uid inode1 = i_uid inode /\
  i_gid inode1 = i_gid inode /\ i_size inode1 = i_size inode /\
  i_blocks inode1 = i_blocks inode.
Proof.
  intros Hreq Hbc Halloc.
  pose proof (osfs_alloc_extent_spec sb req inode Hreq Hbc) as Hout.
  rewrite Halloc in Hout.
  destruct (alloc_outcome_cases _ _ _ _ Hout) as [Hf | (s & idx & _ & _ & Hs)].
  - injection Hf as _ _ ->. repeat split.
  - injection Hs as _ _ ->. repeat split.
Qed.

(** The record offsets a directory scan visits depend on the extents and
    on [extent_count] only. *)
Lemma dir_slots_from_extents (bs des : Z) (f : osfs_extent -> Z)
    (inode inode' : osfs_inode) (n : nat) :
  extents inode' = extents inode ->
  forall i, dir_slots_from bs des f n i inode' = dir_slots_from bs des f n i inode.
Proof.
  intros Hext. induction n as [|n IH]; intros i; [reflexivity|].
  cbn [dir_slots_from]. rewrite Hext, IH. reflexivity.
Qed.

Lemma lookup_extents_extents (bs des : Z) (inode inode' : osfs_inode)
    (d : dir_region) (name : string) (name_len : Z) (n : nat) :
  extents inode' = extents inode ->
  forall i, lookup_extents bs des n i inode' d name name_len
            = lookup_extents bs des n i inode d name name_len.
Proof.
  intros Hext. induction n as [|n IH]; intros i; [reflexivity|].
  cbn [lookup_extents]. rewrite Hext, IH. reflexivity.
Qed.

(** X18: a file created is a file found.  Let [osfs_create] succeed for
    [name] in a directory whose inode is allocated and whose extents
    hold one block each, and let no record of the directory have carried
    the name.  Then [osfs_lookup] of [name] in that directory, on the
    state [osfs_create] left, finds an inode with the number of the
    inode created, the mode and owner asked for, size 0, and the same
    inode record. *)
Theorem osfs_create_then_lookup (bs mfl des : Z) (fuel : nat) (st st' : fs_state)
    (dir_ino : Z) (ok : bool) (uid gid now : Z) (name : string) (name_len mode : Z)
    (vi : vfs_inode) :
  0 < des -> 0 <= bs < 2 ^ 31 ->
  sb_in_range (fs_sb st) ->
  test_bit dir_ino (inode_bitmap (fs_sb st)) = true ->
  single_block_extents (fs_inodes st dir_ino) ->
  0 <= name_len <= Z.of_nat (String.length name) ->
  osfs_create bs mfl des fuel st dir_ino ok uid gid now name name_len mode
  = Some (0, Some vi, st') ->
  (forall b, In b (lookup_slots bs des (fs_inodes st' dir_ino)) ->
             name_matches (fs_dir st) name name_len b = false) ->
  exists vi',
    osfs_lookup bs des (fs_sb st') (fs_inodes st') true (fs_inodes st' dir_ino)
                (fs_dir st') name name_len = LookupFound vi' /\
    vi_ino vi' = vi_ino vi /\ vi_mode vi' = mode /\ vi_uid vi' = uid /\
    vi_gid vi' = gid /\ vi_size vi' = 0 /\ vi_private vi' = vi_private vi.
Proof.
  intros Hdes Hbs Hr Hdir Hone Hlen Hrun Hfresh.
  unfold osfs_create in Hrun.
  destruct (name_len >? mfl); [discriminate Hrun|].
  destruct (osfs_new_inode st ok uid gid now mode) as [[inode | err] st1] eqn:Hnew;
    [|discriminate Hrun].
  destruct (osfs_new_inode_success _ _ _ _ _ _ _ _ Hr Hnew)
    as (k & s & Hk & Hbit & _ & Hino & Hpriv & ->).
  rewrite Hpriv in Hrun. cbn [fs_sb fs_inodes fs_dir] in Hrun.
  assert (Hne : dir_ino <> k) by (intros ->; congruence).
  assert (Hk32 : 0 <= k < 2 ^ 32) by (destruct Hr as ((_ & Hic) & _); lia).
  assert (Hbc : is_uint32 (block_count (new_inode_sb (fs_sb st) k s))).
  { destruct Hr as (_ & Hb & _). exact Hb. }
  match type of Hrun with
  | context [osfs_alloc_extent ?sb 1 ?r] =>
      set (rec1 := r) in Hrun;
      destruct (osfs_alloc_extent sb 1 rec1) as [[ret sb2] rec2] eqn:Halloc
  end.
  destruct (Z.eqb_spec ret 0) as [-> | _]; cbn [negb] in Hrun; [|discriminate Hrun].
  destruct (osfs_alloc_extent_keeps_fields _ _ _ _ _ _ Z.lt_0_1 Hbc Halloc)
    as (Hmode & Huid & Hgid & Hsize & _).
  assert (Hsb2 : is_uint32 (block_count sb2) /\
                 inode_count sb2 = inode_count (fs_sb st)).
  { pose proof (osfs_alloc_extent_inode_side _ 1 rec1 Z.lt_0_1 Hbc) as Hside.
    rewrite Halloc in Hside. cbn [fst snd] in Hside.
    destruct Hside as (Hic & Hbcs & _). split; [|exact Hic].
    rewrite Hbcs. exact Hbc. }
  destruct Hsb2 as [Hbc2 Hic2].
  match type of Hrun with
  | context [osfs_add_dir_entry _ _ _ _ _ (?tbl dir_ino) _ _ _ _] =>
      set (tbl2 := tbl) in Hrun
  end.
  assert (Hparent : tbl2 dir_ino = fs_inodes st dir_ino).
  { unfold tbl2, store_inode.
    destruct (Z.eqb_spec dir_ino k) as [Hc | _]; [contradiction | reflexivity]. }
  rewrite Hparent in Hrun.
  destruct (osfs_add_dir_entry bs mfl des fuel sb2 (fs_inodes st dir_ino) (fs_dir st)
              (vi_ino inode) name name_len) as [[[[ret' sb3] parent'] d']|] eqn:Hadd;
    [|discriminate Hrun].
  destruct (Z.eqb_spec ret' 0) as [-> | _]; cbn [negb] in Hrun; [|discriminate Hrun].
  injection Hrun as <- <-.
  destruct (osfs_add_dir_entry_stores _ _ _ _ _ _ _ _ _ _ _ _ _ Hbc2 Hone Hadd)
    as (Hone' & Hic3 & a & Hin & ->).
  cbn [fs_sb fs_inodes fs_dir] in Hfresh |- *.
  assert (Hdirrec : forall tbl v, store_inode tbl dir_ino v dir_ino = v).
  { intros tbl v. unfold store_inode. rewrite Z.eqb_refl. reflexivity. }
  rewrite Hdirrec in Hfresh |- *.
  match goal with
  | |- context [osfs_lookup _ _ _ _ _ ?p _ _ _] => set (parent2 := p) in *
  end.
  assert (Hext : extents parent2 = extents parent') by reflexivity.
  assert (Hcnt : extent_count parent2 = extent_count parent') by reflexivity.
  assert (Hslots : lookup_slots bs des parent2 = lookup_slots bs des parent').
  { unfold lookup_slots. rewrite Hcnt. apply dir_slots_from_extents. exact Hext. }
  rewrite Hslots in Hfresh.
  rewrite <- (single_block_slots bs des parent' Hdes Hbs Hone') in Hin.
  destruct (lookup_extents_stored bs des parent' (fs_dir st) a (vi_ino inode)
              name name_len Hlen Hin Hfresh) as [Hfind Hstored].
  unfold osfs_lookup. rewrite Hcnt, (lookup_extents_extents _ _ _ _ _ _ _ _ Hext).
  rewrite Hfind, Hstored.
  unfold osfs_iget. rewrite Hino, (wrap32_small k Hk32).
  unfold osfs_get_osfs_inode. rewrite Hic3, Hic2.
  destruct (Z.eqb_spec k 0) as [Hc | _]; [lia|].
  destruct (Z.geb_spec k (inode_count (fs_sb st))) as [Hc | _]; [lia|].
  cbn [orb negb]. eexists. split; [reflexivity|].
  assert (Hrec : store_inode (store_inode tbl2 dir_ino parent') dir_ino parent2 k
                 = set_extent_count rec2 1).
  { unfold store_inode at 1 2.
    destruct (Z.eqb_spec k dir_ino) as [Hc | _]; [congruence|].
    unfold tbl2, store_inode. rewrite Z.eqb_refl. reflexivity. }
  rewrite Hrec.
  cbn [vi_ino vi_mode vi_uid vi_gid vi_size vi_private set_extent_count set_extents
       i_mode i_uid i_gid i_size].
  rewrite Hmode, Huid, Hgid, Hsize, Hpriv.
  unfold rec1, store_inode. rewrite Z.eqb_refl.
  cbn [set_i_size inode_take_slot set_extents fresh_record
       i_mode i_uid i_gid i_size i_ino].
  repeat split.
Qed.

Lemma osfs_create_then_lookup_witness :
  match osfs_create 4096 255 260 5 fs_root 1 true 7 8 0 "a" 1 S_IFREG with
  | Some (_, Some vi, st') =>
      exists vi',
        osfs_lookup 4096 260 (fs_sb st') (fs_inodes st') true (fs_inodes st' 1)
                    (fs_dir st') "a" 1 = LookupFound vi' /\
        vi_ino vi' = vi_ino vi
  | _ => False
  end.
Proof.
  destruct (osfs_create 4096 255 260 5 fs_root 1 true 7 8 0 "a" 1 S_IFREG)
    as [[[ret [vi|]] st']|] eqn:Hrun.
  - assert (ret = 0) as ->.
    { vm_compute in Hrun. injection Hrun as <- _ _. reflexivity. }
    destruct (osfs_create_then_lookup 4096 255 260 5 fs_root st' 1 true 7 8 0
                "a" 1 S_IFREG vi) as (vi' & Hfound & Hino & _);
      [lia | lia | unfold sb_in_range, is_uint32; simpl; lia | reflexivity
      | | simpl; lia | exact Hrun | intros b _; reflexivity | ].
    + intros i. unfold fs_root, root_dir, store_inode, ext_get.
      cbn [fs_inodes Z.eqb Pos.eqb extents slot0 slot1 slot2 slot3].
      destruct (i =? 0); [right; reflexivity|].
      destruct (i =? 1); [left; reflexivity|].
      destruct (i =? 2); [left; reflexivity|].
      destruct (i =? 3); left; reflexivity.
    + exists vi'. split; [exact Hfound | exact Hino].
  - vm_compute in Hrun. discriminate Hrun.
  - vm_compute in Hrun. discriminate Hrun.
Defined.

(** ** A write inside one extent *)

(** A pass of the [for] loop of [osfs_write] when what is left fits the
    first extent that holds the file position: the extents before it
    are passed over, the bytes go to the offset of the position inside
    that extent, counted from the start of the data region, and nothing
    is left for the extents after it. *)
Lemma write_extents_hit (bs : Z) (buf : list Byte.byte) (k : nat) :
  forall (n : nat) (i0 : Z) (w : io_state),
    (k < n)%nat ->
    let e := ext_get (extents (io_inode w)) (i0 + Z.of_nat k) in
    (forall j, i0 <= j < i0 + Z.of_nat k ->
               in_extent bs (ext_get (extents (io_inode w)) j) (io_pos w) = false) ->
    in_extent bs e (io_pos w) = true ->
    0 < io_len w <= extent_end bs e - io_pos w ->
    write_extents bs n i0 buf w
    = mk_io (copy_from_user (io_mem w) (io_pos w - extent_start bs e)
               (firstn (Z.to_nat (io_len w)) (skipn (Z.to_nat (io_done w)) buf)))
            (io_pos w + io_len w) (io_done w + io_len w) 0
            (if io_pos w + io_len w >? i_size (io_inode w)
             then set_i_size (io_inode w) (io_pos w + io_len w)
             else io_inode w).
Proof.
  induction k as [|k IH]; intros n i0 w Hn e Hmiss Hhit Hlen;
    (destruct n as [|n]; [lia|]); cbn [write_extents];
    (destruct (Z.gtb_spec (io_len w) 0) as [_ | Hc]; [|lia]).
  - subst e. rewrite Z.add_0_r in *.
    unfold in_extent in Hhit. rewrite Hhit.
    rewrite Z.min_l by lia. rewrite write_extents_nothing_left by (cbn [io_len]; lia).
    rewrite Z.sub_diag. reflexivity.
  - pose proof (Hmiss i0 ltac:(lia)) as Hm. unfold in_extent in Hm. rewrite Hm.
    subst e. replace (i0 + Z.of_nat (S k)) with (i0 + 1 + Z.of_nat k) in * by lia.
    apply IH; [lia | | exact Hhit | exact Hlen].
    intros j Hj. apply Hmiss. lia.
Qed.

Lemma read_extents_hit (bs : Z) (inode : osfs_inode) (mem : data_region) (k : nat) :
  forall (n : nat) (i0 len ppos bytes_read : Z) (out : list Byte.byte),
    (k < n)%nat ->
    let e := ext_get (extents inode) (i0 + Z.of_nat k) in
    (forall j, i0 <= j < i0 + Z.of_nat k ->
               in_extent bs (ext_get (extents inode) j) ppos = false) ->
    in_extent bs e ppos = true ->
    0 < len <= extent_end bs e - ppos ->
    read_extents bs n i0 inode mem len ppos bytes_read out
    = (bytes_read + len, ppos + len, out ++ copy_to_user mem ppos len).
Proof.
  induction k as [|k IH]; intros n i0 len ppos bytes_read out Hn e Hmiss Hhit Hlen;
    (destruct n as [|n]; [lia|]); cbn [read_extents];
    (destruct (Z.gtb_spec len 0) as [_ | Hc]; [|lia]).
  - subst e. rewrite Z.add_0_r in *.
    unfold in_extent in Hhit. rewrite Hhit.
    rewrite Z.min_l by lia. rewrite Z.sub_diag.
    apply read_extents_nothing_left.
  - pose proof (Hmiss i0 ltac:(lia)) as Hm. unfold in_extent in Hm. rewrite Hm.
    subst e. replace (i0 + Z.of_nat (S k)) with (i0 + 1 + Z.of_nat k) in * by lia.
    apply IH; [lia | | exact Hhit | exact Hlen].
    intros j Hj. apply Hmiss. lia.
Qed.

(** X19: a write that fits one extent.  When slot [i] is the first
    extent holding [ppos] and the bytes fit between [ppos] and the end
    of that extent, [osfs_write] writes all of them without allocating:
    it returns their number and leaves the superblock and the extents
    as they were.  The bytes land in the data region at [ppos] minus
    the byte offset of the extent, that is at the offset inside the
    extent counted from the start of the region, whichever block the
    extent names.  [osfs_read] of the same range takes the bytes at
    region offset [ppos], so it returns what was written when the
    extent starts at block 0. *)
Theorem osfs_write_within_extent (bs : Z) (fuel : nat) (sb : osfs_sb_info)
    (inode : osfs_inode) (mem : data_region) (buf : list Byte.byte) (ppos i : Z) :
  let len := Z.of_nat (List.length buf) in
  let e := ext_get (extents inode) i in
  first_extent_holding bs inode ppos i ->
  0 < len <= extent_end bs e - ppos ->
  exists w',
    osfs_write bs (S (S fuel)) sb inode mem buf ppos = Some (len, sb, w') /\
    io_mem w' = copy_from_user mem (ppos - extent_start bs e) buf /\
    io_pos w' = ppos + len /\
    extents (io_inode w') = extents inode /\
    extent_count (io_inode w') = extent_count inode /\
    i_size (io_inode w') = Z.max (i_size inode) (ppos + len) /\
    osfs_read bs (io_inode w') (io_mem w') len ppos
    = (len, ppos + len, copy_to_user (io_mem w') ppos len) /\
    (extent_start bs e = 0 ->
     osfs_read bs (io_inode w') (io_mem w') len ppos = (len, ppos + len, buf)).
Proof.
  intros len e (Hi & Hhit & Hmiss) Hlen.
  set (inode' := if ppos + len >? i_size inode then set_i_size inode (ppos + len)
                 else inode).
  assert (Hino : extents inode' = extents inode /\
                 extent_count inode' = extent_count inode /\
                 i_size inode' = Z.max (i_size inode) (ppos + len)).
  { unfold inode'. destruct (Z.gtb_spec (ppos + len) (i_size inode));
      cbn [set_i_size extents extent_count i_size];
      (split; [reflexivity|]); (split; [reflexivity|]); lia. }
  destruct Hino as (Hext & Hcnt & Hsz).
  set (w' := mk_io (copy_from_user mem (ppos - extent_start bs e) buf)
                   (ppos + len) len 0 inode').
  assert (Hk : (Z.to_nat i < Z.to_nat (extent_count inode))%nat) by lia.
  assert (Hpass : write_extents bs (Z.to_nat (extent_count inode)) 0 buf
                    (mk_io mem ppos 0 len inode) = w').
  { rewrite (write_extents_hit bs buf (Z.to_nat i) _ 0 _ Hk);
      cbn [io_inode io_pos io_len io_done io_mem];
      rewrite ?Z.add_0_l, ?Z2Nat.id by lia.
    - unfold w', len. rewrite Nat2Z.id. cbn [skipn]. rewrite firstn_all. reflexivity.
    - intros j Hj. apply Hmiss. lia.
    - exact Hhit.
    - exact Hlen. }
  assert (Hread : osfs_read bs inode' (copy_from_user mem (ppos - extent_start bs e) buf)
                    len ppos
                  = (len, ppos + len,
                     copy_to_user (copy_from_user mem (ppos - extent_start bs e) buf)
                                  ppos len)).
  { unfold osfs_read. rewrite Hcnt, Hsz.
    destruct (Z.eqb_spec (extent_count inode) 0) as [Hc | _]; [lia|].
    destruct (Z.geb_spec ppos (Z.max (i_size inode) (ppos + len))) as [Hc | _]; [lia|].
    cbn [orb].
    assert (Hend : 0 <= extent_start bs e /\ extent_end bs e < 2 ^ 32).
    { split; [apply wrap32_range | apply wrap32_range]. }
    assert (Hge : extent_start bs e <= ppos).
    { unfold in_extent in Hhit. apply andb_true_iff in Hhit.
      destruct Hhit as [Hlo _]. apply Z.geb_le in Hlo. exact Hlo. }
    assert (Hsum : to_size_t (ppos + len) = ppos + len)
      by (unfold to_size_t; apply Z.mod_small; lia).
    rewrite Hsum.
    destruct (Z.gtb_spec (ppos + len) (Z.max (i_size inode) (ppos + len)))
      as [Hc | _]; [lia|].
    rewrite (read_extents_hit bs inode' _ (Z.to_nat i) _ 0 len ppos 0 [] Hk);
      rewrite ?Z.add_0_l, ?Z2Nat.id, ?Hext by lia.
    - reflexivity.
    - intros j Hj. apply Hmiss. lia.
    - exact Hhit.
    - exact Hlen. }
  exists w'. split.
  - unfold osfs_write. fold len.
    destruct (Z.eqb_spec (extent_count inode) 0) as [Hc | _]; [lia|].
    cbn [write_loop io_len io_inode].
    destruct (Z.gtb_spec len 0) as [_ | Hc]; [|lia].
    rewrite Hpass. unfold w' at 1 2. cbn [io_len Z.gtb Z.compare].
    destruct fuel; reflexivity.
  - unfold w'. cbn [io_mem io_pos io_inode].
    split; [reflexivity|]. split; [reflexivity|]. split; [exact Hext|].
    split; [exact Hcnt|]. split; [exact Hsz|]. split; [exact Hread|].
    intros Hzero. rewrite Hread, Hzero, Z.sub_0_r.
    unfold len. rewrite copy_round_trip. reflexivity.
Qed.

Lemma osfs_write_within_extent_witness :
  exists w',
    osfs_write 4096 2 vol_two_files file_b blank_region (pattern 10) 4100
    = Some (10, vol_two_files, w') /\
    io_mem w' = copy_from_user blank_region 4 (pattern 10).
Proof.
  destruct (osfs_write_within_extent 4096 0 vol_two_files file_b blank_region
              (pattern 10) 4100 0) as (w' & Hrun & Hmem & _).
  - split; [simpl; lia|]. split; [reflexivity|]. intros j Hj. lia.
  - vm_compute. split; [reflexivity | discriminate].
  - exists w'. split; [exact Hrun | exact Hmem].
Defined.

(** ** Error codes of [osfs_new_inode] and [osfs_create] *)

Lemma osfs_new_inode_error_cases (st st' : fs_state) (ok : bool)
    (uid gid now mode err : Z) :
  sb_in_range (fs_sb st) ->
  osfs_new_inode st ok uid gid now mode = (inr err, st') ->
  let unsupported :=
    negb (S_ISDIR mode) && negb (S_ISREG mode) && negb (S_ISLNK mode) in
  (unsupported = true /\ err = - EINVAL /\ st' = st) \/
  (unsupported = false /\ err = - ENOSPC) \/
  (unsupported = false /\ err = - ENOMEM /\ ok = false).
Proof.
  intros Hr Hnew unsupported. unfold osfs_new_inode in Hnew. fold unsupported in Hnew.
  destruct unsupported.
  { left. injection Hnew as <- <-. repeat split. }
  right.
  destruct ((nr_free_inodes (fs_sb st) =? 0) || (nr_free_blocks (fs_sb st) =? 0)).
  { left. injection Hnew as <- _. split; reflexivity. }
  unfold osfs_get_free_inode in Hnew.
  destruct (get_free_inode_loop_spec (fs_sb st)
              (Z.to_nat (inode_count (fs_sb st) - 1)) 1 ltac:(lia))
    as [[Heq _] | (k & Hk & Hbit & Heq)]; rewrite Heq in Hnew.
  - left. cbn in Hnew. injection Hnew as <- _. split; reflexivity.
  - destruct ((to_int k <? 0) ||
              (wrap32 (to_int k) >=? inode_count (sb_take_inode (fs_sb st) k)))
      eqn:Hchk.
    { left. injection Hnew as <- _. split; reflexivity. }
    apply orb_false_iff in Hchk. destruct Hchk as [Hneg Hge].
    assert (Hk32 : 0 <= k < 2 ^ 32).
    { destruct Hr as ((_ & Hic) & _). lia. }
    destruct (to_int_nonneg k Hk32 Hneg) as [Hint Hw].
    rewrite Hint, Hw in *.
    destruct ok; cbn [negb] in Hnew.
    2:{ right. injection Hnew as <- _. repeat split. }
    unfold osfs_get_osfs_inode in Hnew. rewrite Hge in Hnew.
    destruct (Z.eqb_spec k 0) as [Hc | _]; [lia|]. cbn [orb] in Hnew.
    destruct (osfs_alloc_extent (sb_take_inode (fs_sb st) k) 1
                (mk_inode k mode uid gid 0 0 now now now zero_extents 0))
      as [[ret sb2] rec1] eqn:Halloc.
    destruct (Z.eqb_spec ret 0) as [-> | Hne]; cbn [negb] in Hnew; [discriminate Hnew|].
    left. injection Hnew as <- _.
    destruct (osfs_alloc_extent_failure (sb_take_inode (fs_sb st) k) _ _ _ _ _
                Z.lt_0_1 (proj1 (proj2 Hr)) Halloc Hne) as [-> _].
    split; reflexivity.
Qed.

(** X20: the errors of [osfs_new_inode].  A failing call returns
    [-EINVAL], [-ENOSPC] or [-ENOMEM] and nothing else: [-EINVAL]
    exactly when the mode is not that of a directory, a regular file or
    a symbolic link, and then the state is left as it was; [-ENOMEM]
    only when the kernel gave no inode.  The [-EIO] exit after
    [osfs_get_osfs_inode] is never taken, since the inode number was
    checked against the same bounds just before. *)
Theorem osfs_new_inode_error_codes (st st' : fs_state) (ok : bool)
    (uid gid now mode err : Z) :
  sb_in_range (fs_sb st) ->
  osfs_new_inode st ok uid gid now mode = (inr err, st') ->
  (err = - EINVAL \/ err = - ENOSPC \/ err = - ENOMEM) /\
  err <> - EIO /\
  (err = - EINVAL <->
   S_ISDIR mode = false /\ S_ISREG mode = false /\ S_ISLNK mode = false) /\
  (err = - EINVAL -> st' = st) /\
  (err = - ENOMEM -> ok = false).
Proof.
  intros Hr Hnew.
  assert (Hmode : negb (S_ISDIR mode) && negb (S_ISREG mode) && negb (S_ISLNK mode)
                  = true <->
                  S_ISDIR mode = false /\ S_ISREG mode = false /\ S_ISLNK mode = false).
  { destruct (S_ISDIR mode), (S_ISREG mode), (S_ISLNK mode); cbn; intuition congruence. }
  destruct (osfs_new_inode_error_cases _ _ _ _ _ _ _ _ Hr Hnew)
    as [(Hu & -> & ->) | [(Hu & ->) | (Hu & -> & ->)]].
  - split; [left; reflexivity|]. split; [discriminate|].
    split; [split; [intros _; apply Hmode; exact Hu | reflexivity]|].
    split; [reflexivity | discriminate].
  - split; [right; left; reflexivity|]. split; [discriminate|].
    split; [split; [discriminate | intros H; apply Hmode in H; congruence]|].
    split; discriminate.
  - split; [right; right; reflexivity|]. split; [discriminate|].
    split; [split; [discriminate | intros H; apply Hmode in H; congruence]|].
    split; [discriminate | reflexivity].
Qed.

Lemma osfs_new_inode_error_codes_witness :
  fst (osfs_new_inode fs_blocks_drifted true 0 0 0 S_IFREG) = inr (- ENOSPC).
Proof.
  assert (Hr : sb_in_range (fs_sb fs_blocks_drifted)).
  { unfold sb_in_range, is_uint32. simpl. lia. }
  destruct (osfs_new_inode fs_blocks_drifted true 0 0 0 S_IFREG)
    as [[vi | err] st'] eqn:Hnew.
  - vm_compute in Hnew. discriminate Hnew.
  - destruct (osfs_new_inode_error_codes fs_blocks_drifted st' true 0 0 0 S_IFREG err
                Hr Hnew) as ([-> | [-> | ->]] & _ & Hinv & _ & Hmem).
    + exfalso. destruct (proj1 Hinv eq_refl) as (_ & Hreg & _).
      vm_compute in Hreg. discriminate Hreg.
    + reflexivity.
    + exfalso. specialize (Hmem eq_refl). discriminate Hmem.
Defined.

(** X21: [osfs_create] returns, and what it returns.  On a volume whose
    sizes fit their C types and with a recursion budget of at least 5
    for [osfs_add_dir_entry], the call always comes back: with 0 and
    the inode bound to the dentry, or with no inode and one of
    [-ENAMETOOLONG], [-EINVAL], [-ENOSPC], [-ENOMEM].  The [-EIO] exit
    for a missing inode record is never taken. *)
Theorem osfs_create_returns (bs mfl des : Z) (fuel : nat) (st : fs_state)
    (dir_ino : Z) (ok : bool) (uid gid now : Z) (name : string)
    (name_len mode : Z) :
  sb_in_range (fs_sb st) -> (5 <= fuel)%nat ->
  exists ret r st',
    osfs_create bs mfl des fuel st dir_ino ok uid gid now name name_len mode
    = Some (ret, r, st') /\
    ((ret = 0 /\ exists vi, r = Some vi) \/
     (r = None /\
      (ret = - ENAMETOOLONG \/ ret = - EINVAL \/ ret = - ENOSPC \/ ret = - ENOMEM))).
Proof.
  intros Hr Hfuel. unfold osfs_create.
  destruct (Z.gtb_spec name_len mfl) as [Hlong | Hfits].
  { do 3 eexists. split; [reflexivity|]. right. split; [reflexivity|].
    left. reflexivity. }
  destruct (osfs_new_inode st ok uid gid now mode) as [[inode | err] st1] eqn:Hnew.
  2:{ do 3 eexists. split; [reflexivity|]. right. split; [reflexivity|].
      destruct (osfs_new_inode_error_cases _ _ _ _ _ _ _ _ Hr Hnew)
        as [(_ & -> & _) | [(_ & ->) | (_ & -> & _)]]; tauto. }
  destruct (osfs_new_inode_success _ _ _ _ _ _ _ _ Hr Hnew)
    as (k & s & Hk & Hbit & _ & Hino & Hpriv & ->).
  rewrite Hpriv. cbn [fs_sb fs_inodes fs_dir].
  assert (Hbc : is_uint32 (block_count (new_inode_sb (fs_sb st) k s))).
  { destruct Hr as (_ & Hb & _). exact Hb. }
  match goal with
  | |- context [osfs_alloc_extent ?sb 1 ?r] =>
      set (rec1 := r);
      pose proof (osfs_alloc_extent_inode_side sb 1 rec1 Z.lt_0_1 Hbc) as Hside;
      destruct (osfs_alloc_extent sb 1 rec1) as [[ret sb2] rec2] eqn:Halloc
  end.
  cbn [fst snd] in Hside. destruct Hside as (_ & Hbcs & _).
  destruct (Z.eqb_spec ret 0) as [-> | Hne]; cbn [negb].
  2:{ do 3 eexists. split; [reflexivity|]. right. split; [reflexivity|].
      destruct (osfs_alloc_extent_failure _ _ _ _ _ _ Z.lt_0_1 Hbc Halloc Hne)
        as [-> _]. tauto. }
  assert (Hbc2 : is_uint32 (block_count sb2)) by (rewrite Hbcs; exact Hbc).
  match goal with
  | |- context [osfs_add_dir_entry _ _ _ _ _ ?p ?d ?i _ _] =>
      destruct (osfs_add_dir_entry_returns bs mfl des fuel sb2 p d i name name_len
                  Hbc2 Hfits) as (ret' & sb3 & parent' & d' & Hadd & Hret & _);
        [pose proof (used_slots_bounds p); lia | rewrite Hadd]
  end.
  destruct Hret as [-> | ->]; cbn [negb Z.eqb Z.opp ENOSPC].
  - do 3 eexists. split; [reflexivity|]. left. split; [reflexivity|].
    eexists. reflexivity.
  - do 3 eexists. split; [reflexivity|]. right. split; [reflexivity|]. tauto.
Qed.

Lemma osfs_create_returns_witness :
  exists ret r st',
    osfs_create 4096 255 260 5 fs_root 1 true 0 0 0 "a" 1 S_IFREG
    = Some (ret, r, st').
Proof.
  destruct (osfs_create_returns 4096 255 260 5 fs_root 1 true 0 0 0 "a" 1 S_IFREG)
    as (ret & r & st' & Hrun & _).
  - unfold sb_in_range, is_uint32. simpl. lia.
  - lia.
  - exists ret, r, st'. exact Hrun.
Defined.
